(** * Basketball arena (hw5.js): physics, shot model and scoring

    A shallow embedding of the simulation core of [src/hw5.js]: the
    [gameState] object, [isThreePointShot], [PhysicsSystem], [InputSystem]
    and the per-frame body of [animate].

    Numbers.  JavaScript numbers are IEEE doubles; the embedding idealises
    them as real numbers, so [+], [*], [/], [Math.sqrt], [Math.abs],
    [Math.min], [Math.max] are the exact operations of [R] and no rounding,
    overflow or NaN is modelled.  Comparisons are the decidable order of [R].

    Collaborators.  Calls on [ui], [particleSystem] and the hoops' net
    animation do not feed back into [gameState]; each call is recorded in a
    trace carried next to the state.  The program is modelled as it runs
    after [init]: [ui], [particleSystem] and both hoops exist, and the hoops'
    world matrices are those of the first render (right hoop unrotated, left
    hoop turned by half a turn about the vertical axis).  The delay of
    [setTimeout] is not modelled; the deferred calls are recorded as such.

    The collaborators themselves follow in modules of their own:
    [DayNightCycle], [ShotPredictor], the net animation ([Net]), the score
    and power panels of [GameUI] and [ParticleSystem].  The one value of the
    program that is not a number where one is expected,
    [ParticleSystem.performanceLevel] (read but never assigned), is modelled
    as an option there; [Math.random] is a stream of numbers given from
    outside. *)

From Stdlib Require Import Reals Lra Psatz ZArith String List Bool.
Import ListNotations.
Open Scope R_scope.

(** ** Comparisons of numbers as booleans *)

Module Num.

Definition ltb (a b : R) : bool := if Rlt_dec a b then true else false.
Definition leb (a b : R) : bool := if Rle_dec a b then true else false.
Definition gtb (a b : R) : bool := ltb b a.
Definition geb (a b : R) : bool := leb b a.

End Num.

(** ** THREE.Vector3 (the methods the simulation calls) *)

Module Vector3.

Record t : Type := mk { x : R; y : R; z : R }.

Definition zero : t := mk 0 0 0.

Definition add (a b : t) : t := mk (x a + x b) (y a + y b) (z a + z b).
Definition sub (a b : t) : t := mk (x a - x b) (y a - y b) (z a - z b).
Definition multiplyScalar (a : t) (s : R) : t := mk (x a * s) (y a * s) (z a * s).
Definition divideScalar (a : t) (s : R) : t := multiplyScalar a (1 / s).
Definition dot (a b : t) : R := x a * x b + y a * y b + z a * z b.
Definition lengthSq (a : t) : R := x a * x a + y a * y a + z a * z a.
Definition length (a : t) : R := sqrt (lengthSq a).

(** [this.length() || 1]: a zero length is falsy and replaced by 1. *)
Definition lengthOr1 (a : t) : R :=
  if Req_dec_T (length a) 0 then 1 else length a.

Definition normalize (a : t) : t := divideScalar a (lengthOr1 a).

(** [v.reflect(n)] is [v - 2 (v . n) n]. *)
Definition reflect (v n : t) : t := sub v (multiplyScalar n (2 * dot v n)).

Definition distanceTo (a b : t) : R := length (sub a b).

Definition set_x (v : t) (a : R) : t := mk a (y v) (z v).
Definition set_y (v : t) (a : R) : t := mk (x v) a (z v).
Definition set_z (v : t) (a : R) : t := mk (x v) (y v) a.

End Vector3.

Abbreviation vec := Vector3.t.
Notation "v '.x'" := (Vector3.x v) (at level 1, left associativity, format "v '.x'").
Notation "v '.y'" := (Vector3.y v) (at level 1, left associativity, format "v '.y'").
Notation "v '.z'" := (Vector3.z v) (at level 1, left associativity, format "v '.z'").

(** ** Constants of the court, the hoop assembly and the physics *)

Definition COURT_LENGTH : R := 28.
Definition COURT_WIDTH : R := 15.
Definition COURT_FLOOR_Y : R := 0.
Definition LINES_Y_OFFSET : R := 0.01.
Definition RIM_Y : R := 3.05.
Definition RIM_RADIUS : R := 0.225.
Definition BACKBOARD_WIDTH : R := 1.8.
Definition BACKBOARD_HEIGHT : R := 1.05.
Definition BACKBOARD_DIST_FROM_BASELINE : R := 1.2.
Definition POLE_RADIUS : R := 0.15.
Definition BALL_RADIUS : R := 0.1213.
Definition GRAVITY : R := -9.8.
Definition BALL_MOVEMENT_SPEED : R := 0.08.
Definition MIN_SHOT_POWER : R := 0.1.
Definition MAX_SHOT_POWER : R := 1.
Definition POWER_STEP : R := 0.0008.
Definition BOUNCE_DAMPING : R := 0.7.
Definition ROTATION_SCALE : R := 6.
Definition BACKBOARD_DAMP_FACTOR : R := 0.6.

(** ** The two hoops ([createHoop], placed by [init]) *)

Inductive Hoop : Type := rightHoop | leftHoop.

Definition poleX : R := COURT_LENGTH / 2 + POLE_RADIUS + 0.5.
Definition backboardX : R := poleX - POLE_RADIUS - BACKBOARD_DIST_FROM_BASELINE.

(** [glassBackboard.position], in the hoop group's own frame. *)
Definition backboard_position : vec :=
  Vector3.mk backboardX (RIM_Y + BACKBOARD_HEIGHT / 2 - 0.15) 0.

Definition connectorDepth : R := 0.15.
Definition connector_position_x : R := backboardX - 0.04 - connectorDepth / 2.

(** [group.userData.rimPosition], a clone of [rim.position]. *)
Definition rimPosition : vec :=
  Vector3.mk (connector_position_x - connectorDepth / 2 - RIM_RADIUS) RIM_Y 0.

(** [hoop.localToWorld]: the right hoop sits at the scene origin unrotated,
    the left hoop is the same group turned by [Math.PI] about the y axis. *)
Definition localToWorld (hoop : Hoop) (v : vec) : vec :=
  match hoop with
  | rightHoop => v
  | leftHoop => Vector3.mk (- v.x) v.y (- v.z)
  end.

(** ** Calls on the presentation collaborators *)

Inductive Status : Type :=
| HitBackboard
| OffTheRim (hoopIndex : nat)
| ShotInProgress (three : bool)
| MissText (three : bool)
| MadeText (three : bool)
| BallReset.

Inductive Call : Type :=
| ui_updateScore (score attempts made : Z)
| ui_updatePower (power : R)
| ui_updateGameStatus (msg : Status)
| ui_showShotFeedback (made : bool)
| setTimeout_500 (first second : Call)
| particleSystem_createBallTrail (p : vec)
| particleSystem_createCourtDust (p : vec)
| particleSystem_createRimSparks (p : vec)
| particleSystem_createScoreExplosion (p : vec) (three : bool)
| net_animation_start (hoop : Hoop).

(** ** gameState *)

Record GameState : Type := mkGameState {
  ballPosition : vec;
  ballVelocity : vec;
  ballRotation : vec;
  ballAngularVelocity : vec;
  keys : string -> bool;
  shotPower : R;
  isMoving : bool;
  isShooting : bool;
  score : Z;
  shotAttempts : Z;
  shotsMade : Z;
  lastShotResult : string;
  shotFeedbackTimer : R;
  shotOrigin : vec;
  isThreePointer : bool;
  lastBallPosition : vec;
  calls : list Call
}.

(** Field assignments [gameState.f = v]. *)
Definition set_ballPosition (v : vec) (s : GameState) : GameState :=
  mkGameState v (ballVelocity s) (ballRotation s) (ballAngularVelocity s) (keys s)
    (shotPower s) (isMoving s) (isShooting s) (score s) (shotAttempts s) (shotsMade s)
    (lastShotResult s) (shotFeedbackTimer s) (shotOrigin s) (isThreePointer s)
    (lastBallPosition s) (calls s).

Definition set_ballVelocity (v : vec) (s : GameState) : GameState :=
  mkGameState (ballPosition s) v (ballRotation s) (ballAngularVelocity s) (keys s)
    (shotPower s) (isMoving s) (isShooting s) (score s) (shotAttempts s) (shotsMade s)
    (lastShotResult s) (shotFeedbackTimer s) (shotOrigin s) (isThreePointer s)
    (lastBallPosition s) (calls s).

Definition set_ballRotation (v : vec) (s : GameState) : GameState :=
  mkGameState (ballPosition s) (ballVelocity s) v (ballAngularVelocity s) (keys s)
    (shotPower s) (isMoving s) (isShooting s) (score s) (shotAttempts s) (shotsMade s)
    (lastShotResult s) (shotFeedbackTimer s) (shotOrigin s) (isThreePointer s)
    (lastBallPosition s) (calls s).

Definition set_ballAngularVelocity (v : vec) (s : GameState) : GameState :=
  mkGameState (ballPosition s) (ballVelocity s) (ballRotation s) v (keys s)
    (shotPower s) (isMoving s) (isShooting s) (score s) (shotAttempts s) (shotsMade s)
    (lastShotResult s) (shotFeedbackTimer s) (shotOrigin s) (isThreePointer s)
    (lastBallPosition s) (calls s).

Definition set_keys (v : string -> bool) (s : GameState) : GameState :=
  mkGameState (ballPosition s) (ballVelocity s) (ballRotation s) (ballAngularVelocity s)
    v (shotPower s) (isMoving s) (isShooting s) (score s) (shotAttempts s) (shotsMade s)
    (lastShotResult s) (shotFeedbackTimer s) (shotOrigin s) (isThreePointer s)
    (lastBallPosition s) (calls s).

Definition set_shotPower (v : R) (s : GameState) : GameState :=
  mkGameState (ballPosition s) (ballVelocity s) (ballRotation s) (ballAngularVelocity s)
    (keys s) v (isMoving s) (isShooting s) (score s) (shotAttempts s) (shotsMade s)
    (lastShotResult s) (shotFeedbackTimer s) (shotOrigin s) (isThreePointer s)
    (lastBallPosition s) (calls s).

Definition set_isMoving (v : bool) (s : GameState) : GameState :=
  mkGameState (ballPosition s) (ballVelocity s) (ballRotation s) (ballAngularVelocity s)
    (keys s) (shotPower s) v (isShooting s) (score s) (shotAttempts s) (shotsMade s)
    (lastShotResult s) (shotFeedbackTimer s) (shotOrigin s) (isThreePointer s)
    (lastBallPosition s) (calls s).

Definition set_isShooting (v : bool) (s : GameState) : GameState :=
  mkGameState (ballPosition s) (ballVelocity s) (ballRotation s) (ballAngularVelocity s)
    (keys s) (shotPower s) (isMoving s) v (score s) (shotAttempts s) (shotsMade s)
    (lastShotResult s) (shotFeedbackTimer s) (shotOrigin s) (isThreePointer s)
    (lastBallPosition s) (calls s).

Definition set_score (v : Z) (s : GameState) : GameState :=
  mkGameState (ballPosition s) (ballVelocity s) (ballRotation s) (ballAngularVelocity s)
    (keys s) (shotPower s) (isMoving s) (isShooting s) v (shotAttempts s) (shotsMade s)
    (lastShotResult s) (shotFeedbackTimer s) (shotOrigin s) (isThreePointer s)
    (lastBallPosition s) (calls s).

Definition set_shotAttempts (v : Z) (s : GameState) : GameState :=
  mkGameState (ballPosition s) (ballVelocity s) (ballRotation s) (ballAngularVelocity s)
    (keys s) (shotPower s) (isMoving s) (isShooting s) (score s) v (shotsMade s)
    (lastShotResult s) (shotFeedbackTimer s) (shotOrigin s) (isThreePointer s)
    (lastBallPosition s) (calls s).

Definition set_shotsMade (v : Z) (s : GameState) : GameState :=
  mkGameState (ballPosition s) (ballVelocity s) (ballRotation s) (ballAngularVelocity s)
    (keys s) (shotPower s) (isMoving s) (isShooting s) (score s) (shotAttempts s) v
    (lastShotResult s) (shotFeedbackTimer s) (shotOrigin s) (isThreePointer s)
    (lastBallPosition s) (calls s).

Definition set_lastShotResult (v : string) (s : GameState) : GameState :=
  mkGameState (ballPosition s) (ballVelocity s) (ballRotation s) (ballAngularVelocity s)
    (keys s) (shotPower s) (isMoving s) (isShooting s) (score s) (shotAttempts s)
    (shotsMade s) v (shotFeedbackTimer s) (shotOrigin s) (isThreePointer s)
    (lastBallPosition s) (calls s).

Definition set_shotFeedbackTimer (v : R) (s : GameState) : GameState :=
  mkGameState (ballPosition s) (ballVelocity s) (ballRotation s) (ballAngularVelocity s)
    (keys s) (shotPower s) (isMoving s) (isShooting s) (score s) (shotAttempts s)
    (shotsMade s) (lastShotResult s) v (shotOrigin s) (isThreePointer s)
    (lastBallPosition s) (calls s).

Definition set_shotOrigin (v : vec) (s : GameState) : GameState :=
  mkGameState (ballPosition s) (ballVelocity s) (ballRotation s) (ballAngularVelocity s)
    (keys s) (shotPower s) (isMoving s) (isShooting s) (score s) (shotAttempts s)
    (shotsMade s) (lastShotResult s) (shotFeedbackTimer s) v (isThreePointer s)
    (lastBallPosition s) (calls s).

Definition set_isThreePointer (v : bool) (s : GameState) : GameState :=
  mkGameState (ballPosition s) (ballVelocity s) (ballRotation s) (ballAngularVelocity s)
    (keys s) (shotPower s) (isMoving s) (isShooting s) (score s) (shotAttempts s)
    (shotsMade s) (lastShotResult s) (shotFeedbackTimer s) (shotOrigin s) v
    (lastBallPosition s) (calls s).

Definition set_lastBallPosition (v : vec) (s : GameState) : GameState :=
  mkGameState (ballPosition s) (ballVelocity s) (ballRotation s) (ballAngularVelocity s)
    (keys s) (shotPower s) (isMoving s) (isShooting s) (score s) (shotAttempts s)
    (shotsMade s) (lastShotResult s) (shotFeedbackTimer s) (shotOrigin s)
    (isThreePointer s) v (calls s).

(** A call on a collaborator, newest first in the trace. *)
Definition emit (c : Call) (s : GameState) : GameState :=
  mkGameState (ballPosition s) (ballVelocity s) (ballRotation s) (ballAngularVelocity s)
    (keys s) (shotPower s) (isMoving s) (isShooting s) (score s) (shotAttempts s)
    (shotsMade s) (lastShotResult s) (shotFeedbackTimer s) (shotOrigin s)
    (isThreePointer s) (lastBallPosition s) (c :: calls s).

(** ** 3-point scoring *)

Definition isThreePointShot (shotPosition targetHoopPos : vec) : bool :=
  let THREE_POINT_ARC_RADIUS := 6.75 in
  let COURT_WIDTH_HALF := COURT_WIDTH / 2 in
  let THREE_POINT_STRAIGHT_LINE_Y := COURT_WIDTH_HALF - 0.9 in
  let horizontalDistance :=
    sqrt ((shotPosition.x - targetHoopPos.x) ^ 2 +
          (shotPosition.z - targetHoopPos.z) ^ 2) in
  if Num.geb horizontalDistance THREE_POINT_ARC_RADIUS then
    if Num.leb (Rabs shotPosition.z) THREE_POINT_STRAIGHT_LINE_Y then true
    else
      let distanceFromBaseline := Rabs (shotPosition.x - targetHoopPos.x) in
      Num.geb distanceFromBaseline THREE_POINT_ARC_RADIUS
  else false.

(** The [gameState] literal. *)
Definition restY : R := COURT_FLOOR_Y + BALL_RADIUS + LINES_Y_OFFSET.

Definition initialState : GameState :=
  mkGameState (Vector3.mk 0 restY 0) Vector3.zero Vector3.zero Vector3.zero
    (fun _ => false) 0.5 false false
    0%Z 0%Z 0%Z
    EmptyString 0
    Vector3.zero false Vector3.zero [].

(** ** PhysicsSystem *)

Definition made : string := "made".
Definition missed : string := "missed".
Definition pending : string := EmptyString.

Definition scoreBasket (hoop : Hoop) (s : GameState) : GameState :=
  if negb (String.eqb (lastShotResult s) made) then
    let points := if isThreePointer s then 3%Z else 2%Z in
    let s := set_score (score s + points)%Z s in
    let s := set_shotsMade (shotsMade s + 1)%Z s in
    let s := set_lastShotResult made s in
    let s := emit (ui_updateScore (score s) (shotAttempts s) (shotsMade s)) s in
    let s := emit (net_animation_start hoop) s in
    let rimPos := localToWorld hoop rimPosition in
    let s := emit (particleSystem_createScoreExplosion rimPos (isThreePointer s)) s in
    emit (setTimeout_500 (ui_showShotFeedback true)
            (ui_updateGameStatus (MadeText (isThreePointer s)))) s
  else s.

(** One iteration of the [hoops.forEach] of [checkHoopCollision]. *)
Definition hoopCollision (hoop : Hoop) (hoopIndex : nat) (s : GameState) : GameState :=
  let rimThickness := 0.025 in
  let rimPos := localToWorld hoop rimPosition in
  let ballToRim := Vector3.sub (ballPosition s) rimPos in
  let horizontalDistance := sqrt (ballToRim.x * ballToRim.x + ballToRim.z * ballToRim.z) in
  let verticalDistance := Rabs ballToRim.y in
  if Num.ltb horizontalDistance (RIM_RADIUS - BALL_RADIUS * 0.5) &&
     Num.ltb verticalDistance BALL_RADIUS &&
     Num.ltb (ballVelocity s).y 0 then
    scoreBasket hoop s
  else if Num.ltb verticalDistance (BALL_RADIUS + rimThickness) &&
          Num.gtb horizontalDistance (RIM_RADIUS - BALL_RADIUS) &&
          Num.ltb horizontalDistance (RIM_RADIUS + rimThickness) then
    let collisionNormal := Vector3.normalize (Vector3.mk ballToRim.x 0 ballToRim.z) in
    let s := set_ballVelocity (Vector3.reflect (ballVelocity s) collisionNormal) s in
    let s := set_ballVelocity (Vector3.multiplyScalar (ballVelocity s) BOUNCE_DAMPING) s in
    let s := set_ballVelocity
               (Vector3.set_y (ballVelocity s)
                  (Rabs ((ballVelocity s).y * BOUNCE_DAMPING * 0.5) + 0.5)) s in
    let repositionVector :=
      Vector3.multiplyScalar collisionNormal
        (RIM_RADIUS + BALL_RADIUS - horizontalDistance + 0.01) in
    let s := set_ballPosition (Vector3.add (ballPosition s) repositionVector) s in
    let s := emit (particleSystem_createRimSparks rimPos) s in
    emit (ui_updateGameStatus (OffTheRim hoopIndex)) s
  else s.

(** [hoops.forEach] over [[rightHoop, leftHoop]]: the right hoop first. *)
Definition checkHoopCollision (s : GameState) : GameState :=
  hoopCollision leftHoop 1 (hoopCollision rightHoop 0 s).

(** One iteration of the [hoops.forEach] of [checkBackboardCollision]. *)
Definition backboardCollision (hoop : Hoop) (s : GameState) : GameState :=
  let backboardPos := localToWorld hoop backboard_position in
  let backboardWidth := BACKBOARD_WIDTH in
  let backboardHeight := BACKBOARD_HEIGHT in
  let backboardThickness := 0.08 in
  let ballToBackboard := Vector3.sub (ballPosition s) backboardPos in
  let isWithinHeight := Num.leb (Rabs ballToBackboard.y) (backboardHeight / 2 + BALL_RADIUS) in
  let isWithinWidth := Num.leb (Rabs ballToBackboard.z) (backboardWidth / 2 + BALL_RADIUS) in
  if isWithinHeight && isWithinWidth then
    let hitFromFront :=
      match hoop with
      | rightHoop => Num.ltb (ballPosition s).x backboardPos.x
      | leftHoop => Num.gtb (ballPosition s).x backboardPos.x
      end in
    let distanceToBackboard := Rabs ballToBackboard.x in
    let collisionThreshold := backboardThickness / 2 + BALL_RADIUS in
    if Num.leb distanceToBackboard collisionThreshold then
      let newX :=
        match hoop with
        | rightHoop =>
            if hitFromFront then backboardPos.x - collisionThreshold
            else backboardPos.x + collisionThreshold
        | leftHoop =>
            if hitFromFront then backboardPos.x + collisionThreshold
            else backboardPos.x - collisionThreshold
        end in
      let s := set_ballPosition (Vector3.set_x (ballPosition s) newX) s in
      let s := set_ballVelocity
                 (Vector3.set_x (ballVelocity s)
                    (- (ballVelocity s).x * BOUNCE_DAMPING * BACKBOARD_DAMP_FACTOR)) s in
      let s := set_ballVelocity
                 (Vector3.set_y (ballVelocity s)
                    ((ballVelocity s).y * (BOUNCE_DAMPING * 0.9 * BACKBOARD_DAMP_FACTOR))) s in
      let s := set_ballVelocity
                 (Vector3.set_z (ballVelocity s)
                    ((ballVelocity s).z * (BOUNCE_DAMPING * 0.95 * BACKBOARD_DAMP_FACTOR))) s in
      emit (ui_updateGameStatus HitBackboard) s
    else s
  else s.

(** [hoops.forEach] over [[rightHoop, leftHoop]]: the right hoop first. *)
Definition checkBackboardCollision (s : GameState) : GameState :=
  backboardCollision leftHoop (backboardCollision rightHoop s).

(** The parts of the in-flight branch of [updateBallPhysics], in source order. *)

(** Gravity, position update and the trail particles. *)
Definition integrate (deltaTime : R) (s : GameState) : GameState :=
  let s := set_ballVelocity
             (Vector3.set_y (ballVelocity s) ((ballVelocity s).y + GRAVITY * deltaTime)) s in
  let deltaPos := Vector3.multiplyScalar (ballVelocity s) deltaTime in
  let s := set_ballPosition (Vector3.add (ballPosition s) deltaPos) s in
  if Num.gtb (Vector3.length (ballVelocity s)) 2
  then emit (particleSystem_createBallTrail (ballPosition s)) s
  else s.

(** Ground collision detection and bouncing. *)
Definition floorCollision (s : GameState) : GameState :=
  if Num.leb (ballPosition s).y (COURT_FLOOR_Y + BALL_RADIUS + LINES_Y_OFFSET) then
    let s := set_ballPosition
               (Vector3.set_y (ballPosition s)
                  (COURT_FLOOR_Y + BALL_RADIUS + LINES_Y_OFFSET)) s in
    let s := set_ballVelocity
               (Vector3.set_y (ballVelocity s) (- (ballVelocity s).y * BOUNCE_DAMPING)) s in
    let s := set_ballVelocity
               (Vector3.set_x (ballVelocity s) ((ballVelocity s).x * BOUNCE_DAMPING)) s in
    let s := set_ballVelocity
               (Vector3.set_z (ballVelocity s) ((ballVelocity s).z * BOUNCE_DAMPING)) s in
    let s := emit (particleSystem_createCourtDust (ballPosition s)) s in
    if Num.ltb (Rabs (ballVelocity s).y) 0.1 &&
       Num.ltb (Vector3.length (ballVelocity s)) 0.5 then
      let s := set_ballVelocity Vector3.zero s in
      let s := set_ballAngularVelocity Vector3.zero s in
      set_isShooting false s
    else s
  else s.

(** Court boundary collision on the x axis. *)
Definition wallCollisionX (s : GameState) : GameState :=
  let courtEdgeX := COURT_LENGTH / 2 - BALL_RADIUS in
  if Num.geb (ballPosition s).x courtEdgeX then
    let s := set_ballPosition (Vector3.set_x (ballPosition s) courtEdgeX) s in
    set_ballVelocity
      (Vector3.set_x (ballVelocity s) (- (ballVelocity s).x * BOUNCE_DAMPING)) s
  else if Num.leb (ballPosition s).x (- courtEdgeX) then
    let s := set_ballPosition (Vector3.set_x (ballPosition s) (- courtEdgeX)) s in
    set_ballVelocity
      (Vector3.set_x (ballVelocity s) (- (ballVelocity s).x * BOUNCE_DAMPING)) s
  else s.

(** Court boundary collision on the z axis. *)
Definition wallCollisionZ (s : GameState) : GameState :=
  let courtEdgeZ := COURT_WIDTH / 2 - BALL_RADIUS in
  if Num.geb (ballPosition s).z courtEdgeZ then
    let s := set_ballPosition (Vector3.set_z (ballPosition s) courtEdgeZ) s in
    set_ballVelocity
      (Vector3.set_z (ballVelocity s) (- (ballVelocity s).z * BOUNCE_DAMPING)) s
  else if Num.leb (ballPosition s).z (- courtEdgeZ) then
    let s := set_ballPosition (Vector3.set_z (ballPosition s) (- courtEdgeZ)) s in
    set_ballVelocity
      (Vector3.set_z (ballVelocity s) (- (ballVelocity s).z * BOUNCE_DAMPING)) s
  else s.

(** Ball rotation from the velocity. *)
Definition ballSpin (deltaTime : R) (s : GameState) : GameState :=
  let velocityLength := Vector3.length (ballVelocity s) in
  let s :=
    if Num.gtb velocityLength 0.1 then
      let rotationAxis :=
        Vector3.normalize (Vector3.mk (- (ballVelocity s).z) 0 (ballVelocity s).x) in
      let rotationSpeed := velocityLength * ROTATION_SCALE * deltaTime in
      set_ballAngularVelocity (Vector3.multiplyScalar rotationAxis rotationSpeed) s
    else s in
  set_ballRotation (Vector3.add (ballRotation s) (ballAngularVelocity s)) s.

(** Everything of the in-flight branch that follows the position update:
    floor, walls, rotation, backboards, hoops. *)
Definition resolveCollisions (deltaTime : R) (s : GameState) : GameState :=
  checkHoopCollision
    (checkBackboardCollision
       (ballSpin deltaTime (wallCollisionZ (wallCollisionX (floorCollision s))))).

Definition updateBallPhysics (deltaTime : R) (s : GameState) : GameState :=
  let s := set_lastBallPosition (ballPosition s) s in
  if isShooting s then resolveCollisions deltaTime (integrate deltaTime s)
  else s.

(** ** InputSystem *)

Definition handleInput (deltaTime : R) (s : GameState) : GameState :=
  if isShooting s then s else
  let moved := false in
  let moveVector := Vector3.zero in
  let '(moveVector, moved) :=
    if keys s "ArrowLeft"
    then (Vector3.set_x moveVector (- BALL_MOVEMENT_SPEED), true)
    else (moveVector, moved) in
  let '(moveVector, moved) :=
    if keys s "ArrowRight"
    then (Vector3.set_x moveVector BALL_MOVEMENT_SPEED, true)
    else (moveVector, moved) in
  let '(moveVector, moved) :=
    if keys s "ArrowUp"
    then (Vector3.set_z moveVector (- BALL_MOVEMENT_SPEED), true)
    else (moveVector, moved) in
  let '(moveVector, moved) :=
    if keys s "ArrowDown"
    then (Vector3.set_z moveVector BALL_MOVEMENT_SPEED, true)
    else (moveVector, moved) in
  let s :=
    if moved then
      let newPosition := Vector3.add (ballPosition s) moveVector in
      let maxX := COURT_LENGTH / 2 - BALL_RADIUS in
      let maxZ := COURT_WIDTH / 2 - BALL_RADIUS in
      let newPosition :=
        Vector3.set_x newPosition (Rmax (- maxX) (Rmin maxX newPosition.x)) in
      let newPosition :=
        Vector3.set_z newPosition (Rmax (- maxZ) (Rmin maxZ newPosition.z)) in
      let s := set_ballPosition newPosition s in
      let rotationAxis :=
        Vector3.normalize (Vector3.mk (- moveVector.z) 0 moveVector.x) in
      let rotationSpeed := Vector3.length moveVector * ROTATION_SCALE * deltaTime in
      let s := set_ballAngularVelocity
                 (Vector3.multiplyScalar rotationAxis rotationSpeed) s in
      let s := set_ballRotation
                 (Vector3.add (ballRotation s) (ballAngularVelocity s)) s in
      set_isMoving true s
    else
      let s := set_isMoving false s in
      set_ballAngularVelocity
        (Vector3.multiplyScalar (ballAngularVelocity s) 0.95) s in
  let s :=
    if keys s "KeyW" then
      let s := set_shotPower (Rmin MAX_SHOT_POWER (shotPower s + POWER_STEP)) s in
      emit (ui_updatePower (shotPower s)) s
    else s in
  if keys s "KeyS" then
    let s := set_shotPower (Rmax MIN_SHOT_POWER (shotPower s - POWER_STEP)) s in
    emit (ui_updatePower (shotPower s)) s
  else s.

Definition TIME_TO_RIM : R := 1.6.
Definition MAX_SHOOTING_DISTANCE : R := 25.0.
Definition SHOT_ERROR_SENSITIVITY : R := 0.4.

Definition shootBall (s : GameState) : GameState :=
  if isShooting s then s else
  let s := set_shotOrigin (ballPosition s) s in
  let rightHoopPos := localToWorld rightHoop rimPosition in
  let leftHoopPos := localToWorld leftHoop rimPosition in
  let distToRight := Vector3.distanceTo (ballPosition s) rightHoopPos in
  let distToLeft := Vector3.distanceTo (ballPosition s) leftHoopPos in
  let targetHoopPos := if Num.ltb distToRight distToLeft then rightHoopPos else leftHoopPos in
  let s := set_isThreePointer (isThreePointShot (shotOrigin s) targetHoopPos) s in
  let toHoop := Vector3.sub targetHoopPos (ballPosition s) in
  let horizontalDistance := sqrt (toHoop.x * toHoop.x + toHoop.z * toHoop.z) in
  let verticalDistance := toHoop.y in
  let perfect_vy :=
    (verticalDistance - 0.5 * GRAVITY * TIME_TO_RIM * TIME_TO_RIM) / TIME_TO_RIM in
  let perfect_vx := toHoop.x / TIME_TO_RIM in
  let perfect_vz := toHoop.z / TIME_TO_RIM in
  let perfectVelocity := Vector3.mk perfect_vx perfect_vy perfect_vz in
  let distanceRatio := Rmin 1.0 (horizontalDistance / MAX_SHOOTING_DISTANCE) in
  let idealPower := MIN_SHOT_POWER + distanceRatio * (MAX_SHOT_POWER - MIN_SHOT_POWER) in
  let powerDifference := shotPower s - idealPower in
  let errorFactor := 1.0 + powerDifference * SHOT_ERROR_SENSITIVITY in
  let s := set_ballVelocity (Vector3.multiplyScalar perfectVelocity errorFactor) s in
  let s := set_isShooting true s in
  let s := set_shotAttempts (shotAttempts s + 1)%Z s in
  let s := set_lastShotResult pending s in
  let feedbackTime := Rmax 2.0 (TIME_TO_RIM + 0.5) in
  let s := set_shotFeedbackTimer feedbackTime s in
  let s := emit (ui_updateScore (score s) (shotAttempts s) (shotsMade s)) s in
  emit (ui_updateGameStatus (ShotInProgress (isThreePointer s))) s.

Definition resetBall (s : GameState) : GameState :=
  let s := set_ballPosition
             (Vector3.mk 0 (COURT_FLOOR_Y + BALL_RADIUS + LINES_Y_OFFSET) 0) s in
  let s := set_ballVelocity Vector3.zero s in
  let s := set_ballRotation Vector3.zero s in
  let s := set_ballAngularVelocity Vector3.zero s in
  let s := set_shotPower 0.5 s in
  let s := set_isShooting false s in
  let s := set_isMoving false s in
  let s := set_lastShotResult pending s in
  let s := emit (ui_updatePower (shotPower s)) s in
  emit (ui_updateGameStatus BallReset) s.

(** ** The frame loop and the key handlers *)

(** The shot feedback timeout at the end of [animate]. *)
Definition shotFeedbackTimeout (deltaTime : R) (s : GameState) : GameState :=
  if Num.gtb (shotFeedbackTimer s) 0 then
    let s := set_shotFeedbackTimer (shotFeedbackTimer s - deltaTime) s in
    if Num.leb (shotFeedbackTimer s) 0 && String.eqb (lastShotResult s) pending then
      let s := set_lastShotResult missed s in
      let s := emit (ui_showShotFeedback false) s in
      emit (ui_updateGameStatus (MissText (isThreePointer s))) s
    else s
  else s.

(** One frame of [animate] for [deltaTime = clock.getDelta()].  The day/night
    cycle, the predictor, the particle update, the net animation and the
    renderer read [gameState] and never write it. *)
Definition animate (deltaTime : R) (s : GameState) : GameState :=
  shotFeedbackTimeout deltaTime (updateBallPhysics deltaTime (handleInput deltaTime s)).

Definition setKey (code : string) (b : bool) (s : GameState) : GameState :=
  set_keys (fun k => if String.eqb k code then b else keys s k) s.

(** [onKeyDown]: the cases O, I, P, T and F act on the camera, the net, the
    predictor, the lighting and the window only. *)
Definition onKeyDown (code : string) (s : GameState) : GameState :=
  let s := setKey code true s in
  if String.eqb code "KeyR" then resetBall s
  else if String.eqb code "Space" then shootBall s
  else s.

Definition onKeyUp (code : string) (s : GameState) : GameState :=
  setKey code false s.

(** What the browser delivers between and at frames. *)
Inductive Input : Type :=
| KeyDown (code : string)
| KeyUp (code : string)
| Frame (deltaTime : R).

Definition step (s : GameState) (i : Input) : GameState :=
  match i with
  | KeyDown code => onKeyDown code s
  | KeyUp code => onKeyUp code s
  | Frame deltaTime => animate deltaTime s
  end.

Definition run (s : GameState) (inputs : list Input) : GameState :=
  fold_left step inputs s.

(** ** Vocabulary of the specification *)

(** Planar (x, z) distance, ignoring y. *)
Definition horizontalDistance (a b : vec) : R :=
  sqrt ((a.x - b.x) * (a.x - b.x) + (a.z - b.z) * (a.z - b.z)).

Definition rimCenter (hoop : Hoop) : vec := localToWorld hoop rimPosition.

(** The rim centre [shootBall] aims at from ball position [p]. *)
Definition targetHoopPos (p : vec) : vec :=
  if Num.ltb (Vector3.distanceTo p (rimCenter rightHoop))
             (Vector3.distanceTo p (rimCenter leftHoop))
  then rimCenter rightHoop else rimCenter leftHoop.

(** The release velocity as the specification words it: the velocity that
    reaches [toHoop] in time [T] under constant acceleration [g], scaled by
    the error factor of the power setting. *)
Definition spec_perfectVelocity (toHoop : vec) (g T : R) : vec :=
  Vector3.mk (toHoop.x / T) ((toHoop.y - 0.5 * g * (T * T)) / T) (toHoop.z / T).

Definition spec_idealPower (distance : R) : R :=
  MIN_SHOT_POWER + Rmin 1 (distance / 25) * (MAX_SHOT_POWER - MIN_SHOT_POWER).

Definition spec_errorFactor (power distance sensitivity : R) : R :=
  1 + (power - spec_idealPower distance) * sensitivity.

Definition spec_releaseVelocity (p : vec) (power : R) : vec :=
  let target := targetHoopPos p in
  Vector3.multiplyScalar
    (spec_perfectVelocity (Vector3.sub target p) GRAVITY TIME_TO_RIM)
    (spec_errorFactor power (horizontalDistance p target) SHOT_ERROR_SENSITIVITY).

(** Position reached after time [t] from [p] with initial velocity [v] under
    vertical acceleration [g]. *)
Definition ballistic (p v : vec) (g t : R) : vec :=
  Vector3.mk (p.x + v.x * t) (p.y + v.y * t + 0.5 * g * (t * t)) (p.z + v.z * t).

(** The court bounds of the ball centre. *)
Definition inCourt (p : vec) : Prop :=
  Rabs p.x <= COURT_LENGTH / 2 - BALL_RADIUS /\
  Rabs p.z <= COURT_WIDTH / 2 - BALL_RADIUS.

(** ** Named parts of the hoop test *)

(** The two tests and the bounce of [hoopCollision], by name. *)
Definition ballToRim (hoop : Hoop) (s : GameState) : vec :=
  Vector3.sub (ballPosition s) (rimCenter hoop).

Definition rimHorizontalDistance (hoop : Hoop) (s : GameState) : R :=
  sqrt ((ballToRim hoop s).x * (ballToRim hoop s).x +
        (ballToRim hoop s).z * (ballToRim hoop s).z).

Definition rimVerticalDistance (hoop : Hoop) (s : GameState) : R :=
  Rabs (ballToRim hoop s).y.

(** The test guarding [this.scoreBasket(hoop)]. *)
Definition madeBasketCondition (hoop : Hoop) (s : GameState) : bool :=
  Num.ltb (rimHorizontalDistance hoop s) (RIM_RADIUS - BALL_RADIUS * 0.5) &&
  Num.ltb (rimVerticalDistance hoop s) BALL_RADIUS &&
  Num.ltb (ballVelocity s).y 0.

(** The test of the [else if]: the annulus around the rim circle. *)
Definition rimBandCondition (hoop : Hoop) (s : GameState) : bool :=
  Num.ltb (rimVerticalDistance hoop s) (BALL_RADIUS + 0.025) &&
  Num.gtb (rimHorizontalDistance hoop s) (RIM_RADIUS - BALL_RADIUS) &&
  Num.ltb (rimHorizontalDistance hoop s) (RIM_RADIUS + 0.025).

(** The horizontal vector handed to [normalize] in the rim bounce. *)
Definition rimNormalArg (hoop : Hoop) (s : GameState) : vec :=
  Vector3.mk (ballToRim hoop s).x 0 (ballToRim hoop s).z.

(** The body of the [else if] branch. *)
Definition rimBounce (hoop : Hoop) (hoopIndex : nat) (s : GameState) : GameState :=
  let rimPos := rimCenter hoop in
  let horizontalDistance := rimHorizontalDistance hoop s in
  let collisionNormal := Vector3.normalize (rimNormalArg hoop s) in
  let s := set_ballVelocity (Vector3.reflect (ballVelocity s) collisionNormal) s in
  let s := set_ballVelocity (Vector3.multiplyScalar (ballVelocity s) BOUNCE_DAMPING) s in
  let s := set_ballVelocity
             (Vector3.set_y (ballVelocity s)
                (Rabs ((ballVelocity s).y * BOUNCE_DAMPING * 0.5) + 0.5)) s in
  let repositionVector :=
    Vector3.multiplyScalar collisionNormal
      (RIM_RADIUS + BALL_RADIUS - horizontalDistance + 0.01) in
  let s := set_ballPosition (Vector3.add (ballPosition s) repositionVector) s in
  let s := emit (particleSystem_createRimSparks rimPos) s in
  emit (ui_updateGameStatus (OffTheRim hoopIndex)) s.

(** The world position of a hoop's backboard. *)
Definition backboardCenter (hoop : Hoop) : vec := localToWorld hoop backboard_position.

(** The state the hoop tests of an in-flight frame run on. *)
Definition beforeHoops (deltaTime : R) (s : GameState) : GameState :=
  checkBackboardCollision
    (ballSpin deltaTime
       (wallCollisionZ
          (wallCollisionX
             (floorCollision
                (integrate deltaTime (set_lastBallPosition (ballPosition s) s)))))).

(** ** Observations on the scoring state *)

Definition isScoreEvent (c : Call) : bool :=
  match c with
  | particleSystem_createScoreExplosion _ _ => true
  | _ => false
  end.

(** How often the score event (the body of [scoreBasket]) has fired. *)
Fixpoint countScoreEvents (cs : list Call) : Z :=
  match cs with
  | [] => 0%Z
  | c :: cs => ((if isScoreEvent c then 1 else 0) + countScoreEvents cs)%Z
  end.

Definition scoreEvents (s : GameState) : Z := countScoreEvents (calls s).

Definition isMissFeedback (c : Call) : bool :=
  match c with
  | ui_showShotFeedback false => true
  | _ => false
  end.

(** How often the missed-shot feedback [ui.showShotFeedback(false)] was shown. *)
Fixpoint countMissFeedback (cs : list Call) : Z :=
  match cs with
  | [] => 0%Z
  | c :: cs => ((if isMissFeedback c then 1 else 0) + countMissFeedback cs)%Z
  end.

Definition missFeedbacks (s : GameState) : Z := countMissFeedback (calls s).

(** What the feedback timeout reads and writes, with the statistics. *)
Definition feedback (s : GameState) : Z * string * R * bool * Z * Z * Z :=
  (missFeedbacks s, lastShotResult s, shotFeedbackTimer s, isShooting s,
   score s, shotsMade s, shotAttempts s).

(** A pending attempt in flight has time left on its feedback timer. *)
Definition timerRunsWhilePending (s : GameState) : Prop :=
  isShooting s = true -> lastShotResult s = pending -> shotFeedbackTimer s > 0.

(** Total time of a list of frames. *)
Definition elapsed (frames : list R) : R := fold_right Rplus 0 frames.

(** The fields the scoring state machine reads and writes, with the number
    of score events fired so far. *)
Definition scoring (s : GameState) : Z * Z * Z * Z * string * bool * R :=
  (scoreEvents s, score s, shotsMade s, shotAttempts s, lastShotResult s,
   isThreePointer s, shotFeedbackTimer s).

(** The current attempt can still fire a score event. *)
Definition canScore (s : GameState) : bool :=
  isShooting s && negb (String.eqb (lastShotResult s) made).

(** 1 while the result is not yet Made. *)
Definition unresolved (s : GameState) : Z :=
  if negb (String.eqb (lastShotResult s) made) then 1%Z else 0%Z.

Definition potential (s : GameState) : Z :=
  (scoreEvents s - shotAttempts s + (if canScore s then 1 else 0))%Z.

(** The test of the specification for a score at a hoop. *)
Definition scoresAt (hoop : Hoop) (s : GameState) : Prop :=
  rimHorizontalDistance hoop s < RIM_RADIUS - BALL_RADIUS * 0.5 /\
  rimVerticalDistance hoop s < BALL_RADIUS /\
  (ballVelocity s).y < 0 /\
  lastShotResult s <> made.

Definition points (s : GameState) : Z := if isThreePointer s then 3%Z else 2%Z.

(** ** Concrete states *)

(** Scenario C of the specification: in flight, 0.01 below the floor contact
    height, falling at 5 m/s. *)
Definition scenarioC : GameState :=
  set_isShooting true
    (set_ballVelocity (Vector3.mk 0 (-5) 0)
       (set_ballPosition (Vector3.mk 0 (COURT_FLOOR_Y + BALL_RADIUS - 0.01) 0)
          initialState)).


(** A ball on the floor 7 m in front of the right rim. *)
Definition scenarioD : GameState :=
  set_ballPosition (Vector3.mk 5.885 restY 0) initialState.

(** In flight beside the right rim, inside the rim band, barely moving. *)
Definition rimTouch : GameState :=
  set_isShooting true
    (set_ballVelocity (Vector3.mk 0 (-0.1) 0)
       (set_ballPosition (Vector3.mk 13.085 3.05 0) initialState)).

(** In flight exactly at the right rim centre, descending. *)
Definition atRimCenter : GameState :=
  set_isShooting true
    (set_ballVelocity (Vector3.mk 0 (-3) 0)
       (set_ballPosition (Vector3.mk 12.885 3.05 0) initialState)).

Definition horizontalSpeed (v : vec) : R := sqrt (v.x * v.x + v.z * v.z).

(** One attempt made, in flight 0.25 above the right rim centre and falling,
    the result still pending, 0.01 s left on the feedback timer. *)
Definition lateMake : GameState :=
  set_shotFeedbackTimer 0.01
    (set_shotAttempts 1%Z
       (set_isShooting true
          (set_ballVelocity (Vector3.mk 0 (-5) 0)
             (set_ballPosition (Vector3.mk 12.885 3.3 0) initialState)))).

(** Exactly at the right rim centre and descending after the attempt was
    already resolved as Missed. *)
Definition missedAtRim : GameState := set_lastShotResult missed atRimCenter.

(** ** Invariants of the game loop *)

(** The fields no physics step assigns. *)
Definition controls (s : GameState) : R * vec * bool * Z :=
  (shotPower s, shotOrigin s, isThreePointer s, shotAttempts s).

Definition powerInRange (s : GameState) : Prop :=
  MIN_SHOT_POWER <= shotPower s <= MAX_SHOT_POWER.

(** The ball centre is not below its resting height on the floor. *)
Definition aboveFloor (s : GameState) : Prop :=
  (ballPosition s).y >= COURT_FLOOR_Y + BALL_RADIUS + LINES_Y_OFFSET.

(** The ball lies still on the floor. *)
Definition atRest (s : GameState) : Prop :=
  ballVelocity s = Vector3.zero /\
  (ballPosition s).y = COURT_FLOOR_Y + BALL_RADIUS + LINES_Y_OFFSET.

Definition restsWhenGrounded (s : GameState) : Prop :=
  isShooting s = false -> atRest s.

(** Every made shot is worth 2 or 3 points. *)
Definition scoreWithinMade (s : GameState) : Prop :=
  (2 * shotsMade s <= score s <= 3 * shotsMade s)%Z.


(** Key events that can start or abort an attempt. *)
Definition startsOrResets (i : Input) : Prop :=
  i = KeyDown "KeyR" \/ i = KeyDown "Space".

(** In flight beside the right rim after an attempt from scenario D. *)
Definition releasedD : GameState := shootBall scenarioD.


(** The step of [moveVector] along one axis for the two keys of that axis:
    the key tested second wins. *)
Definition moveStep (negative positive : bool) : R :=
  if positive then BALL_MOVEMENT_SPEED
  else if negative then - BALL_MOVEMENT_SPEED
  else 0.

(** [Math.max(-m, Math.min(m, v))]. *)
Definition clamp (m v : R) : R := Rmax (- m) (Rmin m v).

(** Grounded at centre court with both power keys held, at full power. *)
Definition bothPowerKeys : GameState :=
  set_shotPower 1 (setKey "KeyS" true (setKey "KeyW" true initialState)).

(** In flight just below the right rim centre, rising. *)
Definition risingThroughRim : GameState :=
  set_isShooting true
    (set_ballVelocity (Vector3.mk 0 4 0)
       (set_ballPosition (Vector3.mk 12.885 3.0 0) initialState)).


(** ** DayNightCycle *)

Module DayNightCycle.

(** The keys of [this.periods], the only values [currentPeriod] takes. *)
Inductive Period : Type := dawn | day | dusk | night.

(** THREE.Color with its [lerp]. *)
Record Color : Type := mkColor { red : R; green : R; blue : R }.

Definition lerpColor (c target : Color) (alpha : R) : Color :=
  mkColor (red c + (red target - red c) * alpha)
          (green c + (green target - green c) * alpha)
          (blue c + (blue target - blue c) * alpha).

(** [THREE.MathUtils.lerp]. *)
Definition lerp (x y t : R) : R := (1 - t) * x + t * y.

Definition periodStart (p : Period) : R :=
  match p with dawn => 0.0 | day => 0.25 | dusk => 0.5 | night => 0.75 end.

Definition periodEnd (p : Period) : R :=
  match p with dawn => 0.25 | day => 0.5 | dusk => 0.75 | night => 1.0 end.

Definition periodColor (p : Period) : Color :=
  match p with
  | dawn => mkColor 0.9 0.6 0.4
  | day => mkColor 0.8 0.9 1.0
  | dusk => mkColor 0.8 0.4 0.2
  | night => mkColor 0.1 0.1 0.3
  end.

(** The fields of the object, with the lights it drives and
    [scene.background]. *)
Record t : Type := mk {
  timeOfDay : R;
  cycleSpeed : R;
  currentPeriod : Period;
  ambientLight_intensity : R;
  directionalLight_intensity : R;
  directionalLight_color : Color;
  stadiumLights : list R;
  scene_background : Color
}.

(** The constructor with [setupLighting], and the sky colour of the scene
    setup (0x87CEEB). *)
Definition create : t :=
  mk 0.25 0.0001 day 0.8 1.2 (mkColor 1 1 1)
     (repeat 0.3 8)
     (mkColor (135 / 255) (206 / 255) (235 / 255)).

(** Insertion order of [Object.entries(this.periods)]. *)
Definition periods : list Period := [dawn; day; dusk; night].

Fixpoint firstPeriod (time : R) (ps : list Period) : option Period :=
  match ps with
  | [] => None
  | p :: ps =>
      if Num.geb time (periodStart p) && Num.ltb time (periodEnd p) then Some p
      else firstPeriod time ps
  end.

Definition getCurrentPeriod (c : t) : Period :=
  match firstPeriod (timeOfDay c) periods with
  | Some p => p
  | None => night
  end.

Definition getLightIntensity (c : t) : R :=
  match currentPeriod c with
  | dawn => 0.7
  | day => 1.0
  | dusk => 0.6
  | night => 0.3
  end.

Definition updateLighting (c : t) : t :=
  let period := currentPeriod c in
  let intensity := getLightIntensity c in
  let ambient := lerp (ambientLight_intensity c) (intensity * 0.8) 0.05 in
  let directional := lerp (directionalLight_intensity c) (intensity * 1.2) 0.05 in
  let stadiumIntensity :=
    match currentPeriod c with night => 1.2 | _ => 0.2 end in
  let stadium := map (fun light => lerp light stadiumIntensity 0.05) (stadiumLights c) in
  let targetColor := periodColor period in
  mk (timeOfDay c) (cycleSpeed c) (currentPeriod c) ambient directional
     (lerpColor (directionalLight_color c) targetColor 0.05) stadium
     (scene_background c).

Definition updateSkyColor (c : t) : t :=
  let period := currentPeriod c in
  mk (timeOfDay c) (cycleSpeed c) (currentPeriod c) (ambientLight_intensity c)
     (directionalLight_intensity c) (directionalLight_color c) (stadiumLights c)
     (lerpColor (scene_background c) (periodColor period) 0.02).

Definition set_timeOfDay (v : R) (c : t) : t :=
  mk v (cycleSpeed c) (currentPeriod c) (ambientLight_intensity c)
     (directionalLight_intensity c) (directionalLight_color c) (stadiumLights c)
     (scene_background c).

Definition set_currentPeriod (v : Period) (c : t) : t :=
  mk (timeOfDay c) (cycleSpeed c) v (ambientLight_intensity c)
     (directionalLight_intensity c) (directionalLight_color c) (stadiumLights c)
     (scene_background c).

Definition update (deltaTime : R) (c : t) : t :=
  let c := set_timeOfDay (timeOfDay c + cycleSpeed c * deltaTime) c in
  let c := if Num.gtb (timeOfDay c) 1 then set_timeOfDay 0 c else c in
  updateSkyColor (updateLighting c).

Definition Period_eqb (a b : Period) : bool :=
  match a, b with
  | dawn, dawn | day, day | dusk, dusk | night, night => true
  | _, _ => false
  end.

(** [periods.indexOf(p)] on the local array of [cyclePeriod]. *)
Fixpoint indexOf (p : Period) (ps : list Period) : nat :=
  match ps with
  | [] => 0
  | q :: ps => if Period_eqb p q then 0 else S (indexOf p ps)
  end.

Definition cyclePeriod (c : t) : t :=
  let periods := [dawn; day; dusk; night] in
  let currentIndex := indexOf (currentPeriod c) periods in
  let nextIndex := ((currentIndex + 1) mod length periods)%nat in
  let nextPeriod := nth nextIndex periods dawn in
  let c := set_currentPeriod nextPeriod c in
  set_timeOfDay (periodStart nextPeriod + 0.01) c.

(** What happens to the cycle: a frame, or the T key. *)
Inductive Op : Type :=
| Update (deltaTime : R)
| Cycle.

Definition apply (c : t) (o : Op) : t :=
  match o with
  | Update deltaTime => update deltaTime c
  | Cycle => cyclePeriod c
  end.

Definition run (c : t) (ops : list Op) : t := fold_left apply ops c.

Definition nonnegative (o : Op) : Prop :=
  match o with
  | Update deltaTime => 0 <= deltaTime
  | Cycle => True
  end.

(** The intensity [updateLighting] steers the ambient light to. *)
Definition ambientTarget (c : t) : R := getLightIntensity c * 0.8.
Definition directionalTarget (c : t) : R := getLightIntensity c * 1.2.
Definition stadiumTarget (c : t) : R :=
  match currentPeriod c with night => 1.2 | _ => 0.2 end.

(** The clock is in range and ticks at the constructor's speed. *)
Definition timeInUnit (c : t) : Prop :=
  0 <= timeOfDay c <= 1 /\ cycleSpeed c = 0.0001.

(** [n] steps of 5% from [x] towards [target]. *)
Definition approach (target : R) (n : nat) (x : R) : R := target + 0.95 ^ n * (x - target).

End DayNightCycle.


(** ** ShotPredictor *)

Module ShotPredictor.

(** The values of [predictionAccuracy]. *)
Inductive Accuracy : Type := unknown | excellent | good | fair | poor.

Record t : Type := mk {
  enabled : bool;
  arcPoints : list vec;
  arcLine_visible : bool;
  arcLine_positions : list vec;
  arcLine_color : Z;
  predictionAccuracy : Accuracy;
  targetPosition : vec
}.

(** The constructor with [setupVisuals]: a green, hidden, empty line. *)
Definition create : t := mk false [] false [] 65280%Z unknown Vector3.zero.

Definition toggle (p : t) : t :=
  mk (negb (enabled p)) (arcPoints p) (negb (enabled p)) (arcLine_positions p)
     (arcLine_color p) (predictionAccuracy p) (targetPosition p).

Definition TIME_TO_RIM : R := 1.4.
Definition steps : nat := 30.

(** [errorFactor] of [calculateTrajectory]. *)
Definition errorFactor (s : GameState) : R :=
  let targetPosition := targetHoopPos (ballPosition s) in
  let toHoop := Vector3.sub targetPosition (ballPosition s) in
  let horizontalDistance := sqrt (toHoop.x * toHoop.x + toHoop.z * toHoop.z) in
  let MAX_SHOOTING_DISTANCE := 25.0 in
  let distanceRatio := Rmin 1.0 (horizontalDistance / MAX_SHOOTING_DISTANCE) in
  let idealPower := MIN_SHOT_POWER + distanceRatio * (MAX_SHOT_POWER - MIN_SHOT_POWER) in
  let powerDifference := shotPower s - idealPower in
  1.0 + powerDifference * 0.5.

(** [velocity] of [calculateTrajectory]. *)
Definition velocity (s : GameState) : vec :=
  let targetPosition := targetHoopPos (ballPosition s) in
  let toHoop := Vector3.sub targetPosition (ballPosition s) in
  let verticalDistance := toHoop.y in
  let perfect_vy :=
    (verticalDistance - 0.5 * GRAVITY * TIME_TO_RIM * TIME_TO_RIM) / TIME_TO_RIM in
  let perfect_vx := toHoop.x / TIME_TO_RIM in
  let perfect_vz := toHoop.z / TIME_TO_RIM in
  Vector3.multiplyScalar (Vector3.mk perfect_vx perfect_vy perfect_vz) (errorFactor s).

(** The point pushed in iteration [i] of the arc loop. *)
Definition arcPoint (s : GameState) (i : nat) : vec :=
  let t := INR i / INR steps * TIME_TO_RIM * errorFactor s in
  let pos := ballPosition s in
  Vector3.mk (pos.x + (velocity s).x * t)
             (pos.y + ((velocity s).y * t + 0.5 * GRAVITY * t * t))
             (pos.z + (velocity s).z * t).

(** The arc loop over the remaining indices, with its [break] at the
    ground. *)
Fixpoint arcFrom (s : GameState) (indices : list nat) : list vec :=
  match indices with
  | [] => []
  | i :: indices =>
      let pos := arcPoint s i in
      if Num.leb pos.y (COURT_FLOOR_Y + BALL_RADIUS) then [pos]
      else pos :: arcFrom s indices
  end.

Definition classify (distanceToTarget : R) : Accuracy :=
  if Num.ltb distanceToTarget (RIM_RADIUS * 0.8) then excellent
  else if Num.ltb distanceToTarget (RIM_RADIUS * 1.5) then good
  else if Num.ltb distanceToTarget (RIM_RADIUS * 3) then fair
  else poor.

Definition calculateTrajectory (s : GameState) (p : t) : t :=
  let targetPosition := targetHoopPos (ballPosition s) in
  let arcPoints := arcFrom s (seq 0 (S steps)) in
  let predictionAccuracy :=
    match arcPoints with
    | [] => predictionAccuracy p
    | first :: _ =>
        let endPoint := last arcPoints first in
        classify (Vector3.distanceTo endPoint targetPosition)
    end in
  mk (enabled p) arcPoints (arcLine_visible p) (arcLine_positions p) (arcLine_color p)
     predictionAccuracy targetPosition.

Definition accuracyColor (a : Accuracy) : Z :=
  match a with
  | excellent => 65280%Z
  | good => 8453888%Z
  | fair => 16776960%Z
  | poor => 16729088%Z
  | unknown => 16777215%Z
  end.

Definition updateVisuals (p : t) : t :=
  match arcPoints p with
  | [] => p
  | _ =>
      mk (enabled p) (arcPoints p) (arcLine_visible p) (arcPoints p)
         (accuracyColor (predictionAccuracy p)) (predictionAccuracy p)
         (targetPosition p)
  end.

Definition set_visible (v : bool) (p : t) : t :=
  mk (enabled p) (arcPoints p) v (arcLine_positions p) (arcLine_color p)
     (predictionAccuracy p) (targetPosition p).

Definition update (s : GameState) (p : t) : t :=
  if negb (enabled p) || isShooting s then set_visible false p
  else set_visible true (updateVisuals (calculateTrajectory s p)).

(** The ideal power of [calculateTrajectory] for the ball of [s]. *)
Definition idealPower (s : GameState) : R :=
  MIN_SHOT_POWER +
  Rmin 1.0 (horizontalDistance (ballPosition s) (targetHoopPos (ballPosition s)) / 25.0) *
  (MAX_SHOT_POWER - MIN_SHOT_POWER).

End ShotPredictor.


(** Centre court with the power set to the predictor's ideal power. *)
Definition idealShooter : GameState :=
  set_shotPower (ShotPredictor.idealPower initialState) initialState.

(** ** The net animation *)

Module Net.

(** [userData.net.animation]. *)
Record Animation : Type := mkAnimation {
  isActive : bool;
  time : R;
  duration : R;
  amplitude : R;
  frequency : R;
  speed : R
}.

(** [userData.net]: the position buffers of the strands and their clones. *)
Record t : Type := mk {
  geometries : list (list vec);
  originalPositions : list (list vec);
  animation : Animation
}.

(** The net as [createHoop] leaves it for strands with the given vertices. *)
Definition create (strands : list (list vec)) : t :=
  mk strands strands (mkAnimation false 0 2.0 0.25 20.0 12.0).

(** [anim.isActive = true; anim.time = 0], as [scoreBasket] and
    [triggerNetAnimation] do. *)
Definition start (net : t) : t :=
  let anim := animation net in
  mk (geometries net) (originalPositions net)
     (mkAnimation true 0 (duration anim) (amplitude anim) (frequency anim) (speed anim)).

(** The vertex written by [positions.setXYZ] for an original vertex. *)
Definition displaced (anim : Animation) (damping : R) (original : vec) : vec :=
  let originalX := original.x in
  let originalY := original.y in
  let originalZ := original.z in
  let ripple := sin (originalY * frequency anim + time anim * speed anim) in
  let effectStrength := Rabs (originalY / 0.45) in
  let offsetX := ripple * amplitude anim * effectStrength * damping in
  let offsetZ := ripple * amplitude anim * effectStrength * damping in
  Vector3.mk (originalX + offsetX) originalY (originalZ + offsetZ).

(** The inner loop over the vertices [j < positions.count] of one strand. *)
Definition rippleStrand (anim : Animation) (damping : R)
    (positions originalPositions : list vec) : list vec :=
  map (fun '(_, original) => displaced anim damping original)
      (combine positions originalPositions).

(** The loop over [net.geometries] with [net.originalPositions[i]]. *)
Definition rippleStrands (anim : Animation) (damping : R)
    (geometries originalPositions : list (list vec)) : list (list vec) :=
  map (fun '(positions, originals) => rippleStrand anim damping positions originals)
      (combine geometries originalPositions).

(** [positions.copy(net.originalPositions[i])] for every strand. *)
Definition restoreStrands (geometries originalPositions : list (list vec))
  : list (list vec) :=
  map (fun '(_, originals) => originals) (combine geometries originalPositions).

(** The body of the loop of [updateNetAnimation] for one hoop's net. *)
Definition update (deltaTime : R) (net : t) : t :=
  if negb (isActive (animation net)) then net else
  let anim := animation net in
  let anim := mkAnimation (isActive anim) (time anim + deltaTime) (duration anim)
                (amplitude anim) (frequency anim) (speed anim) in
  let damping := 1.0 - Rmin 1.0 (time anim / duration anim) in
  if Num.leb damping 0 then
    let anim := mkAnimation false (time anim) (duration anim) (amplitude anim)
                  (frequency anim) (speed anim) in
    mk (restoreStrands (geometries net) (originalPositions net))
       (originalPositions net) anim
  else
    mk (rippleStrands anim damping (geometries net) (originalPositions net))
       (originalPositions net) anim.

(** The nets of the right and the left hoop. *)
Definition Nets : Type := (t * t)%type.

Definition updateNetAnimation (deltaTime : R) (nets : Nets) : Nets :=
  (update deltaTime (fst nets), update deltaTime (snd nets)).


(** The buffers have the shape of their originals. *)
Definition sameShape (net : t) : Prop :=
  Forall2 (fun positions originals => length positions = length originals)
          (geometries net) (originalPositions net).

(** The net hangs as built and does not move. *)
Definition still (net : t) : Prop :=
  isActive (animation net) = false /\ geometries net = originalPositions net.

Definition frames (net : t) (deltaTimes : list R) : t :=
  fold_left (fun net deltaTime => update deltaTime net) deltaTimes net.

End Net.

(** A net of one strand: a vertex at the rim and one at the bottom of the
    net. *)
Definition oneStrandNet : Net.t :=
  Net.create [[Vector3.mk 0.2 0 0; Vector3.mk 0.1 (-0.45) 0]].

(** ** GameUI *)

Module GameUI.

(** [Math.round]: the nearest integer, halves towards plus infinity. *)
Definition Math_round (x : R) : Z := Int_part (x + 0.5).

(** The numbers in the texts of the elements [score-display], [attempts],
    [made], [accuracy], [power-display] and in the width of [power-fill]. *)
Record Panel : Type := mkPanel {
  scoreDisplay : Z;
  attempts : Z;
  made : Z;
  accuracy : Z;
  powerDisplay : Z;
  powerFill : Z
}.

(** The elements as [createGameInterface] writes them. *)
Definition initial : Panel := mkPanel 0 0 0 0 50 50.

Definition updateScore (score attempts made : Z) (panel : Panel) : Panel :=
  let accuracy :=
    if (attempts >? 0)%Z then Math_round (IZR made / IZR attempts * 100) else 0%Z in
  mkPanel score attempts made accuracy (powerDisplay panel) (powerFill panel).

Definition updatePower (power : R) (panel : Panel) : Panel :=
  let percentage := Math_round (power * 100) in
  mkPanel (scoreDisplay panel) (attempts panel) (made panel) (accuracy panel)
    percentage percentage.

(** What a call of the trace writes to these elements. *)
Definition perform (c : Call) (panel : Panel) : Panel :=
  match c with
  | ui_updateScore score attempts made => updateScore score attempts made panel
  | ui_updatePower power => updatePower power panel
  | _ => panel
  end.

(** The elements after the calls of a trace (newest first). *)
Definition render (calls : list Call) : Panel := fold_right perform initial calls.

End GameUI.

(** The panel and the fields of [gameState] it reports. *)
Definition display (s : GameState) : GameUI.Panel * Z * Z * Z * R :=
  (GameUI.render (calls s), score s, shotAttempts s, shotsMade s, shotPower s).

(** The panel written from the current [gameState]. *)
Definition panelOf (s : GameState) : GameUI.Panel :=
  GameUI.updatePower (shotPower s)
    (GameUI.updateScore (score s) (shotAttempts s) (shotsMade s) GameUI.initial).

Definition panelInSync (s : GameState) : Prop :=
  GameUI.render (calls s) = panelOf s.

(** ** ParticleSystem *)

Module ParticleSystem.

Definition MAX_QUALITY_PARTICLES : R := 500.

Inductive ParticleType : Type :=
| scoreExplosion
| rimSpark
| courtDust
| ballTrail.

Module Config.

Record t : Type := mk {
  count : nat;
  spread : R;
  speed : R;
  life : R;
  colors : list Z;
  size : R
}.

End Config.

(** [setupParticleTypes]. *)
Definition particleTypes (type : ParticleType) : Config.t :=
  match type with
  | scoreExplosion =>
      Config.mk 50 2.0 5.0 2.0 [0xff6b35; 0xffd700; 0xff4500; 0x00ff00]%Z 0.05
  | rimSpark =>
      Config.mk 20 0.5 3.0 1.0 [0xffffff; 0xffaa00; 0xff6600]%Z 0.02
  | courtDust =>
      Config.mk 15 0.8 1.0 1.5 [0x8b7355; 0xa0895c; 0x9c8459]%Z 0.03
  | ballTrail =>
      Config.mk 5 0.1 0.5 0.5 [0xff6b35; 0xff8c42]%Z 0.025
  end.

(** A particle mesh: its position and uniform scale, the radius of its
    sphere, the colour and opacity of its material, and its [userData]. *)
Record Particle : Type := mkParticle {
  position : vec;
  scale : R;
  radius : R;
  color : Z;
  opacity : R;
  velocity : vec;
  life : R;
  maxLife : R;
  type : ParticleType
}.

(** The particle system.  [performanceLevel] is read by the methods but
    assigned nowhere in the program: [None] is the [undefined] the
    constructor leaves, which is [NaN] in arithmetic.  [draws] counts the
    calls of [Math.random] so far. *)
Record t : Type := mk {
  particles : list Particle;
  maxParticles : R;
  performanceLevel : option R;
  draws : nat
}.

Definition constructor : t := mk [] MAX_QUALITY_PARTICLES None 0.

(** [a * this.performanceLevel]. *)
Definition times (a : R) (level : option R) : option R :=
  match level with
  | Some l => Some (a * l)
  | None => None
  end.

(** [a < b] and [a >= b] for a [b] that may be [NaN]: both are false then. *)
Definition lt (a : R) (b : option R) : bool :=
  match b with
  | Some b => Num.ltb a b
  | None => false
  end.

Definition ge (a : R) (b : option R) : bool :=
  match b with
  | Some b => Num.geb a b
  | None => false
  end.

(** How often [for (let i = 0; i < bound; i++)] runs its body: the number of
    [i = 0, 1, ...] below [bound]. *)
Definition iterations (bound : option R) : nat :=
  match bound with
  | Some b => Z.to_nat (- Int_part (- b))
  | None => 0%nat
  end.

(** [colors[Math.floor(r * colors.length)]]. *)
Definition pick (colors : list Z) (r : R) : Z :=
  nth (Z.to_nat (Int_part (r * INR (length colors)))) colors 0%Z.

Section Random.

(** The numbers [Math.random()] returns, in the order of the calls. *)
Variable random : nat -> R.

Definition createParticle (type : ParticleType) (position velocity : vec) (sys : t) : t :=
  if ge (INR (length (particles sys))) (times (maxParticles sys) (performanceLevel sys))
  then sys else
  let config := particleTypes type in
  let n := draws sys in
  let color := pick (Config.colors config) (random n) in
  let position :=
    Vector3.add position
      (Vector3.mk ((random (n + 1) - 0.5) * Config.spread config)
                  ((random (n + 2) - 0.5) * Config.spread config)
                  ((random (n + 3) - 0.5) * Config.spread config)) in
  let velocity :=
    Vector3.add velocity
      (Vector3.mk ((random (n + 4) - 0.5) * Config.speed config)
                  (random (n + 5) * Config.speed config)
                  ((random (n + 6) - 0.5) * Config.speed config)) in
  let particle :=
    mkParticle position 1 (Config.size config) color 1.0 velocity
      (Config.life config) (Config.life config) type in
  mk (particles sys ++ [particle]) (maxParticles sys) (performanceLevel sys) (n + 7).

(** The body of the loop of [createScoreExplosion]. *)
Definition explosionParticle (position : vec) (explosionColors : list Z) (sys : t) : t :=
  let n := draws sys in
  let color := pick explosionColors (random n) in
  let velocity :=
    Vector3.mk ((random (n + 1) - 0.5) * 8) (random (n + 2) * 6 + 2)
               ((random (n + 3) - 0.5) * 8) in
  let particle := mkParticle position 1 0.04 color 1 velocity 3.0 3.0 scoreExplosion in
  mk (particles sys ++ [particle]) (maxParticles sys) (performanceLevel sys) (n + 4).

Definition createScoreExplosion (position : vec) (isThreePointer : bool) (sys : t) : t :=
  let particleCount := if isThreePointer then 75 else 50 in
  let explosionColors :=
    if isThreePointer then [0x00ff00; 0x00ff88; 0x88ff00; 0xffd700]%Z
    else [0xff6b35; 0xffd700; 0xff4500; 0xffaa00]%Z in
  Nat.iter (iterations (times particleCount (performanceLevel sys)))
           (explosionParticle position explosionColors) sys.

Definition createBallTrail (position : vec) (sys : t) : t :=
  let r := random (draws sys) in
  let sys := mk (particles sys) (maxParticles sys) (performanceLevel sys)
                (draws sys + 1) in
  if Num.gtb r 0.3 then sys
  else createParticle ballTrail position Vector3.zero sys.

Definition createRimSparks (position : vec) (sys : t) : t :=
  Nat.iter (iterations (times 15 (performanceLevel sys)))
           (createParticle rimSpark position Vector3.zero) sys.

Definition createCourtDust (position : vec) (sys : t) : t :=
  Nat.iter (iterations (times 10 (performanceLevel sys)))
           (createParticle courtDust position Vector3.zero) sys.

End Random.

(** The body of the loop of [update] up to the removal test. *)
Definition updateParticle (deltaTime : R) (particle : Particle) : Particle :=
  let velocity :=
    Vector3.set_y (velocity particle)
      ((velocity particle).y + GRAVITY * deltaTime * 0.5) in
  let position :=
    Vector3.add (position particle) (Vector3.multiplyScalar velocity deltaTime) in
  let life := life particle - deltaTime in
  let alpha := life / maxLife particle in
  let scale :=
    match type particle with
    | scoreExplosion => 0.5 + alpha * 0.5
    | _ => scale particle
    end in
  mkParticle position scale (radius particle) (color particle) alpha velocity
    life (maxLife particle) (type particle).

(** [update]: the loop runs from the last particle to the first and splices
    out the dead ones, so every particle is updated once and the others keep
    their order. *)
Definition update (deltaTime : R) (sys : t) : t :=
  let particles :=
    fold_right
      (fun particle rest =>
         let particle := updateParticle deltaTime particle in
         if Num.leb (life particle) 0 then rest else particle :: rest)
      [] (particles sys) in
  mk particles (maxParticles sys) (performanceLevel sys) (draws sys).

Definition clear (sys : t) : t :=
  mk [] (maxParticles sys) (performanceLevel sys) (draws sys).

(** The calls the program makes on the particle system. *)
Inductive Op : Type :=
| CreateScoreExplosion (position : vec) (isThreePointer : bool)
| CreateBallTrail (position : vec)
| CreateRimSparks (position : vec)
| CreateCourtDust (position : vec)
| Update (deltaTime : R).

Definition perform (random : nat -> R) (sys : t) (op : Op) : t :=
  match op with
  | CreateScoreExplosion position isThreePointer =>
      createScoreExplosion random position isThreePointer sys
  | CreateBallTrail position => createBallTrail random position sys
  | CreateRimSparks position => createRimSparks random position sys
  | CreateCourtDust position => createCourtDust random position sys
  | Update deltaTime => update deltaTime sys
  end.

Definition run (random : nat -> R) (sys : t) (ops : list Op) : t :=
  fold_left (perform random) ops sys.

(** [update] frame after frame, nothing created in between. *)
Definition frames (sys : t) (deltaTimes : list R) : t :=
  fold_left (fun sys deltaTime => update deltaTime sys) deltaTimes sys.

(** The frame times of the updates among the calls. *)
Definition frameTime (op : Op) : R :=
  match op with
  | Update deltaTime => deltaTime
  | _ => 0
  end.

Definition isTrail (op : Op) : bool :=
  match op with
  | CreateBallTrail _ => true
  | _ => false
  end.

(** A live particle: life left, no more than it started with, at most the
    3 s of a score explosion, and visible. *)
Definition alive (particle : Particle) : Prop :=
  0 < life particle <= maxLife particle /\
  maxLife particle <= 3 /\
  0 < opacity particle <= 1.

End ParticleSystem.

(** ** Proof tools *)

Module NumFacts.

Lemma ltb_spec (a b : R) : Num.ltb a b = true <-> a < b.
Proof. unfold Num.ltb; destruct (Rlt_dec a b); split; intros; try easy; lra. Qed.

Lemma leb_spec (a b : R) : Num.leb a b = true <-> a <= b.
Proof. unfold Num.leb; destruct (Rle_dec a b); split; intros; try easy; lra. Qed.

Lemma gtb_spec (a b : R) : Num.gtb a b = true <-> a > b.
Proof. unfold Num.gtb; rewrite ltb_spec; lra. Qed.

Lemma geb_spec (a b : R) : Num.geb a b = true <-> a >= b.
Proof. unfold Num.geb; rewrite leb_spec; lra. Qed.

Lemma ltb_nspec (a b : R) : Num.ltb a b = false <-> b <= a.
Proof. unfold Num.ltb; destruct (Rlt_dec a b); split; intros; try easy; lra. Qed.

Lemma leb_nspec (a b : R) : Num.leb a b = false <-> b < a.
Proof. unfold Num.leb; destruct (Rle_dec a b); split; intros; try easy; lra. Qed.

Lemma gtb_nspec (a b : R) : Num.gtb a b = false <-> a <= b.
Proof. unfold Num.gtb; apply ltb_nspec. Qed.

Lemma geb_nspec (a b : R) : Num.geb a b = false <-> a < b.
Proof. unfold Num.geb; apply leb_nspec. Qed.

End NumFacts.

(** Turn the boolean comparisons of the goal into order facts, branch by
    branch. *)
Ltac num_case :=
  match goal with
  | |- context [Num.gtb ?a ?b] =>
      let H := fresh "Hc" in
      destruct (Num.gtb a b) eqn:H;
      [apply NumFacts.gtb_spec in H | apply NumFacts.gtb_nspec in H]
  | |- context [Num.geb ?a ?b] =>
      let H := fresh "Hc" in
      destruct (Num.geb a b) eqn:H;
      [apply NumFacts.geb_spec in H | apply NumFacts.geb_nspec in H]
  | |- context [Num.ltb ?a ?b] =>
      let H := fresh "Hc" in
      destruct (Num.ltb a b) eqn:H;
      [apply NumFacts.ltb_spec in H | apply NumFacts.ltb_nspec in H]
  | |- context [Num.leb ?a ?b] =>
      let H := fresh "Hc" in
      destruct (Num.leb a b) eqn:H;
      [apply NumFacts.leb_spec in H | apply NumFacts.leb_nspec in H]
  end.

Ltac num_cases := repeat (num_case; cbn [andb orb negb]).

Ltac unfold_consts :=
  unfold COURT_LENGTH, COURT_WIDTH, COURT_FLOOR_Y, LINES_Y_OFFSET, RIM_Y,
    RIM_RADIUS, BACKBOARD_WIDTH, BACKBOARD_HEIGHT, BACKBOARD_DIST_FROM_BASELINE,
    POLE_RADIUS, BALL_RADIUS, GRAVITY, BALL_MOVEMENT_SPEED, MIN_SHOT_POWER,
    MAX_SHOT_POWER, POWER_STEP, BOUNCE_DAMPING, ROTATION_SCALE,
    BACKBOARD_DAMP_FACTOR, TIME_TO_RIM, MAX_SHOOTING_DISTANCE,
    SHOT_ERROR_SENSITIVITY, restY in *.

(** *** Square roots against constants *)

Lemma sqrt_lt_const (a c : R) : 0 <= a -> 0 < c -> (sqrt a < c <-> a < c * c).
Proof.
  intros Ha Hc. rewrite <- (sqrt_square c) at 1 by lra. split; intro H.
  - apply sqrt_lt_0_alt in H. exact H.
  - apply sqrt_lt_1_alt. lra.
Qed.

Lemma sqrt_le_const (a c : R) : 0 <= a -> 0 <= c -> (c <= sqrt a <-> c * c <= a).
Proof.
  intros Ha Hc. rewrite <- (sqrt_square c) at 1 by lra. split; intro H.
  - apply sqrt_le_0 in H; nra.
  - apply sqrt_le_1_alt. exact H.
Qed.

Lemma sum_sq_nonneg (a b : R) : 0 <= a * a + b * b.
Proof. nra. Qed.

Lemma lengthSq_nonneg (v : vec) : 0 <= Vector3.lengthSq v.
Proof. unfold Vector3.lengthSq. nra. Qed.

Lemma rimCenter_right : rimCenter rightHoop = Vector3.mk 12.885 3.05 0.
Proof.
  unfold rimCenter, localToWorld, rimPosition, connector_position_x,
    connectorDepth, backboardX, poleX. unfold_consts. f_equal; lra.
Qed.

Lemma rimCenter_left : rimCenter leftHoop = Vector3.mk (-12.885) 3.05 0.
Proof.
  unfold rimCenter, localToWorld, rimPosition, connector_position_x,
    connectorDepth, backboardX, poleX. unfold_consts. cbn. f_equal; lra.
Qed.

(** ** The 3-point classification *)

Lemma isThreePointShot_iff (origin target : vec) :
  isThreePointShot origin target = true <->
  horizontalDistance origin target >= 6.75 /\
  (Rabs origin.z <= COURT_WIDTH / 2 - 0.9 \/ Rabs (origin.x - target.x) >= 6.75).
Proof.
  unfold isThreePointShot, horizontalDistance. cbv zeta.
  replace ((origin.x - target.x) ^ 2 + (origin.z - target.z) ^ 2)
    with ((origin.x - target.x) * (origin.x - target.x) +
          (origin.z - target.z) * (origin.z - target.z)) by ring.
  num_cases; split; intros; try discriminate; try reflexivity;
    try (exfalso; lra); try (split; [lra | (left; lra) || (right; lra)]).
Qed.

Lemma shootBall_grounded_fields (s : GameState) :
  isShooting s = false ->
  shotOrigin (shootBall s) = ballPosition s /\
  isThreePointer (shootBall s) =
    isThreePointShot (ballPosition s) (targetHoopPos (ballPosition s)) /\
  ballPosition (shootBall s) = ballPosition s.
Proof.
  intros Hg. unfold shootBall. rewrite Hg. cbv zeta.
  unfold targetHoopPos, rimCenter. cbn.
  repeat split; reflexivity.
Qed.

(** C5: at every release from a grounded ball, [isThreePointer] is true
    exactly when the horizontal distance from the shot origin to the target
    rim centre is at least 6.75 and the origin is within the straight-line
    bound in z or at least 6.75 from the target along the x axis; a shot from
    horizontal distance 7 inside the lane is a three-pointer. *)
Theorem shootBall_isThreePointer (s : GameState) :
  isShooting s = false ->
  let origin := ballPosition s in
  let target := targetHoopPos origin in
  shotOrigin (shootBall s) = origin /\
  (isThreePointer (shootBall s) = true <->
     horizontalDistance origin target >= 6.75 /\
     (Rabs origin.z <= COURT_WIDTH / 2 - 0.9 \/
      Rabs (origin.x - target.x) >= 6.75)) /\
  (horizontalDistance origin target = 7 ->
   Rabs origin.z <= COURT_WIDTH / 2 - 0.9 ->
   isThreePointer (shootBall s) = true).
Proof.
  intros Hg origin target.
  destruct (shootBall_grounded_fields s Hg) as (Ho & Ht & _).
  split; [exact Ho |]. rewrite Ht. fold origin. fold target. split.
  - apply isThreePointShot_iff.
  - intros Hd Hz. apply isThreePointShot_iff. split; [lra | left; exact Hz].
Qed.

Lemma scenarioD_target : targetHoopPos (ballPosition scenarioD) = rimCenter rightHoop.
Proof.
  unfold targetHoopPos. rewrite rimCenter_right, rimCenter_left.
  replace (Num.ltb _ _) with true; [reflexivity |].
  symmetry. apply NumFacts.ltb_spec.
  unfold Vector3.distanceTo, Vector3.length.
  apply sqrt_lt_1_alt. split; [apply lengthSq_nonneg |].
  unfold Vector3.lengthSq, Vector3.sub, scenarioD. cbn. unfold_consts. lra.
Qed.

Lemma shootBall_isThreePointer_witness : isThreePointer (shootBall scenarioD) = true.
Proof.
  apply (shootBall_isThreePointer scenarioD eq_refl).
  - rewrite scenarioD_target, rimCenter_right.
    unfold horizontalDistance, scenarioD. cbn.
    replace ((5.885 - 12.885) * (5.885 - 12.885) + (0 - 0) * (0 - 0))
      with (7 * 7) by lra.
    apply sqrt_square. lra.
  - unfold scenarioD. cbn. rewrite Rabs_R0. unfold_consts. lra.
Defined.

(** ** The shot model *)

Lemma targetHoopPos_nearest (p : vec) (hoop : Hoop) :
  Vector3.distanceTo p (targetHoopPos p) <= Vector3.distanceTo p (rimCenter hoop).
Proof.
  unfold targetHoopPos. num_cases; destruct hoop; lra.
Qed.

Lemma spec_perfectVelocity_lands (p target : vec) (g T : R) :
  T <> 0 ->
  ballistic p (spec_perfectVelocity (Vector3.sub target p) g T) g T = target.
Proof.
  intros HT. destruct p as [px py pz], target as [tx ty tz].
  unfold ballistic, spec_perfectVelocity, Vector3.sub. cbn.
  f_equal; field; exact HT.
Qed.

(** C3: a shoot input on a grounded ball releases the constant-acceleration
    solution towards the nearest rim centre for the flight time [TIME_TO_RIM],
    scaled in all three components by the error factor of the power setting;
    the unscaled solution reaches the target after [TIME_TO_RIM]. *)
Theorem shootBall_releaseVelocity (s : GameState) :
  isShooting s = false ->
  let p := ballPosition s in
  let target := targetHoopPos p in
  let toHoop := Vector3.sub target p in
  let T := TIME_TO_RIM in
  let idealPower :=
    MIN_SHOT_POWER +
    Rmin 1 (horizontalDistance p target / 25) * (MAX_SHOT_POWER - MIN_SHOT_POWER) in
  let errorFactor := 1 + (shotPower s - idealPower) * SHOT_ERROR_SENSITIVITY in
  let perfect :=
    Vector3.mk (toHoop.x / T) ((toHoop.y - 0.5 * GRAVITY * (T * T)) / T) (toHoop.z / T) in
  ballVelocity (shootBall s) = Vector3.multiplyScalar perfect errorFactor /\
  ballVelocity (shootBall s) = spec_releaseVelocity p (shotPower s) /\
  ballistic p perfect GRAVITY T = target /\
  (forall hoop, Vector3.distanceTo p target <= Vector3.distanceTo p (rimCenter hoop)).
Proof.
  intros Hg p target toHoop T idealPower errorFactor perfect.
  assert (Hv : ballVelocity (shootBall s) = Vector3.multiplyScalar perfect errorFactor).
  { unfold shootBall. rewrite Hg. cbv zeta. cbn.
    subst perfect errorFactor idealPower toHoop target p T.
    unfold targetHoopPos, rimCenter, horizontalDistance, Vector3.multiplyScalar.
    cbn. unfold MAX_SHOOTING_DISTANCE.
    set (tgt := if Num.ltb _ _ then _ else _).
    replace ((ballPosition s).x - tgt.x) with (- (tgt.x - (ballPosition s).x)) by ring.
    replace ((ballPosition s).z - tgt.z) with (- (tgt.z - (ballPosition s).z)) by ring.
    rewrite !Rmult_opp_opp.
    replace 1.0 with 1 by lra. replace 25.0 with 25 by lra.
    set (ratio := Rmin 1 _).
    f_equal; unfold TIME_TO_RIM; field; lra. }
  split; [exact Hv |]. split; [| split].
  - rewrite Hv. reflexivity.
  - apply (spec_perfectVelocity_lands p target GRAVITY T).
    unfold T, TIME_TO_RIM. lra.
  - intro hoop. apply targetHoopPos_nearest.
Qed.

Lemma shootBall_releaseVelocity_witness :
  ballVelocity (shootBall initialState) =
  spec_releaseVelocity (ballPosition initialState) (shotPower initialState).
Proof.
  apply (shootBall_releaseVelocity initialState eq_refl).
Defined.

(** ** Inputs during flight *)

(** C10: while [isShooting] is true, [handleInput] and [shootBall] return at
    once: position, power, attempts, velocity and every other field are
    unchanged, whatever keys are held; the Space key handler only records
    the key. *)
Theorem inputs_inert_while_shooting (s : GameState) (deltaTime : R) :
  isShooting s = true ->
  handleInput deltaTime s = s /\ shootBall s = s /\
  ballPosition (handleInput deltaTime s) = ballPosition s /\
  shotPower (handleInput deltaTime s) = shotPower s /\
  shotAttempts (shootBall s) = shotAttempts s /\
  ballVelocity (shootBall s) = ballVelocity s /\
  onKeyDown "Space" s = setKey "Space" true s.
Proof.
  intros Hs.
  assert (Hh : handleInput deltaTime s = s) by (unfold handleInput; rewrite Hs; reflexivity).
  assert (Hb : shootBall s = s) by (unfold shootBall; rewrite Hs; reflexivity).
  rewrite Hh, Hb. repeat split; try reflexivity.
  unfold onKeyDown. cbn. unfold shootBall. cbn. rewrite Hs. reflexivity.
Qed.

(** ** How each physics step acts on the ball *)

Lemma hoopCollision_eq (hoop : Hoop) (hoopIndex : nat) (s : GameState) :
  hoopCollision hoop hoopIndex s =
  if madeBasketCondition hoop s then scoreBasket hoop s
  else if rimBandCondition hoop s then rimBounce hoop hoopIndex s
  else s.
Proof. reflexivity. Qed.

Lemma rimCenter_y (hoop : Hoop) : (rimCenter hoop).y = RIM_Y.
Proof. destruct hoop; reflexivity. Qed.

Lemma backboardCenter_y (hoop : Hoop) :
  (backboardCenter hoop).y = RIM_Y + BACKBOARD_HEIGHT / 2 - 0.15.
Proof. destruct hoop; reflexivity. Qed.

Lemma hoopCollision_outside_height (hoop : Hoop) (hoopIndex : nat) (s : GameState) :
  Rabs ((ballPosition s).y - RIM_Y) >= BALL_RADIUS + 0.025 ->
  hoopCollision hoop hoopIndex s = s.
Proof.
  intros Hy. rewrite hoopCollision_eq.
  unfold madeBasketCondition, rimBandCondition, rimVerticalDistance, ballToRim.
  cbn. rewrite rimCenter_y. unfold_consts.
  num_cases; try reflexivity; exfalso; lra.
Qed.

Lemma backboardCollision_outside_height (hoop : Hoop) (s : GameState) :
  Rabs ((ballPosition s).y - (RIM_Y + BACKBOARD_HEIGHT / 2 - 0.15)) >
    BACKBOARD_HEIGHT / 2 + BALL_RADIUS ->
  backboardCollision hoop s = s.
Proof.
  intros Hy. unfold backboardCollision. cbv zeta.
  change (localToWorld hoop backboard_position) with (backboardCenter hoop).
  cbn. rewrite backboardCenter_y.
  destruct (Num.leb (Rabs _) (BACKBOARD_HEIGHT / 2 + BALL_RADIUS)) eqn:Hc.
  - apply NumFacts.leb_spec in Hc. exfalso. lra.
  - reflexivity.
Qed.

Ltac vsimpl :=
  unfold Vector3.add, Vector3.sub, Vector3.multiplyScalar, Vector3.divideScalar,
    Vector3.reflect, Vector3.dot, Vector3.set_x, Vector3.set_y, Vector3.set_z,
    Vector3.zero in *;
  cbn in *.

Ltac rabs_lra :=
  unfold Rabs in *;
  repeat match goal with
         | |- context [Rcase_abs ?a] => destruct (Rcase_abs a)
         | H : context [Rcase_abs ?a] |- _ => destruct (Rcase_abs a)
         end;
  lra.

Lemma floorCollision_hit (s : GameState) :
  (ballPosition s).y <= COURT_FLOOR_Y + BALL_RADIUS + LINES_Y_OFFSET ->
  Rabs ((ballVelocity s).y * BOUNCE_DAMPING) >= 0.1 ->
  ballPosition (floorCollision s) =
    Vector3.set_y (ballPosition s) (COURT_FLOOR_Y + BALL_RADIUS + LINES_Y_OFFSET) /\
  ballVelocity (floorCollision s) =
    Vector3.mk ((ballVelocity s).x * BOUNCE_DAMPING)
               (- (ballVelocity s).y * BOUNCE_DAMPING)
               ((ballVelocity s).z * BOUNCE_DAMPING) /\
  isShooting (floorCollision s) = isShooting s.
Proof.
  intros Hy Hv. unfold floorCollision. cbv zeta.
  destruct (Num.leb (ballPosition s).y _) eqn:Hc;
    [| apply NumFacts.leb_nspec in Hc; exfalso; lra].
  cbn.
  destruct (Num.ltb (Rabs _) 0.1) eqn:Hc1.
  - apply NumFacts.ltb_spec in Hc1. exfalso.
    replace (- (ballVelocity s).y * BOUNCE_DAMPING)
      with (- ((ballVelocity s).y * BOUNCE_DAMPING)) in Hc1 by ring.
    rewrite Rabs_Ropp in Hc1. lra.
  - cbn. repeat split; reflexivity.
Qed.

Lemma wallCollisionX_fields (s : GameState) :
  (ballPosition (wallCollisionX s)).y = (ballPosition s).y /\
  (ballPosition (wallCollisionX s)).z = (ballPosition s).z /\
  (ballVelocity (wallCollisionX s)).y = (ballVelocity s).y /\
  (ballVelocity (wallCollisionX s)).z = (ballVelocity s).z /\
  Rabs (ballPosition (wallCollisionX s)).x <= COURT_LENGTH / 2 - BALL_RADIUS.
Proof.
  unfold wallCollisionX. cbv zeta. unfold_consts.
  num_cases; cbn; repeat split; try reflexivity; rabs_lra.
Qed.

Lemma wallCollisionZ_fields (s : GameState) :
  (ballPosition (wallCollisionZ s)).y = (ballPosition s).y /\
  (ballPosition (wallCollisionZ s)).x = (ballPosition s).x /\
  (ballVelocity (wallCollisionZ s)).y = (ballVelocity s).y /\
  (ballVelocity (wallCollisionZ s)).x = (ballVelocity s).x /\
  Rabs (ballPosition (wallCollisionZ s)).z <= COURT_WIDTH / 2 - BALL_RADIUS.
Proof.
  unfold wallCollisionZ. cbv zeta. unfold_consts.
  num_cases; cbn; repeat split; try reflexivity; rabs_lra.
Qed.

Lemma ballSpin_ball (deltaTime : R) (s : GameState) :
  ballPosition (ballSpin deltaTime s) = ballPosition s /\
  ballVelocity (ballSpin deltaTime s) = ballVelocity s.
Proof.
  unfold ballSpin. cbv zeta. destruct (Num.gtb _ _); split; reflexivity.
Qed.

(** A ball 0.01 below floor contact falling at 5 m/s: what the collision
    pass leaves in the vertical components. *)
Lemma resolveCollisions_floor_hit (deltaTime : R) (s : GameState) :
  (ballPosition s).y = COURT_FLOOR_Y + BALL_RADIUS - 0.01 ->
  (ballVelocity s).y = -5 ->
  (ballPosition (resolveCollisions deltaTime s)).y =
    COURT_FLOOR_Y + BALL_RADIUS + LINES_Y_OFFSET /\
  (ballVelocity (resolveCollisions deltaTime s)).y = 5 * BOUNCE_DAMPING.
Proof.
  intros Hy Hv. unfold resolveCollisions.
  destruct (floorCollision_hit s) as (Hp1 & Hv1 & _).
  { rewrite Hy. unfold_consts. lra. }
  { rewrite Hv. unfold_consts. rabs_lra. }
  set (s1 := floorCollision s) in *.
  destruct (wallCollisionX_fields s1) as (Hp2 & _ & Hv2 & _).
  set (s2 := wallCollisionX s1) in *.
  destruct (wallCollisionZ_fields s2) as (Hp3 & _ & Hv3 & _).
  set (s3 := wallCollisionZ s2) in *.
  destruct (ballSpin_ball deltaTime s3) as (Hp4 & Hv4).
  set (s4 := ballSpin deltaTime s3) in *.
  assert (Hpy : (ballPosition s4).y = COURT_FLOOR_Y + BALL_RADIUS + LINES_Y_OFFSET).
  { rewrite Hp4, Hp3, Hp2, Hp1. reflexivity. }
  assert (Hvy : (ballVelocity s4).y = 5 * BOUNCE_DAMPING).
  { rewrite Hv4, Hv3, Hv2, Hv1. cbn. rewrite Hv. lra. }
  unfold checkBackboardCollision, checkHoopCollision.
  assert (Hb : forall hoop, backboardCollision hoop s4 = s4).
  { intro hoop. apply backboardCollision_outside_height.
    rewrite Hpy. unfold_consts. rabs_lra. }
  rewrite !Hb.
  assert (Hh : forall hoop i, hoopCollision hoop i s4 = s4).
  { intros hoop i. apply hoopCollision_outside_height.
    rewrite Hpy. unfold_consts. rabs_lra. }
  rewrite !Hh. split; assumption.
Qed.

Lemma integrate_zero (s : GameState) :
  ballPosition (integrate 0 s) = ballPosition s /\
  ballVelocity (integrate 0 s) = ballVelocity s.
Proof.
  unfold integrate. cbv zeta. destruct (Num.gtb _ _); cbn;
    destruct (ballPosition s), (ballVelocity s); vsimpl; split; f_equal; lra.
Qed.

(** C6, amended: the ball of scenario C leaves one collision pass at
    height [COURT_FLOOR_Y + BALL_RADIUS + LINES_Y_OFFSET] with vertical
    velocity [5 * BOUNCE_DAMPING]; the same holds for a whole physics update
    over zero elapsed time. *)
Theorem scenarioC_floor_bounce (deltaTime : R) (s : GameState) :
  (ballPosition s).y = COURT_FLOOR_Y + BALL_RADIUS - 0.01 ->
  (ballVelocity s).y = -5 ->
  ((ballPosition (resolveCollisions deltaTime s)).y =
     COURT_FLOOR_Y + BALL_RADIUS + LINES_Y_OFFSET /\
   (ballVelocity (resolveCollisions deltaTime s)).y = 5 * BOUNCE_DAMPING) /\
  (isShooting s = true ->
   (ballPosition (updateBallPhysics 0 s)).y =
     COURT_FLOOR_Y + BALL_RADIUS + LINES_Y_OFFSET /\
   (ballVelocity (updateBallPhysics 0 s)).y = 5 * BOUNCE_DAMPING).
Proof.
  intros Hy Hv. split.
  - apply resolveCollisions_floor_hit; assumption.
  - intros Hs. unfold updateBallPhysics. cbv zeta. cbn [isShooting set_lastBallPosition].
    rewrite Hs.
    destruct (integrate_zero (set_lastBallPosition (ballPosition s) s)) as (Hp & Hv0).
    apply resolveCollisions_floor_hit.
    + rewrite Hp. exact Hy.
    + rewrite Hv0. exact Hv.
Qed.

Lemma scenarioC_floor_bounce_witness :
  (ballPosition (updateBallPhysics 0 scenarioC)).y =
    COURT_FLOOR_Y + BALL_RADIUS + LINES_Y_OFFSET /\
  (ballVelocity (updateBallPhysics 0 scenarioC)).y = 5 * BOUNCE_DAMPING.
Proof.
  apply (scenarioC_floor_bounce 0 scenarioC eq_refl eq_refl). reflexivity.
Defined.

(** The ball of scenario C does not come out of the collision pass at
    height [COURT_FLOOR_Y + BALL_RADIUS]. *)
Lemma scenarioC_counterexample :
  (ballPosition scenarioC).y = COURT_FLOOR_Y + BALL_RADIUS - 0.01 /\
  (ballVelocity scenarioC).y = -5 /\
  isShooting scenarioC = true /\
  ~ ((ballPosition (resolveCollisions 0 scenarioC)).y = COURT_FLOOR_Y + BALL_RADIUS /\
     (ballVelocity (resolveCollisions 0 scenarioC)).y = 5 * BOUNCE_DAMPING).
Proof.
  repeat split; try reflexivity.
  intros [Hp _].
  destruct (resolveCollisions_floor_hit 0 scenarioC eq_refl eq_refl) as (Hp' & _).
  rewrite Hp' in Hp. unfold_consts. lra.
Qed.

(** ** The rim test *)

Lemma lengthOr1_nonzero (v : vec) : Vector3.lengthOr1 v <> 0.
Proof.
  unfold Vector3.lengthOr1. destruct (Req_dec_T (Vector3.length v) 0); lra.
Qed.

Lemma rimNormalArg_length (hoop : Hoop) (s : GameState) :
  Vector3.length (rimNormalArg hoop s) = rimHorizontalDistance hoop s.
Proof.
  unfold Vector3.length, Vector3.lengthSq, rimNormalArg, rimHorizontalDistance.
  cbn. f_equal. ring.
Qed.

Lemma rimBand_distance (hoop : Hoop) (s : GameState) :
  rimBandCondition hoop s = true ->
  RIM_RADIUS - BALL_RADIUS < rimHorizontalDistance hoop s < RIM_RADIUS + 0.025 /\
  rimVerticalDistance hoop s < BALL_RADIUS + 0.025.
Proof.
  unfold rimBandCondition. intros H.
  apply andb_prop in H as [H H3]. apply andb_prop in H as [H1 H2].
  apply NumFacts.ltb_spec in H1, H3. apply NumFacts.gtb_spec in H2. lra.
Qed.

Lemma rimBand_normal_length (hoop : Hoop) (s : GameState) :
  rimBandCondition hoop s = true ->
  Vector3.lengthOr1 (rimNormalArg hoop s) = rimHorizontalDistance hoop s /\
  0 < rimHorizontalDistance hoop s.
Proof.
  intros H. apply rimBand_distance in H as [[H _] _].
  unfold Vector3.lengthOr1. rewrite rimNormalArg_length.
  unfold_consts. destruct (Req_dec_T _ 0); split; lra.
Qed.

Lemma rimHorizontalDistance_center (hoop : Hoop) (s : GameState) :
  (ballPosition s).x = (rimCenter hoop).x ->
  (ballPosition s).z = (rimCenter hoop).z ->
  rimHorizontalDistance hoop s = 0.
Proof.
  intros Hx Hz. unfold rimHorizontalDistance, ballToRim. vsimpl.
  rewrite Hx, Hz.
  replace (_ + _) with 0 by ring. apply sqrt_0.
Qed.

Lemma scoreBasket_ball (hoop : Hoop) (s : GameState) :
  ballPosition (scoreBasket hoop s) = ballPosition s /\
  ballVelocity (scoreBasket hoop s) = ballVelocity s.
Proof.
  unfold scoreBasket. destruct (negb _); split; reflexivity.
Qed.

Lemma hoopCollision_outside_band (hoop : Hoop) (hoopIndex : nat) (s : GameState) :
  rimHorizontalDistance hoop s >= RIM_RADIUS + 0.025 ->
  hoopCollision hoop hoopIndex s = s.
Proof.
  intros H. rewrite hoopCollision_eq.
  unfold madeBasketCondition, rimBandCondition. unfold_consts.
  num_cases; try reflexivity; exfalso; lra.
Qed.

Lemma hoopCollision_center (hoop : Hoop) (hoopIndex : nat) (s : GameState) :
  rimHorizontalDistance hoop s = 0 ->
  rimBandCondition hoop s = false /\
  ballPosition (hoopCollision hoop hoopIndex s) = ballPosition s /\
  ballVelocity (hoopCollision hoop hoopIndex s) = ballVelocity s.
Proof.
  intros H.
  assert (Hb : rimBandCondition hoop s = false).
  { unfold rimBandCondition. rewrite H. unfold_consts.
    num_cases; try reflexivity; exfalso; lra. }
  split; [exact Hb |]. rewrite hoopCollision_eq, Hb.
  destruct (madeBasketCondition hoop s).
  - apply scoreBasket_ball.
  - split; reflexivity.
Qed.

(** The two rim centres are 25.77 apart: a ball at one is outside the band
    of the other. *)
Lemma other_rim_far (hoop other : Hoop) (s : GameState) :
  hoop <> other ->
  (ballPosition s).x = (rimCenter hoop).x ->
  (ballPosition s).z = (rimCenter hoop).z ->
  rimHorizontalDistance other s >= RIM_RADIUS + 0.025.
Proof.
  intros Hne Hx Hz. unfold rimHorizontalDistance, ballToRim. vsimpl.
  rewrite Hx, Hz. apply Rle_ge. apply sqrt_le_const.
  - apply sum_sq_nonneg.
  - unfold_consts. lra.
  - destruct hoop, other; try congruence;
      rewrite ?rimCenter_right, ?rimCenter_left; cbn; unfold_consts; lra.
Qed.

(** C8: with the ball exactly at a rim centre the horizontal ball-to-rim
    vector has length zero, the rim-band branch is not taken, and the hoop
    test (one hoop or both in sequence) leaves the velocity unchanged; the
    only divisor of the step, the one inside [normalize], is never zero, and
    whenever the band branch runs the vector it normalises has positive
    length. *)
Theorem rim_center_velocity_unchanged (hoop : Hoop) (hoopIndex : nat) (s : GameState) :
  (ballPosition s).x = (rimCenter hoop).x ->
  (ballPosition s).z = (rimCenter hoop).z ->
  Vector3.length (rimNormalArg hoop s) = 0 /\
  rimBandCondition hoop s = false /\
  ballVelocity (hoopCollision hoop hoopIndex s) = ballVelocity s /\
  ballVelocity (checkHoopCollision s) = ballVelocity s /\
  (forall v, Vector3.lengthOr1 v <> 0) /\
  (forall hoop' s', rimBandCondition hoop' s' = true ->
                    0 < Vector3.length (rimNormalArg hoop' s')).
Proof.
  intros Hx Hz.
  pose proof (rimHorizontalDistance_center hoop s Hx Hz) as H0.
  destruct (hoopCollision_center hoop hoopIndex s H0) as (Hb & _ & Hv).
  split; [rewrite rimNormalArg_length; exact H0 |].
  split; [exact Hb |]. split; [exact Hv |]. split; [| split].
  - unfold checkHoopCollision. destruct hoop.
    + destruct (hoopCollision_center rightHoop 0 s H0) as (_ & Hp1 & Hv1).
      rewrite hoopCollision_outside_band.
      * exact Hv1.
      * apply (other_rim_far rightHoop leftHoop); [discriminate | |];
          rewrite Hp1; assumption.
    + rewrite (hoopCollision_outside_band rightHoop 0 s).
      * apply hoopCollision_center. exact H0.
      * apply (other_rim_far leftHoop rightHoop); [discriminate | |]; assumption.
  - apply lengthOr1_nonzero.
  - intros hoop' s' H. rewrite rimNormalArg_length.
    apply rimBand_normal_length. exact H.
Qed.

Lemma rim_center_velocity_unchanged_witness :
  ballVelocity (checkHoopCollision atRimCenter) = ballVelocity atRimCenter.
Proof.
  apply (rim_center_velocity_unchanged rightHoop 0 atRimCenter).
  - rewrite rimCenter_right. reflexivity.
  - rewrite rimCenter_right. reflexivity.
Defined.

(** ** Speed across a bounce *)

Lemma length_le_of_lengthSq (a b : vec) :
  Vector3.lengthSq a <= Vector3.lengthSq b -> Vector3.length a <= Vector3.length b.
Proof. intros H. apply sqrt_le_1_alt. exact H. Qed.

Lemma floorCollision_speed (s : GameState) :
  Vector3.length (ballVelocity (floorCollision s)) <= Vector3.length (ballVelocity s).
Proof.
  apply length_le_of_lengthSq. unfold floorCollision. cbv zeta.
  destruct (Num.leb (ballPosition s).y _); [| lra].
  destruct (_ && _); unfold Vector3.lengthSq; cbn; unfold_consts; nra.
Qed.

Lemma wallCollisionX_speed (s : GameState) :
  Vector3.length (ballVelocity (wallCollisionX s)) <= Vector3.length (ballVelocity s).
Proof.
  apply length_le_of_lengthSq. unfold wallCollisionX. cbv zeta.
  destruct (Num.geb _ _); [| destruct (Num.leb _ _)];
    unfold Vector3.lengthSq; cbn; unfold_consts; nra.
Qed.

Lemma wallCollisionZ_speed (s : GameState) :
  Vector3.length (ballVelocity (wallCollisionZ s)) <= Vector3.length (ballVelocity s).
Proof.
  apply length_le_of_lengthSq. unfold wallCollisionZ. cbv zeta.
  destruct (Num.geb _ _); [| destruct (Num.leb _ _)];
    unfold Vector3.lengthSq; cbn; unfold_consts; nra.
Qed.

Lemma backboardCollision_speed (hoop : Hoop) (s : GameState) :
  Vector3.length (ballVelocity (backboardCollision hoop s)) <=
  Vector3.length (ballVelocity s).
Proof.
  apply length_le_of_lengthSq. unfold backboardCollision. cbv zeta.
  destruct (_ && _); [| lra].
  destruct (Num.leb _ _); [| lra].
  unfold Vector3.lengthSq; cbn; unfold_consts; nra.
Qed.

(** The velocity a rim bounce leaves, with [n] the normalised horizontal
    ball-to-rim vector. *)
Lemma rimBounce_velocity (hoop : Hoop) (hoopIndex : nat) (s : GameState) :
  let n := Vector3.normalize (rimNormalArg hoop s) in
  let v := ballVelocity s in
  let d := v.x * n.x + v.z * n.z in
  ballVelocity (rimBounce hoop hoopIndex s) =
  Vector3.mk ((v.x - n.x * (2 * d)) * BOUNCE_DAMPING)
             (Rabs v.y * (BOUNCE_DAMPING * BOUNCE_DAMPING * 0.5) + 0.5)
             ((v.z - n.z * (2 * d)) * BOUNCE_DAMPING).
Proof.
  intros n v d. subst d v.
  assert (Hny : n.y = 0).
  { unfold n, Vector3.normalize, rimNormalArg. vsimpl. ring. }
  unfold rimBounce. cbv zeta. fold n. clearbody n.
  destruct n as [nx ny nz]. cbn in Hny. subst ny.
  destruct (ballVelocity s) as [vx vy vz] eqn:Ev. cbn. vsimpl.
  f_equal; try ring.
  match goal with
  | |- Rabs ?e + _ = _ =>
      replace e with (vy * (BOUNCE_DAMPING * BOUNCE_DAMPING * 0.5)) by ring
  end.
  rewrite Rabs_mult. f_equal. f_equal. apply Rabs_pos_eq. unfold_consts. lra.
Qed.

Lemma rimBand_normal_unit (hoop : Hoop) (s : GameState) :
  rimBandCondition hoop s = true ->
  let n := Vector3.normalize (rimNormalArg hoop s) in
  n.x * n.x + n.z * n.z = 1.
Proof.
  intros H n. destruct (rimBand_normal_length hoop s H) as [HL Hpos].
  unfold n, Vector3.normalize. rewrite HL.
  set (h := rimHorizontalDistance hoop s) in *.
  assert (Hh : h * h = (ballToRim hoop s).x * (ballToRim hoop s).x +
                       (ballToRim hoop s).z * (ballToRim hoop s).z).
  { unfold h, rimHorizontalDistance. apply sqrt_sqrt. apply sum_sq_nonneg. }
  clearbody h. clear HL n H.
  unfold rimNormalArg, ballToRim in *. vsimpl.
  set (bx := (ballPosition s).x - (rimCenter hoop).x) in *.
  set (bz := (ballPosition s).z - (rimCenter hoop).z) in *.
  replace (bx * (1 / h) * (bx * (1 / h)) + bz * (1 / h) * (bz * (1 / h)))
    with ((bx * bx + bz * bz) / (h * h)) by (field; lra).
  rewrite <- Hh. field. lra.
Qed.

Lemma rimBounce_horizontalSpeed (hoop : Hoop) (hoopIndex : nat) (s : GameState) :
  rimBandCondition hoop s = true ->
  horizontalSpeed (ballVelocity (rimBounce hoop hoopIndex s)) =
  BOUNCE_DAMPING * horizontalSpeed (ballVelocity s).
Proof.
  intros H. pose proof (rimBand_normal_unit hoop s H) as Hn.
  rewrite rimBounce_velocity. cbv zeta in *.
  set (n := Vector3.normalize (rimNormalArg hoop s)) in *. clearbody n.
  set (v := ballVelocity s). clearbody v.
  destruct n as [nx ny nz], v as [vx vy vz]. unfold horizontalSpeed. cbn in *.
  set (d := vx * nx + vz * nz).
  replace ((vx - nx * (2 * d)) * BOUNCE_DAMPING * ((vx - nx * (2 * d)) * BOUNCE_DAMPING) +
           (vz - nz * (2 * d)) * BOUNCE_DAMPING * ((vz - nz * (2 * d)) * BOUNCE_DAMPING))
    with ((BOUNCE_DAMPING * BOUNCE_DAMPING) *
          (vx * vx + vz * vz + 4 * d * d * (nx * nx + nz * nz - 1)))
    by (unfold d; ring).
  rewrite Hn.
  replace (vx * vx + vz * vz + 4 * d * d * (1 - 1)) with (vx * vx + vz * vz) by ring.
  rewrite sqrt_mult_alt by (unfold_consts; lra).
  rewrite sqrt_square by (unfold_consts; lra). reflexivity.
Qed.

Lemma hoopCollision_rimBounce (hoop : Hoop) (hoopIndex : nat) (s : GameState) :
  madeBasketCondition hoop s = false ->
  rimBandCondition hoop s = true ->
  hoopCollision hoop hoopIndex s = rimBounce hoop hoopIndex s.
Proof. intros Hm Hb. rewrite hoopCollision_eq, Hm, Hb. reflexivity. Qed.

(** C4, amended: a bounce off the floor, a wall or a backboard never raises
    the speed; a rim bounce multiplies the horizontal speed by
    [BOUNCE_DAMPING] and sets the vertical velocity to
    [|vy| * BOUNCE_DAMPING^2 * 0.5 + 0.5]. *)
Theorem bounce_speed (hoop : Hoop) (hoopIndex : nat) (s : GameState) :
  let speed := fun t => Vector3.length (ballVelocity t) in
  (speed (floorCollision s) <= speed s /\
   speed (wallCollisionX s) <= speed s /\
   speed (wallCollisionZ s) <= speed s /\
   speed (backboardCollision hoop s) <= speed s /\
   speed (checkBackboardCollision s) <= speed s) /\
  (madeBasketCondition hoop s = false ->
   rimBandCondition hoop s = true ->
   horizontalSpeed (ballVelocity (hoopCollision hoop hoopIndex s)) =
     BOUNCE_DAMPING * horizontalSpeed (ballVelocity s) /\
   (ballVelocity (hoopCollision hoop hoopIndex s)).y =
     Rabs (ballVelocity s).y * (BOUNCE_DAMPING * BOUNCE_DAMPING * 0.5) + 0.5).
Proof.
  intros speed. unfold speed. split.
  - repeat split;
      auto using floorCollision_speed, wallCollisionX_speed, wallCollisionZ_speed,
        backboardCollision_speed.
    unfold checkBackboardCollision.
    eapply Rle_trans; apply backboardCollision_speed.
  - intros Hm Hb.
    rewrite (hoopCollision_rimBounce hoop hoopIndex s Hm Hb). split.
    + apply rimBounce_horizontalSpeed. exact Hb.
    + rewrite rimBounce_velocity. reflexivity.
Qed.

Lemma rimTouch_distance : rimHorizontalDistance rightHoop rimTouch = 0.2.
Proof.
  unfold rimHorizontalDistance, ballToRim. rewrite rimCenter_right.
  unfold rimTouch. vsimpl.
  replace ((13.085 - 12.885) * (13.085 - 12.885) + (0 - 0) * (0 - 0))
    with (0.2 * 0.2) by lra.
  apply sqrt_square. lra.
Qed.

Lemma rimTouch_conditions :
  madeBasketCondition rightHoop rimTouch = false /\
  rimBandCondition rightHoop rimTouch = true.
Proof.
  unfold madeBasketCondition, rimBandCondition, rimVerticalDistance.
  rewrite rimTouch_distance. unfold ballToRim. rewrite rimCenter_right.
  unfold rimTouch. vsimpl. unfold_consts.
  replace (3.05 - 3.05) with 0 by lra. rewrite Rabs_R0.
  split; num_cases; try reflexivity; exfalso; lra.
Qed.

Lemma bounce_speed_witness :
  (ballVelocity (hoopCollision rightHoop 0 rimTouch)).y =
  Rabs (ballVelocity rimTouch).y * (BOUNCE_DAMPING * BOUNCE_DAMPING * 0.5) + 0.5.
Proof.
  destruct rimTouch_conditions as [Hm Hb].
  apply (bounce_speed rightHoop 0 rimTouch); assumption.
Defined.

(** A slow ball touching the rim band leaves the rim bounce faster than it
    came: 0.1 m/s before, more than 0.5 m/s after. *)
Lemma rim_bounce_counterexample :
  isShooting rimTouch = true /\
  rimBandCondition rightHoop rimTouch = true /\
  ~ (Vector3.length (ballVelocity (hoopCollision rightHoop 0 rimTouch)) <=
     Vector3.length (ballVelocity rimTouch)).
Proof.
  destruct rimTouch_conditions as [Hm Hb].
  split; [reflexivity |]. split; [exact Hb |].
  rewrite (hoopCollision_rimBounce _ _ _ Hm Hb), rimBounce_velocity.
  cbv zeta. intros Hle.
  assert (Hpre : Vector3.length (ballVelocity rimTouch) < 0.2).
  { unfold Vector3.length. apply sqrt_lt_const.
    - apply lengthSq_nonneg.
    - lra.
    - unfold Vector3.lengthSq, rimTouch. cbn. lra. }
  match type of Hle with
  | Vector3.length ?v <= _ => assert (Hpost : 0.5 <= Vector3.length v)
  end.
  { unfold Vector3.length. apply sqrt_le_const.
    - apply lengthSq_nonneg.
    - lra.
    - unfold Vector3.lengthSq. cbn.
      pose proof (Rabs_pos (-0.1)) as Ha. unfold_consts. nra. }
  lra.
Qed.

(** ** Court bounds *)

Lemma backboardCenter_x (hoop : Hoop) :
  (backboardCenter hoop).x = match hoop with rightHoop => 13.3 | leftHoop => -13.3 end.
Proof.
  destruct hoop; unfold backboardCenter, localToWorld, backboard_position,
    backboardX, poleX; unfold_consts; cbn; lra.
Qed.

Lemma backboardCollision_inCourt (hoop : Hoop) (s : GameState) :
  inCourt (ballPosition s) -> inCourt (ballPosition (backboardCollision hoop s)).
Proof.
  intros [Hx Hz]. unfold backboardCollision. cbv zeta.
  change (localToWorld hoop backboard_position) with (backboardCenter hoop).
  destruct (_ && _); [| split; assumption].
  destruct (Num.leb _ _); [| split; assumption].
  cbn. split; [| exact Hz]. clear Hx Hz.
  rewrite backboardCenter_x. unfold_consts.
  destruct hoop; match goal with |- context [if ?c then _ else _] => destruct c end;
    vsimpl; rabs_lra.
Qed.

(** Where a rim bounce puts the ball: on the circle of radius
    [RIM_RADIUS + BALL_RADIUS + 0.01] around the rim centre, at unchanged
    height. *)
Lemma rimBounce_position (hoop : Hoop) (hoopIndex : nat) (s : GameState) :
  rimBandCondition hoop s = true ->
  let n := Vector3.normalize (rimNormalArg hoop s) in
  let r := RIM_RADIUS + BALL_RADIUS + 0.01 in
  ballPosition (rimBounce hoop hoopIndex s) =
  Vector3.mk ((rimCenter hoop).x + n.x * r) (ballPosition s).y ((rimCenter hoop).z + n.z * r).
Proof.
  intros H n r. destruct (rimBand_normal_length hoop s H) as [HL Hpos].
  assert (Hn : n = Vector3.mk ((ballToRim hoop s).x * (1 / rimHorizontalDistance hoop s))
                              0
                              ((ballToRim hoop s).z * (1 / rimHorizontalDistance hoop s))).
  { unfold n, Vector3.normalize. rewrite HL. unfold rimNormalArg.
    unfold Vector3.divideScalar, Vector3.multiplyScalar. cbn. f_equal. ring. }
  unfold rimBounce. cbv zeta. fold n. rewrite Hn. clear Hn n HL.
  set (h := rimHorizontalDistance hoop s) in *. clearbody h.
  unfold ballToRim, r. cbn. vsimpl.
  destruct (ballPosition s) as [px py pz]. cbn.
  f_equal; field; lra.
Qed.

Lemma unit_component_bounds (a b : R) : a * a + b * b = 1 -> -1 <= a <= 1 /\ -1 <= b <= 1.
Proof. intros H. repeat split; nra. Qed.

Lemma rimBounce_inCourt (hoop : Hoop) (hoopIndex : nat) (s : GameState) :
  rimBandCondition hoop s = true ->
  inCourt (ballPosition (rimBounce hoop hoopIndex s)).
Proof.
  intros H. rewrite (rimBounce_position hoop hoopIndex s H). cbv zeta.
  pose proof (rimBand_normal_unit hoop s H) as Hu. cbv zeta in Hu.
  apply unit_component_bounds in Hu as [Hx Hz].
  set (n := Vector3.normalize (rimNormalArg hoop s)) in *. clearbody n.
  unfold inCourt. cbn.
  destruct hoop; rewrite ?rimCenter_right, ?rimCenter_left; cbn; unfold_consts;
    split; apply Rabs_le; nra.
Qed.

Lemma hoopCollision_inCourt (hoop : Hoop) (hoopIndex : nat) (s : GameState) :
  inCourt (ballPosition s) -> inCourt (ballPosition (hoopCollision hoop hoopIndex s)).
Proof.
  intros Hc. rewrite hoopCollision_eq.
  destruct (madeBasketCondition hoop s).
  - destruct (scoreBasket_ball hoop s) as [Hp _]. rewrite Hp. exact Hc.
  - destruct (rimBandCondition hoop s) eqn:Hb.
    + apply rimBounce_inCourt. exact Hb.
    + exact Hc.
Qed.

Lemma resolveCollisions_inCourt (deltaTime : R) (s : GameState) :
  inCourt (ballPosition (resolveCollisions deltaTime s)).
Proof.
  unfold resolveCollisions, checkHoopCollision, checkBackboardCollision.
  do 2 apply hoopCollision_inCourt. do 2 apply backboardCollision_inCourt.
  destruct (ballSpin_ball deltaTime (wallCollisionZ (wallCollisionX (floorCollision s))))
    as [Hp _].
  rewrite Hp.
  destruct (wallCollisionZ_fields (wallCollisionX (floorCollision s)))
    as (_ & Hx & _ & _ & Hz).
  destruct (wallCollisionX_fields (floorCollision s)) as (_ & _ & _ & _ & Hx').
  split; [rewrite Hx; exact Hx' | exact Hz].
Qed.

Lemma updateBallPhysics_inCourt (deltaTime : R) (s : GameState) :
  (isShooting s = true \/ inCourt (ballPosition s)) ->
  inCourt (ballPosition (updateBallPhysics deltaTime s)).
Proof.
  intros H. unfold updateBallPhysics. cbv zeta. cbn [isShooting set_lastBallPosition].
  destruct (isShooting s).
  - apply resolveCollisions_inCourt.
  - destruct H as [H | H]; [discriminate | exact H].
Qed.

Ltac handleInput_cases s :=
  unfold handleInput;
  destruct (isShooting s) eqn:?;
  [ | destruct (keys s "ArrowLeft"), (keys s "ArrowRight"), (keys s "ArrowUp"),
        (keys s "ArrowDown"); cbn;
      destruct (keys s "KeyW"); cbn; destruct (keys s "KeyS"); cbn ].

Lemma clamp_abs (a v : R) : 0 <= a -> Rabs (Rmax (- a) (Rmin a v)) <= a.
Proof.
  intros Ha. apply Rabs_le. split.
  - apply Rmax_l.
  - apply Rmax_lub; [lra | apply Rmin_l].
Qed.

Lemma handleInput_inCourt (deltaTime : R) (s : GameState) :
  inCourt (ballPosition s) -> inCourt (ballPosition (handleInput deltaTime s)).
Proof.
  intros Hc. handleInput_cases s; try exact Hc;
    split; cbn; apply clamp_abs; unfold_consts; lra.
Qed.

Lemma shotFeedbackTimeout_ballPosition (deltaTime : R) (s : GameState) :
  ballPosition (shotFeedbackTimeout deltaTime s) = ballPosition s.
Proof.
  unfold shotFeedbackTimeout. cbv zeta.
  destruct (Num.gtb _ _); [| reflexivity]. destruct (_ && _); reflexivity.
Qed.

Lemma handleInput_isShooting (deltaTime : R) (s : GameState) :
  isShooting (handleInput deltaTime s) = isShooting s.
Proof. handleInput_cases s; congruence. Qed.

Lemma animate_inCourt (deltaTime : R) (s : GameState) :
  inCourt (ballPosition s) -> inCourt (ballPosition (animate deltaTime s)).
Proof.
  intros Hc. unfold animate. rewrite shotFeedbackTimeout_ballPosition.
  apply updateBallPhysics_inCourt. right. apply handleInput_inCourt. exact Hc.
Qed.

Lemma resetBall_inCourt (s : GameState) : inCourt (ballPosition (resetBall s)).
Proof.
  unfold inCourt, resetBall. cbn. rewrite Rabs_R0. unfold_consts. lra.
Qed.

Lemma shootBall_ballPosition (s : GameState) :
  ballPosition (shootBall s) = ballPosition s.
Proof. unfold shootBall. destruct (isShooting s); reflexivity. Qed.

Lemma step_inCourt (s : GameState) (i : Input) :
  inCourt (ballPosition s) -> inCourt (ballPosition (step s i)).
Proof.
  intros Hc. destruct i as [code | code | deltaTime]; cbn.
  - unfold onKeyDown. cbv zeta.
    destruct (String.eqb code "KeyR"); [apply resetBall_inCourt |].
    destruct (String.eqb code "Space"); [rewrite shootBall_ballPosition |]; exact Hc.
  - exact Hc.
  - apply animate_inCourt. exact Hc.
Qed.

(** C7: the court bounds hold in every state the loop reaches from a state
    inside them, so after every frame; one frame preserves them, and the
    collision pass of a ball in flight establishes them from any position. *)
Theorem ball_stays_in_court (s : GameState) (inputs : list Input) :
  inCourt (ballPosition s) ->
  inCourt (ballPosition (run s inputs)) /\
  (forall deltaTime, inCourt (ballPosition (animate deltaTime s))) /\
  (forall deltaTime t, isShooting t = true ->
                       inCourt (ballPosition (updateBallPhysics deltaTime t))).
Proof.
  intros Hc. split; [| split].
  - unfold run. revert s Hc. induction inputs as [| i inputs IH]; intros s Hc.
    + exact Hc.
    + cbn. apply IH. apply step_inCourt. exact Hc.
  - intro deltaTime. apply animate_inCourt. exact Hc.
  - intros deltaTime t Ht. apply updateBallPhysics_inCourt. left. exact Ht.
Qed.

Lemma initialState_inCourt : inCourt (ballPosition initialState).
Proof. unfold inCourt. cbn. rewrite Rabs_R0. unfold_consts. lra. Qed.

Lemma ball_stays_in_court_witness :
  inCourt (ballPosition (run initialState
                           [KeyDown "ArrowRight"; Frame 0.016; KeyDown "Space";
                            Frame 0.016; Frame 0.016])).
Proof.
  apply (ball_stays_in_court initialState _ initialState_inCourt).
Defined.

(** ** The scoring fields across the steps of a frame *)

Lemma integrate_scoring (deltaTime : R) (s : GameState) :
  scoring (integrate deltaTime s) = scoring s /\
  isShooting (integrate deltaTime s) = isShooting s.
Proof. unfold integrate. cbv zeta. destruct (Num.gtb _ _); split; reflexivity. Qed.

Lemma floorCollision_scoring (s : GameState) :
  scoring (floorCollision s) = scoring s /\
  (isShooting (floorCollision s) = true -> isShooting s = true).
Proof.
  unfold floorCollision. cbv zeta.
  destruct (Num.leb _ _); [| split; [reflexivity | tauto]].
  destruct (_ && _); cbn; split; try reflexivity; try tauto; discriminate.
Qed.

Lemma wallCollisionX_scoring (s : GameState) :
  scoring (wallCollisionX s) = scoring s /\
  isShooting (wallCollisionX s) = isShooting s.
Proof.
  unfold wallCollisionX. cbv zeta.
  destruct (Num.geb _ _); [| destruct (Num.leb _ _)]; split; reflexivity.
Qed.

Lemma wallCollisionZ_scoring (s : GameState) :
  scoring (wallCollisionZ s) = scoring s /\
  isShooting (wallCollisionZ s) = isShooting s.
Proof.
  unfold wallCollisionZ. cbv zeta.
  destruct (Num.geb _ _); [| destruct (Num.leb _ _)]; split; reflexivity.
Qed.

Lemma ballSpin_scoring (deltaTime : R) (s : GameState) :
  scoring (ballSpin deltaTime s) = scoring s /\
  isShooting (ballSpin deltaTime s) = isShooting s.
Proof. unfold ballSpin. cbv zeta. destruct (Num.gtb _ _); split; reflexivity. Qed.

Lemma backboardCollision_scoring (hoop : Hoop) (s : GameState) :
  scoring (backboardCollision hoop s) = scoring s /\
  isShooting (backboardCollision hoop s) = isShooting s.
Proof.
  unfold backboardCollision. cbv zeta.
  destruct (_ && _); [| split; reflexivity].
  destruct (Num.leb _ _); split; reflexivity.
Qed.

Lemma rimBounce_scoring (hoop : Hoop) (hoopIndex : nat) (s : GameState) :
  scoring (rimBounce hoop hoopIndex s) = scoring s /\
  isShooting (rimBounce hoop hoopIndex s) = isShooting s.
Proof. split; reflexivity. Qed.

Lemma handleInput_scoring (deltaTime : R) (s : GameState) :
  scoring (handleInput deltaTime s) = scoring s.
Proof. handleInput_cases s; reflexivity. Qed.

(** The state a frame's hoop tests run on. *)
Lemma beforeHoops_scoring (deltaTime : R) (s : GameState) :
  let t := checkBackboardCollision
             (ballSpin deltaTime
                (wallCollisionZ (wallCollisionX (floorCollision (integrate deltaTime s))))) in
  scoring t = scoring s /\ (isShooting t = true -> isShooting s = true).
Proof.
  cbv zeta. unfold checkBackboardCollision.
  destruct (integrate_scoring deltaTime s) as [E1 S1].
  set (s1 := integrate deltaTime s) in *.
  destruct (floorCollision_scoring s1) as [E2 S2]. set (s2 := floorCollision s1) in *.
  destruct (wallCollisionX_scoring s2) as [E3 S3]. set (s3 := wallCollisionX s2) in *.
  destruct (wallCollisionZ_scoring s3) as [E4 S4]. set (s4 := wallCollisionZ s3) in *.
  destruct (ballSpin_scoring deltaTime s4) as [E5 S5]. set (s5 := ballSpin deltaTime s4) in *.
  destruct (backboardCollision_scoring rightHoop s5) as [E6 S6].
  set (s6 := backboardCollision rightHoop s5) in *.
  destruct (backboardCollision_scoring leftHoop s6) as [E7 S7].
  split; [congruence |]. intros H. rewrite S7, S6, S5, S4, S3 in H.
  apply S2 in H. congruence.
Qed.

(** *** The score test of one hoop *)

Lemma madeBasketCondition_spec (hoop : Hoop) (s : GameState) :
  madeBasketCondition hoop s = true <->
  rimHorizontalDistance hoop s < RIM_RADIUS - BALL_RADIUS * 0.5 /\
  rimVerticalDistance hoop s < BALL_RADIUS /\
  (ballVelocity s).y < 0.
Proof.
  unfold madeBasketCondition. rewrite !andb_true_iff, !NumFacts.ltb_spec. tauto.
Qed.

Lemma made_neq_spec (s : GameState) :
  negb (String.eqb (lastShotResult s) made) = true <-> lastShotResult s <> made.
Proof.
  rewrite negb_true_iff. split.
  - intros H E. apply String.eqb_eq in E. congruence.
  - intros H. apply String.eqb_neq. exact H.
Qed.

Lemma scoreBasket_fires (hoop : Hoop) (s : GameState) :
  lastShotResult s <> made ->
  scoring (scoreBasket hoop s) =
    ((scoreEvents s + 1)%Z, (score s + points s)%Z, (shotsMade s + 1)%Z,
     shotAttempts s, made, isThreePointer s, shotFeedbackTimer s) /\
  isShooting (scoreBasket hoop s) = isShooting s.
Proof.
  intros H. apply made_neq_spec in H. unfold scoreBasket. rewrite H.
  split; [| reflexivity].
  unfold scoring, scoreEvents, points. cbn -[Z.add].
  repeat match goal with |- (_, _) = (_, _) => apply f_equal2 end;
    try reflexivity; lia.
Qed.

Lemma scoreBasket_guarded (hoop : Hoop) (s : GameState) :
  lastShotResult s = made -> scoreBasket hoop s = s.
Proof.
  intros H. unfold scoreBasket. rewrite H. reflexivity.
Qed.

Lemma scoresAt_dec (hoop : Hoop) (s : GameState) :
  scoresAt hoop s <->
  madeBasketCondition hoop s && negb (String.eqb (lastShotResult s) made) = true.
Proof.
  unfold scoresAt. rewrite andb_true_iff, madeBasketCondition_spec, made_neq_spec.
  tauto.
Qed.

Lemma hoopCollision_scores (hoop : Hoop) (hoopIndex : nat) (s : GameState) :
  scoresAt hoop s ->
  scoring (hoopCollision hoop hoopIndex s) =
    ((scoreEvents s + 1)%Z, (score s + points s)%Z, (shotsMade s + 1)%Z,
     shotAttempts s, made, isThreePointer s, shotFeedbackTimer s) /\
  isShooting (hoopCollision hoop hoopIndex s) = isShooting s.
Proof.
  intros H. apply scoresAt_dec in H. apply andb_prop in H as [Hm Hg].
  rewrite hoopCollision_eq, Hm. apply scoreBasket_fires.
  apply made_neq_spec. exact Hg.
Qed.

Lemma hoopCollision_no_score (hoop : Hoop) (hoopIndex : nat) (s : GameState) :
  ~ scoresAt hoop s ->
  scoring (hoopCollision hoop hoopIndex s) = scoring s /\
  isShooting (hoopCollision hoop hoopIndex s) = isShooting s.
Proof.
  intros H. rewrite scoresAt_dec in H. rewrite hoopCollision_eq.
  destruct (madeBasketCondition hoop s).
  - destruct (negb (String.eqb (lastShotResult s) made)) eqn:Hg; [tauto |].
    apply negb_false_iff, String.eqb_eq in Hg.
    rewrite (scoreBasket_guarded hoop s Hg). split; reflexivity.
  - destruct (rimBandCondition hoop s); split; reflexivity.
Qed.

(** *** The feedback timeout *)

Lemma shotFeedbackTimeout_expires (deltaTime : R) (s : GameState) :
  shotFeedbackTimer s > 0 ->
  shotFeedbackTimer s - deltaTime <= 0 ->
  lastShotResult s = pending ->
  lastShotResult (shotFeedbackTimeout deltaTime s) = missed /\
  calls (shotFeedbackTimeout deltaTime s) =
    ui_updateGameStatus (MissText (isThreePointer s)) ::
    ui_showShotFeedback false :: calls s /\
  shotFeedbackTimer (shotFeedbackTimeout deltaTime s) = shotFeedbackTimer s - deltaTime.
Proof.
  intros Ht Hd Hp. unfold shotFeedbackTimeout. cbv zeta.
  apply NumFacts.gtb_spec in Ht. rewrite Ht. cbn.
  apply NumFacts.leb_spec in Hd. rewrite Hd, Hp. cbn. repeat split; reflexivity.
Qed.

Lemma shotFeedbackTimeout_fields (deltaTime : R) (s : GameState) :
  let s' := shotFeedbackTimeout deltaTime s in
  scoreEvents s' = scoreEvents s /\ score s' = score s /\
  shotsMade s' = shotsMade s /\ shotAttempts s' = shotAttempts s /\
  isThreePointer s' = isThreePointer s /\ isShooting s' = isShooting s /\
  (lastShotResult s' = lastShotResult s \/
   lastShotResult s = pending /\ lastShotResult s' = missed).
Proof.
  cbv zeta. unfold shotFeedbackTimeout. cbv zeta.
  destruct (Num.gtb _ _); [| repeat split; left; reflexivity].
  cbn. destruct (Num.leb _ _); cbn; [| repeat split; left; reflexivity].
  destruct (String.eqb (lastShotResult s) pending) eqn:E; cbn.
  - apply String.eqb_eq in E. repeat split. right. split; [exact E | reflexivity].
  - repeat split. left. reflexivity.
Qed.

(** *** Score events against attempts *)

Lemma scoring_inv (a b : GameState) :
  scoring a = scoring b ->
  scoreEvents a = scoreEvents b /\ score a = score b /\ shotsMade a = shotsMade b /\
  shotAttempts a = shotAttempts b /\ lastShotResult a = lastShotResult b /\
  isThreePointer a = isThreePointer b /\ shotFeedbackTimer a = shotFeedbackTimer b.
Proof. unfold scoring. intros H. inversion H. repeat split; assumption. Qed.

Lemma scoring_tuple_inv (a : GameState) (e sc m att : Z) (r : string) (th : bool) (tm : R) :
  scoring a = (e, sc, m, att, r, th, tm) ->
  scoreEvents a = e /\ score a = sc /\ shotsMade a = m /\ shotAttempts a = att /\
  lastShotResult a = r /\ isThreePointer a = th /\ shotFeedbackTimer a = tm.
Proof. unfold scoring. intros H. inversion H. repeat split; reflexivity. Qed.

Lemma potential_le_unresolved (s : GameState) :
  (potential s <= scoreEvents s - shotAttempts s + unresolved s)%Z /\
  (isShooting s = true ->
   potential s = scoreEvents s - shotAttempts s + unresolved s)%Z /\
  (isShooting s = false -> potential s = scoreEvents s - shotAttempts s)%Z.
Proof.
  unfold potential, canScore, unresolved.
  destruct (isShooting s), (negb _); cbn; repeat split; intros; try lia; discriminate.
Qed.

Lemma hoopCollision_unresolved (hoop : Hoop) (hoopIndex : nat) (s : GameState) :
  let s' := hoopCollision hoop hoopIndex s in
  (scoreEvents s' - shotAttempts s' + unresolved s' <=
   scoreEvents s - shotAttempts s + unresolved s)%Z /\
  (shotsMade s' - scoreEvents s' = shotsMade s - scoreEvents s)%Z /\
  isShooting s' = isShooting s.
Proof.
  cbv zeta.
  destruct (String.eqb (lastShotResult s) made) eqn:Eg.
  - apply String.eqb_eq in Eg.
    destruct (hoopCollision_no_score hoop hoopIndex s) as [E S].
    { unfold scoresAt. tauto. }
    apply scoring_inv in E as (E1 & _ & E3 & E4 & E5 & _).
    unfold unresolved. rewrite E1, E3, E4, E5. split; [lia | split; [lia | exact S]].
  - destruct (madeBasketCondition hoop s) eqn:Em.
    + destruct (hoopCollision_scores hoop hoopIndex s) as [E S].
      { apply scoresAt_dec. rewrite Em, Eg. reflexivity. }
      apply scoring_tuple_inv in E as (E1 & E2 & E3 & E4 & E5 & E6 & E7).
      unfold unresolved. rewrite E5, Eg. cbn. split; [lia | split; [lia | exact S]].
    + destruct (hoopCollision_no_score hoop hoopIndex s) as [E S].
      { rewrite scoresAt_dec, Em. cbn. discriminate. }
      apply scoring_inv in E as (E1 & _ & E3 & E4 & E5 & _).
      unfold unresolved. rewrite E1, E3, E4, E5. split; [lia | split; [lia | exact S]].
Qed.

Lemma updateBallPhysics_unresolved (deltaTime : R) (s : GameState) :
  let s' := updateBallPhysics deltaTime s in
  (scoreEvents s' - shotAttempts s' + unresolved s' <=
   scoreEvents s - shotAttempts s + unresolved s)%Z /\
  (shotsMade s' - scoreEvents s' = shotsMade s - scoreEvents s)%Z /\
  shotAttempts s' = shotAttempts s /\
  (isShooting s' = true -> isShooting s = true) /\
  (isShooting s = false -> scoring s' = scoring s).
Proof.
  cbv zeta. unfold updateBallPhysics. cbv zeta. cbn [isShooting set_lastBallPosition].
  destruct (isShooting s) eqn:Hs.
  - unfold resolveCollisions, checkHoopCollision.
    set (s0 := set_lastBallPosition (ballPosition s) s).
    destruct (beforeHoops_scoring deltaTime s0) as [E _]. cbv zeta in E.
    set (t := checkBackboardCollision _) in *.
    apply scoring_inv in E as (E1 & _ & E3 & E4 & E5 & _).
    destruct (hoopCollision_unresolved rightHoop 0 t) as (U1 & M1 & _).
    cbv zeta in U1, M1. set (t1 := hoopCollision rightHoop 0 t) in *.
    destruct (hoopCollision_unresolved leftHoop 1 t1) as (U2 & M2 & _).
    cbv zeta in U2, M2. set (t2 := hoopCollision leftHoop 1 t1) in *.
    assert (Eu : unresolved t = unresolved s).
    { unfold unresolved. rewrite E5. reflexivity. }
    assert (A1 : shotAttempts t1 = shotAttempts t).
    { unfold t1. rewrite hoopCollision_eq.
      destruct (madeBasketCondition rightHoop t).
      - unfold scoreBasket. destruct (negb _); reflexivity.
      - destruct (rimBandCondition rightHoop t); reflexivity. }
    assert (A2 : shotAttempts t2 = shotAttempts t1).
    { unfold t2. rewrite hoopCollision_eq.
      destruct (madeBasketCondition leftHoop t1).
      - unfold scoreBasket. destruct (negb _); reflexivity.
      - destruct (rimBandCondition leftHoop t1); reflexivity. }
    change (scoreEvents s0) with (scoreEvents s) in *.
    change (shotsMade s0) with (shotsMade s) in *.
    change (shotAttempts s0) with (shotAttempts s) in *.
    repeat split; try lia; try congruence; try discriminate.
  - repeat split; try lia; try reflexivity. cbn. congruence.
Qed.

Lemma animate_potential (deltaTime : R) (s : GameState) :
  let s' := animate deltaTime s in
  (potential s' <= potential s)%Z /\
  (shotsMade s' - scoreEvents s' = shotsMade s - scoreEvents s)%Z /\
  shotAttempts s' = shotAttempts s.
Proof.
  cbv zeta. unfold animate.
  pose proof (handleInput_scoring deltaTime s) as E1.
  pose proof (handleInput_isShooting deltaTime s) as S1.
  set (s1 := handleInput deltaTime s) in *.
  apply scoring_inv in E1 as (E1 & _ & M1 & A1 & R1 & _).
  destruct (updateBallPhysics_unresolved deltaTime s1) as (U2 & M2 & A2 & S2 & G2).
  cbv zeta in U2, M2, A2, S2, G2. set (s2 := updateBallPhysics deltaTime s1) in *.
  destruct (shotFeedbackTimeout_fields deltaTime s2) as (E3 & _ & M3 & A3 & _ & S3 & R3).
  cbv zeta in E3, M3, A3, S3, R3. set (s3 := shotFeedbackTimeout deltaTime s2) in *.
  assert (U3 : unresolved s3 = unresolved s2).
  { unfold unresolved. destruct R3 as [R3 | [R3 R3']].
    - rewrite R3. reflexivity.
    - rewrite R3, R3'. reflexivity. }
  assert (U1 : unresolved s1 = unresolved s).
  { unfold unresolved. rewrite R1. reflexivity. }
  split; [| split; [lia | congruence]].
  destruct (potential_le_unresolved s3) as (P3 & _ & P3').
  destruct (potential_le_unresolved s) as (_ & P0 & P0').
  destruct (isShooting s) eqn:Hs.
  - specialize (P0 eq_refl). lia.
  - specialize (P0' eq_refl).
    assert (Hs3 : isShooting s3 = false).
    { rewrite S3. destruct (isShooting s2) eqn:H2; [| reflexivity].
      specialize (S2 eq_refl). congruence. }
    specialize (P3' Hs3).
    apply G2 in S1. apply scoring_inv in S1 as (F1 & _ & _ & F4 & _). lia.
Qed.

Lemma setKey_fields (code : string) (b : bool) (s : GameState) :
  scoring (setKey code b s) = scoring s /\
  isShooting (setKey code b s) = isShooting s /\
  ballPosition (setKey code b s) = ballPosition s.
Proof. repeat split; reflexivity. Qed.

Lemma shootBall_grounded_scoring (s : GameState) :
  isShooting s = false ->
  scoring (shootBall s) =
    (scoreEvents s, score s, shotsMade s, (shotAttempts s + 1)%Z, pending,
     isThreePointShot (ballPosition s) (targetHoopPos (ballPosition s)),
     Rmax 2.0 (TIME_TO_RIM + 0.5)) /\
  isShooting (shootBall s) = true.
Proof.
  intros Hg. unfold shootBall. rewrite Hg. split; reflexivity.
Qed.

Lemma resetBall_fields (s : GameState) :
  scoring (resetBall s) =
    (scoreEvents s, score s, shotsMade s, shotAttempts s, pending,
     isThreePointer s, shotFeedbackTimer s) /\
  isShooting (resetBall s) = false.
Proof. split; reflexivity. Qed.

Lemma step_potential (s : GameState) (i : Input) :
  (potential (step s i) <= potential s)%Z /\
  (shotsMade (step s i) - scoreEvents (step s i) = shotsMade s - scoreEvents s)%Z /\
  (shotAttempts s <= shotAttempts (step s i))%Z.
Proof.
  destruct i as [code | code | deltaTime]; cbn [step].
  - unfold onKeyDown. cbv zeta.
    destruct (setKey_fields code true s) as (E0 & S0 & _).
    set (s0 := setKey code true s) in *.
    assert (P0 : potential s0 = potential s) by reflexivity.
    change (scoreEvents s) with (scoreEvents s0).
    change (shotsMade s) with (shotsMade s0).
    change (shotAttempts s) with (shotAttempts s0).
    rewrite <- P0. clearbody s0. clear P0 E0 S0 s.
    destruct (String.eqb code "KeyR").
    + destruct (resetBall_fields s0) as [E S].
      apply scoring_tuple_inv in E as (E1 & E2 & E3 & E4 & E5 & E6 & E7).
      destruct (potential_le_unresolved (resetBall s0)) as (_ & _ & P).
      specialize (P S). rewrite P, E1, E3, E4.
      unfold potential. destruct (canScore s0); repeat split; lia.
    + destruct (String.eqb code "Space"); [| repeat split; lia].
      destruct (isShooting s0) eqn:Hs.
      * assert (E : shootBall s0 = s0) by (unfold shootBall; rewrite Hs; reflexivity).
        rewrite E. repeat split; lia.
      * destruct (shootBall_grounded_scoring s0 Hs) as [E S].
        apply scoring_tuple_inv in E as (E1 & E2 & E3 & E4 & E5 & E6 & E7).
        destruct (potential_le_unresolved (shootBall s0)) as (_ & P & _).
        specialize (P S). rewrite P, E1, E3, E4.
        destruct (potential_le_unresolved s0) as (_ & _ & P0).
        rewrite (P0 Hs). unfold unresolved. rewrite E5. cbn. repeat split; lia.
  - repeat split; try reflexivity; lia.
  - destruct (animate_potential deltaTime s) as (P & M & A). cbv zeta in P, M, A.
    repeat split; lia.
Qed.

Lemma run_potential (inputs : list Input) (s : GameState) :
  (potential (run s inputs) <= potential s)%Z /\
  (shotsMade (run s inputs) - scoreEvents (run s inputs) =
   shotsMade s - scoreEvents s)%Z /\
  (shotAttempts s <= shotAttempts (run s inputs))%Z.
Proof.
  unfold run. revert s. induction inputs as [| i inputs IH]; intros s; cbn.
  - repeat split; lia.
  - destruct (IH (step s i)) as (P & M & A).
    destruct (step_potential s i) as (P0 & M0 & A0). repeat split; lia.
Qed.

(** While no new attempt starts, an attempt fires at most one score event
    and adds at most one to [shotsMade]. *)
Lemma one_score_per_attempt (s : GameState) (inputs : list Input) :
  isShooting s = false ->
  shotAttempts (run (shootBall s) inputs) = shotAttempts (shootBall s) ->
  (scoreEvents (run (shootBall s) inputs) <= scoreEvents (shootBall s) + 1)%Z /\
  (shotsMade (run (shootBall s) inputs) <= shotsMade (shootBall s) + 1)%Z.
Proof.
  intros Hg Ha.
  destruct (run_potential inputs (shootBall s)) as (P & M & _).
  destruct (shootBall_grounded_scoring s Hg) as [E S].
  apply scoring_tuple_inv in E as (E1 & E2 & E3 & E4 & E5 & E6 & E7).
  destruct (potential_le_unresolved (shootBall s)) as (_ & P0 & _).
  specialize (P0 S). unfold unresolved in P0. rewrite E5 in P0. cbn in P0.
  assert (Hl : (scoreEvents (run (shootBall s) inputs) -
                shotAttempts (run (shootBall s) inputs) <=
                potential (run (shootBall s) inputs))%Z).
  { unfold potential. destruct (canScore _); lia. }
  split; lia.
Qed.

(** ** Frames of a ball in free flight *)

Lemma animate_in_flight (deltaTime : R) (s : GameState) :
  isShooting s = true ->
  animate deltaTime s =
  shotFeedbackTimeout deltaTime
    (hoopCollision leftHoop 1 (hoopCollision rightHoop 0 (beforeHoops deltaTime s))).
Proof.
  intros Hs. unfold animate.
  assert (Hh : handleInput deltaTime s = s) by (unfold handleInput; rewrite Hs; reflexivity).
  rewrite Hh. unfold updateBallPhysics. cbv zeta. cbn [isShooting set_lastBallPosition].
  rewrite Hs. reflexivity.
Qed.

Lemma integrate_ball (deltaTime : R) (s : GameState) :
  let v' := Vector3.set_y (ballVelocity s) ((ballVelocity s).y + GRAVITY * deltaTime) in
  ballVelocity (integrate deltaTime s) = v' /\
  ballPosition (integrate deltaTime s) =
    Vector3.add (ballPosition s) (Vector3.multiplyScalar v' deltaTime).
Proof.
  cbv zeta. unfold integrate. cbv zeta. destruct (Num.gtb _ _); split; reflexivity.
Qed.

Lemma floorCollision_above (s : GameState) :
  (ballPosition s).y > COURT_FLOOR_Y + BALL_RADIUS + LINES_Y_OFFSET ->
  floorCollision s = s.
Proof.
  intros H. unfold floorCollision. cbv zeta.
  destruct (Num.leb _ _) eqn:Hc; [| reflexivity].
  apply NumFacts.leb_spec in Hc. exfalso. lra.
Qed.

Lemma wallCollisionX_inside (s : GameState) :
  Rabs (ballPosition s).x < COURT_LENGTH / 2 - BALL_RADIUS ->
  wallCollisionX s = s.
Proof.
  intros H. unfold wallCollisionX. cbv zeta.
  num_cases; try reflexivity; exfalso; rabs_lra.
Qed.

Lemma wallCollisionZ_inside (s : GameState) :
  Rabs (ballPosition s).z < COURT_WIDTH / 2 - BALL_RADIUS ->
  wallCollisionZ s = s.
Proof.
  intros H. unfold wallCollisionZ. cbv zeta.
  num_cases; try reflexivity; exfalso; rabs_lra.
Qed.

Lemma backboardCollision_far (hoop : Hoop) (s : GameState) :
  Rabs ((ballPosition s).x - (backboardCenter hoop).x) > 0.08 / 2 + BALL_RADIUS ->
  backboardCollision hoop s = s.
Proof.
  intros H. unfold backboardCollision. cbv zeta.
  change (localToWorld hoop backboard_position) with (backboardCenter hoop).
  destruct (_ && _); [| reflexivity].
  destruct (Num.leb _ _) eqn:Hc; [| reflexivity].
  apply NumFacts.leb_spec in Hc. vsimpl. exfalso. lra.
Qed.

(** No floor, wall or backboard in reach after the position update: the
    hoop tests see the integrated ball. *)
Lemma beforeHoops_free_flight (deltaTime : R) (s : GameState) :
  let v' := Vector3.set_y (ballVelocity s) ((ballVelocity s).y + GRAVITY * deltaTime) in
  let p' := Vector3.add (ballPosition s) (Vector3.multiplyScalar v' deltaTime) in
  p'.y > COURT_FLOOR_Y + BALL_RADIUS + LINES_Y_OFFSET ->
  Rabs p'.x < COURT_LENGTH / 2 - BALL_RADIUS ->
  Rabs p'.z < COURT_WIDTH / 2 - BALL_RADIUS ->
  (forall hoop, Rabs (p'.x - (backboardCenter hoop).x) > 0.08 / 2 + BALL_RADIUS) ->
  ballPosition (beforeHoops deltaTime s) = p' /\
  ballVelocity (beforeHoops deltaTime s) = v' /\
  isShooting (beforeHoops deltaTime s) = isShooting s /\
  scoring (beforeHoops deltaTime s) = scoring s.
Proof.
  intros v' p' Hy Hx Hz Hb. unfold beforeHoops.
  set (s0 := set_lastBallPosition (ballPosition s) s).
  destruct (integrate_ball deltaTime s0) as [Ev Ep]. cbv zeta in Ev, Ep.
  change (ballVelocity s0) with (ballVelocity s) in *.
  change (ballPosition s0) with (ballPosition s) in *.
  fold v' in Ev, Ep. fold p' in Ep.
  destruct (integrate_scoring deltaTime s0) as [Es Ei].
  set (s1 := integrate deltaTime s0) in *.
  rewrite (floorCollision_above s1) by (rewrite Ep; exact Hy).
  rewrite (wallCollisionX_inside s1) by (rewrite Ep; exact Hx).
  rewrite (wallCollisionZ_inside s1) by (rewrite Ep; exact Hz).
  destruct (ballSpin_ball deltaTime s1) as [Sp Sv].
  destruct (ballSpin_scoring deltaTime s1) as [Ss Si].
  set (s2 := ballSpin deltaTime s1) in *.
  unfold checkBackboardCollision.
  rewrite (backboardCollision_far rightHoop s2) by (rewrite Sp, Ep; apply Hb).
  rewrite (backboardCollision_far leftHoop s2) by (rewrite Sp, Ep; apply Hb).
  split; [rewrite Sp; exact Ep |]. split; [rewrite Sv; exact Ev |].
  split; [rewrite Si, Ei; reflexivity | rewrite Ss, Es; reflexivity].
Qed.

(** A frame of a ball falling along the vertical through the right rim
    centre, above the floor. *)
Lemma frame_above_right_rim (deltaTime y vy : R) (s : GameState) :
  isShooting s = true ->
  ballPosition s = Vector3.mk 12.885 y 0 ->
  ballVelocity s = Vector3.mk 0 vy 0 ->
  let vy' := vy + GRAVITY * deltaTime in
  let y' := y + vy' * deltaTime in
  y' > COURT_FLOOR_Y + BALL_RADIUS + LINES_Y_OFFSET ->
  exists t,
    animate deltaTime s = shotFeedbackTimeout deltaTime t /\
    ballPosition t = Vector3.mk 12.885 y' 0 /\
    ballVelocity t = Vector3.mk 0 vy' 0 /\
    isShooting t = true /\
    (Rabs (y' - RIM_Y) < BALL_RADIUS -> vy' < 0 -> lastShotResult s <> made ->
     scoring t = ((scoreEvents s + 1)%Z, (score s + points s)%Z, (shotsMade s + 1)%Z,
                  shotAttempts s, made, isThreePointer s, shotFeedbackTimer s)) /\
    (Rabs (y' - RIM_Y) >= BALL_RADIUS -> scoring t = scoring s).
Proof.
  intros Hs Hp Hv vy' y' Hy.
  exists (hoopCollision leftHoop 1 (hoopCollision rightHoop 0 (beforeHoops deltaTime s))).
  split; [apply animate_in_flight; exact Hs |].
  destruct (beforeHoops_free_flight deltaTime s) as (Bp & Bv & Bi & Bs).
  { rewrite Hp, Hv. vsimpl. exact Hy. }
  { rewrite Hp, Hv. vsimpl. unfold_consts. rabs_lra. }
  { rewrite Hp, Hv. vsimpl. unfold_consts. rabs_lra. }
  { intro hoop. rewrite Hp, Hv, backboardCenter_x. vsimpl. unfold_consts.
    destruct hoop; rabs_lra. }
  set (b := beforeHoops deltaTime s) in *.
  assert (Bp' : ballPosition b = Vector3.mk 12.885 y' 0).
  { rewrite Bp, Hp, Hv. vsimpl. unfold y', vy'. f_equal; lra. }
  assert (Bv' : ballVelocity b = Vector3.mk 0 vy' 0).
  { rewrite Bv, Hv. reflexivity. }
  clear Bp Bv.
  assert (Hd : rimHorizontalDistance rightHoop b = 0).
  { apply rimHorizontalDistance_center; rewrite Bp', rimCenter_right; reflexivity. }
  destruct (hoopCollision_center rightHoop 0 b Hd) as (_ & Cp & Cv).
  set (c := hoopCollision rightHoop 0 b) in *.
  assert (Hfar : hoopCollision leftHoop 1 c = c).
  { apply hoopCollision_outside_band.
    apply (other_rim_far rightHoop leftHoop); [discriminate | |];
      rewrite Cp, Bp', rimCenter_right; reflexivity. }
  rewrite Hfar.
  assert (Hvd : rimVerticalDistance rightHoop b = Rabs (y' - RIM_Y)).
  { unfold rimVerticalDistance, ballToRim. rewrite Bp', rimCenter_right. reflexivity. }
  pose proof (scoring_inv _ _ Bs) as (E1 & E2 & E3 & E4 & E5 & E6 & E7).
  split; [rewrite Cp; exact Bp' |]. split; [rewrite Cv; exact Bv' |]. split; [| split].
  - unfold c. rewrite hoopCollision_eq.
    destruct (madeBasketCondition rightHoop b).
    + unfold scoreBasket. destruct (negb _); cbn; congruence.
    + destruct (rimBandCondition rightHoop b); cbn; congruence.
  - intros Hin Hneg Hnm.
    destruct (hoopCollision_scores rightHoop 0 b) as [E _].
    { unfold scoresAt. rewrite Hd, Hvd, Bv', E5. cbn. unfold_consts. repeat split; try lra.
      exact Hnm. }
    fold c in E. rewrite E. unfold points. rewrite E1, E2, E3, E4, E6, E7. reflexivity.
  - intros Hout.
    destruct (hoopCollision_no_score rightHoop 0 b) as [E _].
    { unfold scoresAt. rewrite Hvd. lra. }
    fold c in E. rewrite E. exact Bs.
Qed.

Lemma shotFeedbackTimeout_ballVelocity (deltaTime : R) (s : GameState) :
  ballVelocity (shotFeedbackTimeout deltaTime s) = ballVelocity s.
Proof.
  unfold shotFeedbackTimeout. cbv zeta.
  destruct (Num.gtb _ _); [| reflexivity]. destruct (_ && _); reflexivity.
Qed.

(** ** Late makes *)

Lemma missed_neq_made : missed <> made.
Proof. discriminate. Qed.

Lemma pending_neq_made : pending <> made.
Proof. discriminate. Qed.

Lemma late_make_scores (hoop : Hoop) (hoopIndex : nat) (t : GameState) :
  lastShotResult t = missed ->
  madeBasketCondition hoop t = true ->
  scoring (hoopCollision hoop hoopIndex t) =
    ((scoreEvents t + 1)%Z, (score t + points t)%Z, (shotsMade t + 1)%Z,
     shotAttempts t, made, isThreePointer t, shotFeedbackTimer t).
Proof.
  intros Hr Hm. apply hoopCollision_scores. apply scoresAt_dec.
  rewrite Hm, Hr. reflexivity.
Qed.

(** C1, amended: when the feedback timer runs out on an empty result the
    attempt is resolved as Missed with score and shotsMade untouched; a
    made-basket test that holds afterwards, the result being Missed, still
    fires: it adds the points, increments shotsMade and turns the result
    into Made. *)
Theorem late_make_counts (deltaTime : R) (s : GameState)
    (hoop : Hoop) (hoopIndex : nat) (t : GameState) :
  (shotFeedbackTimer s > 0 ->
   shotFeedbackTimer s - deltaTime <= 0 ->
   lastShotResult s = pending ->
   lastShotResult (shotFeedbackTimeout deltaTime s) = missed /\
   score (shotFeedbackTimeout deltaTime s) = score s /\
   shotsMade (shotFeedbackTimeout deltaTime s) = shotsMade s) /\
  (lastShotResult t = missed ->
   madeBasketCondition hoop t = true ->
   score (hoopCollision hoop hoopIndex t) = (score t + points t)%Z /\
   shotsMade (hoopCollision hoop hoopIndex t) = (shotsMade t + 1)%Z /\
   scoreEvents (hoopCollision hoop hoopIndex t) = (scoreEvents t + 1)%Z /\
   lastShotResult (hoopCollision hoop hoopIndex t) = made).
Proof.
  split.
  - intros Ht Hd Hp.
    destruct (shotFeedbackTimeout_expires deltaTime s Ht Hd Hp) as (Hr & _).
    destruct (shotFeedbackTimeout_fields deltaTime s) as (_ & Hs & Hm & _).
    repeat split; assumption.
  - intros Hr Hm.
    pose proof (late_make_scores hoop hoopIndex t Hr Hm) as E.
    apply scoring_tuple_inv in E as (E1 & E2 & E3 & _ & E5 & _).
    repeat split; assumption.
Qed.

Lemma atRimCenter_made (r : string) :
  madeBasketCondition rightHoop (set_lastShotResult r atRimCenter) = true.
Proof.
  apply madeBasketCondition_spec.
  assert (Hd : rimHorizontalDistance rightHoop (set_lastShotResult r atRimCenter) = 0).
  { apply rimHorizontalDistance_center; rewrite rimCenter_right; reflexivity. }
  rewrite Hd. unfold rimVerticalDistance, ballToRim. rewrite rimCenter_right.
  cbn. replace (3.05 - 3.05) with 0 by lra. rewrite Rabs_R0. unfold_consts. lra.
Qed.

Lemma late_make_counts_witness :
  lastShotResult (shotFeedbackTimeout 0.02 lateMake) = missed /\
  shotsMade (hoopCollision rightHoop 0 missedAtRim) = (shotsMade missedAtRim + 1)%Z.
Proof.
  destruct (late_make_counts 0.02 lateMake rightHoop 0 missedAtRim) as [H1 H2].
  split.
  - apply H1; [cbn; lra | cbn; lra | reflexivity].
  - apply H2; [reflexivity | apply atRimCenter_made].
Defined.

(** Two frames of 0.02 s: in the first the timer runs out on the empty
    result, which becomes Missed; in the second the ball drops through the
    rim and the basket counts. *)
Lemma late_make_counterexample :
  lastShotResult lateMake = pending /\
  shotFeedbackTimer lateMake > 0 /\
  lastShotResult (run lateMake [Frame 0.02]) = missed /\
  shotFeedbackTimer (run lateMake [Frame 0.02]) <= 0 /\
  shotAttempts (run lateMake [Frame 0.02; Frame 0.02]) = shotAttempts lateMake /\
  shotsMade (run lateMake [Frame 0.02; Frame 0.02]) = (shotsMade lateMake + 1)%Z /\
  score (run lateMake [Frame 0.02; Frame 0.02]) = (score lateMake + 2)%Z.
Proof.
  split; [reflexivity |]. split; [cbn; lra |].
  cbn [run fold_left step].
  destruct (frame_above_right_rim 0.02 3.3 (-5) lateMake eq_refl eq_refl eq_refl)
    as (t & Ea & Tp & Tv & Ti & _ & Ts).
  { unfold_consts. lra. }
  specialize (Ts ltac:(unfold_consts; rabs_lra)).
  apply scoring_inv in Ts as (T1 & T2 & T3 & T4 & T5 & T6 & T7).
  destruct (shotFeedbackTimeout_expires 0.02 t) as (Hr & _ & Htm).
  { rewrite T7. cbn. lra. }
  { rewrite T7. cbn. lra. }
  { rewrite T5. reflexivity. }
  destruct (shotFeedbackTimeout_fields 0.02 t) as (F1 & F2 & F3 & F4 & F5 & F6 & _).
  cbv zeta in F1, F2, F3, F4, F5, F6.
  pose proof (shotFeedbackTimeout_ballPosition 0.02 t) as Fp.
  pose proof (shotFeedbackTimeout_ballVelocity 0.02 t) as Fv.
  rewrite <- Ea in *. set (s1 := animate 0.02 lateMake) in *. clearbody s1.
  split; [exact Hr |]. split; [rewrite Htm, T7; cbn; lra |].
  destruct (frame_above_right_rim 0.02 (3.3 + (-5 + GRAVITY * 0.02) * 0.02)
              (-5 + GRAVITY * 0.02) s1)
    as (u & Eb & _ & _ & _ & Us & _).
  { rewrite F6. exact Ti. }
  { rewrite Fp. exact Tp. }
  { rewrite Fv. exact Tv. }
  { unfold_consts. lra. }
  specialize (Us ltac:(unfold_consts; rabs_lra) ltac:(unfold_consts; lra)
                 ltac:(rewrite Hr; exact missed_neq_made)).
  apply scoring_tuple_inv in Us as (U1 & U2 & U3 & U4 & _).
  destruct (shotFeedbackTimeout_fields 0.02 u) as (_ & G2 & G3 & G4 & _).
  cbv zeta in G2, G3, G4. rewrite Eb, G2, G3, G4, U2, U3, U4, F2, F3, F4, T2, T3, T4.
  unfold points. rewrite F5, T6. repeat split; reflexivity.
Qed.

(** ** Scoring at a hoop *)

(** Where the score events of a frame come from: the two hoop tests, run on
    the ball as the collision pass left it. *)
Lemma animate_scoreEvents (deltaTime : R) (s : GameState) :
  (isShooting s = true ->
   scoring (beforeHoops deltaTime s) = scoring s /\
   scoreEvents (animate deltaTime s) =
     scoreEvents (hoopCollision leftHoop 1
                    (hoopCollision rightHoop 0 (beforeHoops deltaTime s)))) /\
  (isShooting s = false -> scoreEvents (animate deltaTime s) = scoreEvents s).
Proof.
  split; intros Hs.
  - split.
    + destruct (beforeHoops_scoring deltaTime (set_lastBallPosition (ballPosition s) s))
        as [E _]. exact E.
    + rewrite (animate_in_flight deltaTime s Hs).
      apply shotFeedbackTimeout_fields.
  - unfold animate.
    destruct (shotFeedbackTimeout_fields deltaTime
                (updateBallPhysics deltaTime (handleInput deltaTime s))) as (E & _).
    cbv zeta in E. rewrite E.
    destruct (updateBallPhysics_unresolved deltaTime (handleInput deltaTime s))
      as (_ & _ & _ & _ & G).
    cbv zeta in G. rewrite handleInput_isShooting in G.
    apply G, scoring_inv in Hs as (E1 & _). rewrite E1.
    apply (scoring_inv _ _ (handleInput_scoring deltaTime s)).
Qed.

(** C2: the hoop test of a frame fires the score event for a hoop exactly
    when the horizontal distance to the rim centre is below
    [RIM_RADIUS - BALL_RADIUS * 0.5], the vertical distance below
    [BALL_RADIUS], the vertical velocity negative and the attempt not yet
    Made; it then adds the points and one made shot.  A ball that is not
    descending never scores.  The score events of an in-flight frame are
    those of its two hoop tests, a grounded frame fires none, and from a
    release until the next attempt starts at most one score event fires. *)
Theorem basket_scored_iff (hoop : Hoop) (hoopIndex : nat) (s : GameState) :
  let s' := hoopCollision hoop hoopIndex s in
  let scored :=
    rimHorizontalDistance hoop s < RIM_RADIUS - BALL_RADIUS * 0.5 /\
    rimVerticalDistance hoop s < BALL_RADIUS /\
    (ballVelocity s).y < 0 /\
    lastShotResult s <> made in
  (scoreEvents s' = (scoreEvents s + 1)%Z <-> scored) /\
  (scored ->
   shotsMade s' = (shotsMade s + 1)%Z /\ score s' = (score s + points s)%Z /\
   lastShotResult s' = made) /\
  (~ scored -> scoring s' = scoring s) /\
  ((ballVelocity s).y >= 0 -> scoring s' = scoring s) /\
  (forall deltaTime g,
     (isShooting g = true ->
      scoring (beforeHoops deltaTime g) = scoring g /\
      scoreEvents (animate deltaTime g) =
        scoreEvents (hoopCollision leftHoop 1
                       (hoopCollision rightHoop 0 (beforeHoops deltaTime g)))) /\
     (isShooting g = false -> scoreEvents (animate deltaTime g) = scoreEvents g)) /\
  (forall g inputs,
     isShooting g = false ->
     shotAttempts (run (shootBall g) inputs) = shotAttempts (shootBall g) ->
     (scoreEvents (run (shootBall g) inputs) <= scoreEvents (shootBall g) + 1)%Z /\
     (shotsMade (run (shootBall g) inputs) <= shotsMade (shootBall g) + 1)%Z).
Proof.
  intros s' scored. change scored with (scoresAt hoop s). subst s'.
  assert (Hno : ~ scoresAt hoop s ->
                scoring (hoopCollision hoop hoopIndex s) = scoring s).
  { intros H. apply hoopCollision_no_score. exact H. }
  split; [| split; [| split; [exact Hno | split; [| split]]]].
  - split.
    + intros He.
      destruct (madeBasketCondition hoop s && negb (String.eqb (lastShotResult s) made))
        eqn:Hb.
      * apply scoresAt_dec. exact Hb.
      * exfalso.
        assert (Hn : ~ scoresAt hoop s) by (rewrite scoresAt_dec, Hb; discriminate).
        apply Hno, scoring_inv in Hn as (E1 & _). lia.
    + intros H. destruct (hoopCollision_scores hoop hoopIndex s H) as [E _].
      apply scoring_tuple_inv in E as (E1 & _). exact E1.
  - intros H. destruct (hoopCollision_scores hoop hoopIndex s H) as [E _].
    apply scoring_tuple_inv in E as (_ & E2 & E3 & _ & E5 & _).
    repeat split; assumption.
  - intros Hv. apply Hno. unfold scoresAt. lra.
  - intros deltaTime g. apply animate_scoreEvents.
  - intros g inputs Hg Ha. apply one_score_per_attempt; assumption.
Qed.

Lemma basket_scored_iff_witness :
  scoreEvents (hoopCollision rightHoop 0 atRimCenter) = (scoreEvents atRimCenter + 1)%Z.
Proof.
  apply (basket_scored_iff rightHoop 0 atRimCenter).
  pose proof (atRimCenter_made pending) as Hm.
  apply madeBasketCondition_spec in Hm as (H1 & H2 & H3).
  repeat split; try assumption. exact pending_neq_made.
Defined.

Lemma inputs_inert_while_shooting_witness :
  handleInput 0.016 scenarioC = scenarioC /\ shootBall scenarioC = scenarioC.
Proof.
  destruct (inputs_inert_while_shooting scenarioC 0.016 eq_refl) as (H1 & H2 & _).
  split; assumption.
Defined.

(** ** Reset and the feedback timer *)

Lemma handleInput_feedback (deltaTime : R) (s : GameState) :
  feedback (handleInput deltaTime s) = feedback s.
Proof. handleInput_cases s; reflexivity. Qed.

Lemma updateBallPhysics_grounded (deltaTime : R) (s : GameState) :
  isShooting s = false ->
  updateBallPhysics deltaTime s = set_lastBallPosition (ballPosition s) s.
Proof.
  intros H. unfold updateBallPhysics. cbv zeta. cbn [isShooting set_lastBallPosition].
  rewrite H. reflexivity.
Qed.

Lemma feedback_inv (a : GameState) (m : Z) (r : string) (tm : R) (sh : bool) (sc md att : Z) :
  feedback a = (m, r, tm, sh, sc, md, att) ->
  missFeedbacks a = m /\ lastShotResult a = r /\ shotFeedbackTimer a = tm /\
  isShooting a = sh /\ score a = sc /\ shotsMade a = md /\ shotAttempts a = att.
Proof. unfold feedback. intros H. inversion H. repeat split; reflexivity. Qed.

(** What one frame does to a grounded ball's feedback state. *)
Lemma animate_grounded_feedback (deltaTime : R) (s : GameState) :
  isShooting s = false ->
  let s' := animate deltaTime s in
  isShooting s' = false /\ score s' = score s /\ shotsMade s' = shotsMade s /\
  shotAttempts s' = shotAttempts s /\
  (shotFeedbackTimer s <= 0 ->
   feedback s' = feedback s) /\
  (shotFeedbackTimer s > 0 ->
   shotFeedbackTimer s' = shotFeedbackTimer s - deltaTime /\
   (shotFeedbackTimer s - deltaTime <= 0 -> lastShotResult s = pending ->
    lastShotResult s' = missed /\ missFeedbacks s' = (missFeedbacks s + 1)%Z) /\
   (shotFeedbackTimer s - deltaTime > 0 ->
    lastShotResult s' = lastShotResult s /\ missFeedbacks s' = missFeedbacks s)).
Proof.
  intros Hg. cbv zeta. unfold animate.
  pose proof (handleInput_feedback deltaTime s) as E1.
  set (s1 := handleInput deltaTime s) in *.
  apply feedback_inv in E1 as (M1 & R1 & T1 & S1 & C1 & D1 & A1).
  rewrite (updateBallPhysics_grounded deltaTime s1) by congruence.
  set (s2 := set_lastBallPosition (ballPosition s1) s1).
  assert (E2 : feedback s2 = feedback s).
  { unfold feedback. change (missFeedbacks s2) with (missFeedbacks s1).
    cbn. congruence. }
  apply feedback_inv in E2 as (M2 & R2 & T2 & S2 & C2 & D2 & A2).
  clearbody s2. clear s1 M1 R1 T1 S1 C1 D1 A1.
  unfold shotFeedbackTimeout. cbv zeta. rewrite T2.
  destruct (Num.gtb (shotFeedbackTimer s) 0) eqn:Ht;
    [apply NumFacts.gtb_spec in Ht | apply NumFacts.gtb_nspec in Ht].
  - cbn. rewrite ?T2, ?R2.
    destruct (Num.leb (shotFeedbackTimer s - deltaTime) 0) eqn:Hd;
      [apply NumFacts.leb_spec in Hd | apply NumFacts.leb_nspec in Hd]; cbn.
    + destruct (String.eqb (lastShotResult s) pending) eqn:Hp; cbn -[Z.add].
      * repeat (split || intro); try congruence; try lra; try exact M2.
        unfold missFeedbacks in *. lia.
      * apply String.eqb_neq in Hp.
        repeat (split || intro); try congruence; try lra; try exact M2.
    + repeat (split || intro); try congruence; try lra; try exact M2.
  - repeat (split || intro); try congruence; try lra; try exact M2.
    unfold feedback. congruence.
Qed.

Lemma run_frames_cons (s : GameState) (deltaTime : R) (frames : list R) :
  run s (map Frame (deltaTime :: frames)) = run (animate deltaTime s) (map Frame frames).
Proof. reflexivity. Qed.

(** Once the timer has run out, frames leave a grounded ball's result alone. *)
Lemma grounded_settled (frames : list R) (s : GameState) :
  isShooting s = false ->
  shotFeedbackTimer s <= 0 ->
  feedback (run s (map Frame frames)) = feedback s.
Proof.
  revert s. induction frames as [| deltaTime frames IH]; intros s Hg Ht.
  - reflexivity.
  - rewrite run_frames_cons.
    destruct (animate_grounded_feedback deltaTime s Hg) as (S & _ & _ & _ & F & _).
    cbv zeta in S, F. specialize (F Ht).
    rewrite IH; [exact F | exact S |].
    apply feedback_inv in F as (_ & _ & T & _). rewrite T. exact Ht.
Qed.

(** A grounded ball with an empty result and a running timer: once the
    frames add up to the timer, the result is Missed and the missed-shot
    feedback has been shown once. *)
Lemma grounded_timer_expires (frames : list R) (s : GameState) :
  isShooting s = false ->
  lastShotResult s = pending ->
  shotFeedbackTimer s > 0 ->
  Forall (fun deltaTime => 0 <= deltaTime) frames ->
  shotFeedbackTimer s <= elapsed frames ->
  let final := run s (map Frame frames) in
  lastShotResult final = missed /\
  missFeedbacks final = (missFeedbacks s + 1)%Z /\
  score final = score s /\ shotsMade final = shotsMade s /\
  shotAttempts final = shotAttempts s.
Proof.
  revert s. induction frames as [| deltaTime frames IH]; intros s Hg Hp Ht Hf He.
  - cbn in He. exfalso. lra.
  - cbv zeta. rewrite run_frames_cons. inversion Hf as [| d fs Hd Hfs]; subst.
    destruct (animate_grounded_feedback deltaTime s Hg) as (S & C & D & A & _ & F).
    cbv zeta in S, C, D, A, F. destruct (F Ht) as (T & Fexp & Fnot). clear F.
    destruct (Rle_dec (shotFeedbackTimer s - deltaTime) 0) as [Hx | Hx].
    + destruct (Fexp Hx Hp) as (R1 & M1).
      pose proof (grounded_settled frames (animate deltaTime s) S) as G.
      rewrite T in G. specialize (G Hx).
      apply feedback_inv in G as (G1 & G2 & _ & _ & G5 & G6 & G7).
      repeat split; congruence.
    + assert (Hx' : shotFeedbackTimer s - deltaTime > 0) by lra.
      destruct (Fnot Hx') as (R1 & M1).
      destruct (IH (animate deltaTime s)) as (I1 & I2 & I3 & I4 & I5);
        try assumption.
      * congruence.
      * lra.
      * rewrite T. cbn in He. unfold elapsed. lra.
      * repeat split; congruence.
Qed.

(** *** A pending attempt in flight has a running timer *)

Lemma hoopCollision_pending (hoop : Hoop) (hoopIndex : nat) (s : GameState) :
  lastShotResult (hoopCollision hoop hoopIndex s) = pending ->
  scoring (hoopCollision hoop hoopIndex s) = scoring s.
Proof.
  intros Hp.
  destruct (madeBasketCondition hoop s && negb (String.eqb (lastShotResult s) made))
    eqn:Hb.
  - apply scoresAt_dec in Hb.
    destruct (hoopCollision_scores hoop hoopIndex s Hb) as [E _].
    apply scoring_tuple_inv in E as (_ & _ & _ & _ & E5 & _).
    rewrite E5 in Hp. discriminate.
  - apply hoopCollision_no_score. rewrite scoresAt_dec, Hb. discriminate.
Qed.

Lemma shotFeedbackTimeout_pending (deltaTime : R) (s : GameState) :
  lastShotResult (shotFeedbackTimeout deltaTime s) = pending ->
  shotFeedbackTimer s > 0 ->
  lastShotResult s = pending /\ shotFeedbackTimer (shotFeedbackTimeout deltaTime s) > 0.
Proof.
  unfold shotFeedbackTimeout. cbv zeta. intros Hp Ht.
  apply NumFacts.gtb_spec in Ht. rewrite Ht in *. cbn in *.
  destruct (Num.leb (shotFeedbackTimer s - deltaTime) 0) eqn:Hd;
    [apply NumFacts.leb_spec in Hd | apply NumFacts.leb_nspec in Hd]; cbn in *.
  - destruct (String.eqb (lastShotResult s) pending) eqn:He; cbn in *.
    + discriminate.
    + apply String.eqb_neq in He. contradiction.
  - split; [exact Hp | lra].
Qed.

Lemma animate_timerRuns (deltaTime : R) (s : GameState) :
  timerRunsWhilePending s -> timerRunsWhilePending (animate deltaTime s).
Proof.
  intros Inv Hs' Hp'.
  destruct (isShooting s) eqn:Hs.
  - rewrite (animate_in_flight deltaTime s Hs) in *.
    destruct (beforeHoops_scoring deltaTime (set_lastBallPosition (ballPosition s) s))
      as [Eb _]. cbv zeta in Eb. fold (beforeHoops deltaTime s) in Eb.
    change (scoring (set_lastBallPosition (ballPosition s) s)) with (scoring s) in Eb.
    set (b := beforeHoops deltaTime s) in *.
    set (c := hoopCollision rightHoop 0 b) in *.
    set (d := hoopCollision leftHoop 1 c) in *.
    destruct (shotFeedbackTimeout_fields deltaTime d) as (_ & _ & _ & _ & _ & _ & R).
    cbv zeta in R.
    assert (Rd : lastShotResult d = pending).
    { destruct R as [R | [R _]]; [rewrite <- R; exact Hp' | exact R]. }
    pose proof (hoopCollision_pending leftHoop 1 c Rd) as Ed. fold d in Ed.
    apply scoring_inv in Ed as (_ & _ & _ & _ & Ed5 & _ & Ed7).
    assert (Rc : lastShotResult c = pending) by congruence.
    pose proof (hoopCollision_pending rightHoop 0 b Rc) as Ec. fold c in Ec.
    apply scoring_inv in Ec as (_ & _ & _ & _ & Ec5 & _ & Ec7).
    apply scoring_inv in Eb as (_ & _ & _ & _ & Eb5 & _ & Eb7).
    assert (Ht : shotFeedbackTimer d > 0).
    { rewrite Ed7, Ec7, Eb7. apply Inv; [exact Hs | congruence]. }
    apply (shotFeedbackTimeout_pending deltaTime d Hp' Ht).
  - exfalso.
    destruct (animate_grounded_feedback deltaTime s Hs) as (S & _).
    cbv zeta in S. congruence.
Qed.

Lemma step_timerRuns (s : GameState) (i : Input) :
  timerRunsWhilePending s -> timerRunsWhilePending (step s i).
Proof.
  intros Inv. destruct i as [code | code | deltaTime]; cbn [step].
  - unfold onKeyDown. cbv zeta.
    assert (Inv0 : timerRunsWhilePending (setKey code true s)) by exact Inv.
    set (s0 := setKey code true s) in *. clearbody s0.
    destruct (String.eqb code "KeyR").
    + intros H. discriminate.
    + destruct (String.eqb code "Space"); [| exact Inv0].
      destruct (isShooting s0) eqn:Hs.
      * assert (E : shootBall s0 = s0) by (unfold shootBall; rewrite Hs; reflexivity).
        rewrite E. exact Inv0.
      * intros _ _. destruct (shootBall_grounded_scoring s0 Hs) as [E _].
        apply scoring_tuple_inv in E as (_ & _ & _ & _ & _ & _ & E7).
        rewrite E7. unfold_consts. apply Rlt_gt.
        eapply Rlt_le_trans; [| apply Rmax_l]. lra.
  - exact Inv.
  - apply animate_timerRuns. exact Inv.
Qed.

Lemma run_timerRuns (inputs : list Input) (s : GameState) :
  timerRunsWhilePending s -> timerRunsWhilePending (run s inputs).
Proof.
  unfold run. revert s. induction inputs as [| i inputs IH]; intros s Inv; cbn.
  - exact Inv.
  - apply IH. apply step_timerRuns. exact Inv.
Qed.

(** C9: [resetBall] leaves the feedback timer, score, shotAttempts and
    shotsMade as they were.  After a reset during an in-flight attempt with
    an empty result (in any state the program reaches) the timer is still
    running, and once the following frames add up to it the result is
    Missed and the missed-shot feedback has been shown once more, with the
    statistics unchanged. *)
Theorem reset_keeps_timer (history : list Input) (frames : list R) :
  let s := run initialState history in
  let final := run (resetBall s) (map Frame frames) in
  (shotFeedbackTimer (resetBall s) = shotFeedbackTimer s /\
   score (resetBall s) = score s /\
   shotAttempts (resetBall s) = shotAttempts s /\
   shotsMade (resetBall s) = shotsMade s) /\
  (isShooting s = true ->
   lastShotResult s = pending ->
   Forall (fun deltaTime => 0 <= deltaTime) frames ->
   shotFeedbackTimer s <= elapsed frames ->
   shotFeedbackTimer s > 0 /\
   lastShotResult final = missed /\
   missFeedbacks final = (missFeedbacks s + 1)%Z /\
   score final = score s /\ shotsMade final = shotsMade s /\
   shotAttempts final = shotAttempts s).
Proof.
  intros s final. split; [repeat split; reflexivity |].
  intros Hs Hp Hf He.
  assert (Ht : shotFeedbackTimer s > 0).
  { apply (run_timerRuns history initialState); [| exact Hs | exact Hp].
    intros H. discriminate. }
  split; [exact Ht |].
  destruct (grounded_timer_expires frames (resetBall s)) as (F1 & F2 & F3 & F4 & F5);
    try assumption; try reflexivity.
  repeat split; assumption.
Qed.

Lemma reset_keeps_timer_witness :
  lastShotResult
    (run (resetBall (run initialState [KeyDown "Space"])) (map Frame [1; 1; 1])) = missed.
Proof.
  apply (reset_keeps_timer [KeyDown "Space"] [1; 1; 1]).
  - reflexivity.
  - reflexivity.
  - repeat constructor; lra.
  - cbn. unfold_consts. apply Rmax_lub; lra.
Defined.

(** ** Invariants of the game loop *)

Lemma run_invariant (P : GameState -> Prop) :
  (forall s i, P s -> P (step s i)) ->
  forall inputs s, P s -> P (run s inputs).
Proof.
  intros Hstep inputs. unfold run.
  induction inputs as [| i inputs IH]; intros s Hs; cbn.
  - exact Hs.
  - apply IH. apply Hstep. exact Hs.
Qed.

(** *** The fields the physics leaves alone *)

Ltac branches :=
  cbv zeta;
  repeat match goal with
         | |- context [if ?c then _ else _] => destruct c
         end.

Lemma integrate_controls (deltaTime : R) (s : GameState) :
  controls (integrate deltaTime s) = controls s.
Proof. unfold integrate. branches; reflexivity. Qed.

Lemma floorCollision_controls (s : GameState) :
  controls (floorCollision s) = controls s.
Proof. unfold floorCollision. branches; reflexivity. Qed.

Lemma wallCollisionX_controls (s : GameState) :
  controls (wallCollisionX s) = controls s.
Proof. unfold wallCollisionX. branches; reflexivity. Qed.

Lemma wallCollisionZ_controls (s : GameState) :
  controls (wallCollisionZ s) = controls s.
Proof. unfold wallCollisionZ. branches; reflexivity. Qed.

Lemma ballSpin_controls (deltaTime : R) (s : GameState) :
  controls (ballSpin deltaTime s) = controls s.
Proof. unfold ballSpin. branches; reflexivity. Qed.

Lemma backboardCollision_controls (hoop : Hoop) (s : GameState) :
  controls (backboardCollision hoop s) = controls s.
Proof. unfold backboardCollision. branches; reflexivity. Qed.

Lemma hoopCollision_controls (hoop : Hoop) (hoopIndex : nat) (s : GameState) :
  controls (hoopCollision hoop hoopIndex s) = controls s.
Proof.
  rewrite hoopCollision_eq. unfold scoreBasket.
  destruct (madeBasketCondition hoop s); [destruct (negb _); reflexivity |].
  destruct (rimBandCondition hoop s); reflexivity.
Qed.

Lemma shotFeedbackTimeout_controls (deltaTime : R) (s : GameState) :
  controls (shotFeedbackTimeout deltaTime s) = controls s.
Proof.
  unfold shotFeedbackTimeout. cbv zeta.
  destruct (Num.gtb _ _); [| reflexivity]. destruct (_ && _); reflexivity.
Qed.

Lemma updateBallPhysics_controls (deltaTime : R) (s : GameState) :
  controls (updateBallPhysics deltaTime s) = controls s.
Proof.
  unfold updateBallPhysics. cbv zeta. cbn [isShooting set_lastBallPosition].
  destruct (isShooting s); [| reflexivity].
  unfold resolveCollisions, checkHoopCollision, checkBackboardCollision.
  rewrite !hoopCollision_controls, !backboardCollision_controls, ballSpin_controls,
    wallCollisionZ_controls, wallCollisionX_controls, floorCollision_controls,
    integrate_controls.
  reflexivity.
Qed.

Lemma controls_inv (a b : GameState) :
  controls a = controls b ->
  shotPower a = shotPower b /\ shotOrigin a = shotOrigin b /\
  isThreePointer a = isThreePointer b /\ shotAttempts a = shotAttempts b.
Proof. unfold controls. intros H. inversion H. repeat split; assumption. Qed.

(** *** Shot power stays in range *)

Lemma handleInput_powerInRange (deltaTime : R) (s : GameState) :
  powerInRange s -> powerInRange (handleInput deltaTime s).
Proof.
  unfold powerInRange. intros [Hlo Hhi]. handleInput_cases s; unfold_consts;
    try (split; assumption);
    unfold Rmax, Rmin;
    repeat match goal with |- context [Rle_dec ?a ?b] => destruct (Rle_dec a b) end;
    lra.
Qed.

Lemma step_powerInRange (s : GameState) (i : Input) :
  powerInRange s -> powerInRange (step s i).
Proof.
  intros H. destruct i as [code | code | deltaTime]; cbn [step].
  - unfold onKeyDown. cbv zeta.
    destruct (String.eqb code "KeyR").
    + unfold powerInRange. cbn. unfold_consts. lra.
    + destruct (String.eqb code "Space"); [| exact H].
      unfold powerInRange, shootBall. cbn [isShooting setKey set_keys].
      destruct (isShooting s); exact H.
  - exact H.
  - unfold animate, powerInRange.
    destruct (controls_inv _ _ (shotFeedbackTimeout_controls deltaTime
                (updateBallPhysics deltaTime (handleInput deltaTime s)))) as (E1 & _).
    destruct (controls_inv _ _ (updateBallPhysics_controls deltaTime
                (handleInput deltaTime s))) as (E2 & _).
    rewrite E1, E2. apply handleInput_powerInRange. exact H.
Qed.

(** X1: whatever keys are pressed and however long the frames are, the shot
    power stays between [MIN_SHOT_POWER] and [MAX_SHOT_POWER]. *)
Theorem shotPower_always_in_range (inputs : list Input) :
  MIN_SHOT_POWER <= shotPower (run initialState inputs) <= MAX_SHOT_POWER.
Proof.
  apply (run_invariant powerInRange step_powerInRange).
  unfold powerInRange. cbn. unfold_consts. lra.
Qed.

(** *** The ball never sinks below its resting height *)

Lemma handleInput_ball (deltaTime : R) (s : GameState) :
  (ballPosition (handleInput deltaTime s)).y = (ballPosition s).y /\
  ballVelocity (handleInput deltaTime s) = ballVelocity s.
Proof.
  handleInput_cases s; split; try reflexivity; vsimpl; lra.
Qed.

Lemma floorCollision_aboveFloor (s : GameState) : aboveFloor (floorCollision s).
Proof.
  unfold aboveFloor, floorCollision. cbv zeta.
  destruct (Num.leb _ _) eqn:Hc.
  - destruct (_ && _); cbn; lra.
  - apply NumFacts.leb_nspec in Hc. lra.
Qed.

Lemma backboardCollision_y (hoop : Hoop) (s : GameState) :
  (ballPosition (backboardCollision hoop s)).y = (ballPosition s).y.
Proof. unfold backboardCollision. branches; reflexivity. Qed.

Lemma hoopCollision_y (hoop : Hoop) (hoopIndex : nat) (s : GameState) :
  (ballPosition (hoopCollision hoop hoopIndex s)).y = (ballPosition s).y.
Proof.
  rewrite hoopCollision_eq.
  destruct (madeBasketCondition hoop s).
  - destruct (scoreBasket_ball hoop s) as [E _]. rewrite E. reflexivity.
  - destruct (rimBandCondition hoop s) eqn:Hb; [| reflexivity].
    rewrite (rimBounce_position hoop hoopIndex s Hb). reflexivity.
Qed.

Lemma resolveCollisions_aboveFloor (deltaTime : R) (s : GameState) :
  aboveFloor (resolveCollisions deltaTime s).
Proof.
  unfold aboveFloor, resolveCollisions, checkHoopCollision, checkBackboardCollision.
  rewrite !hoopCollision_y, !backboardCollision_y.
  destruct (ballSpin_ball deltaTime (wallCollisionZ (wallCollisionX (floorCollision s))))
    as [E _]. rewrite E.
  destruct (wallCollisionZ_fields (wallCollisionX (floorCollision s))) as (E1 & _).
  destruct (wallCollisionX_fields (floorCollision s)) as (E2 & _).
  rewrite E1, E2. apply floorCollision_aboveFloor.
Qed.

Lemma step_aboveFloor (s : GameState) (i : Input) :
  aboveFloor s -> aboveFloor (step s i).
Proof.
  intros H. destruct i as [code | code | deltaTime]; cbn [step].
  - unfold onKeyDown. cbv zeta.
    destruct (String.eqb code "KeyR").
    + unfold aboveFloor. cbn. lra.
    + destruct (String.eqb code "Space"); [| exact H].
      unfold aboveFloor. rewrite shootBall_ballPosition. exact H.
  - exact H.
  - unfold animate, aboveFloor. rewrite shotFeedbackTimeout_ballPosition.
    unfold updateBallPhysics. cbv zeta. cbn [isShooting set_lastBallPosition].
    destruct (isShooting (handleInput deltaTime s)).
    + apply resolveCollisions_aboveFloor.
    + cbn. destruct (handleInput_ball deltaTime s) as [E _]. rewrite E. exact H.
Qed.

(** X2: in every state the program reaches, the ball centre is at or above
    its resting height [COURT_FLOOR_Y + BALL_RADIUS + LINES_Y_OFFSET]: no
    frame length lets the ball end a frame inside the floor. *)
Theorem ball_never_below_floor (inputs : list Input) :
  (ballPosition (run initialState inputs)).y >=
  COURT_FLOOR_Y + BALL_RADIUS + LINES_Y_OFFSET.
Proof.
  apply (run_invariant aboveFloor step_aboveFloor).
  unfold aboveFloor, initialState, restY. cbn. apply Rle_ge, Rle_refl.
Qed.

(** *** A grounded ball lies still on the floor *)

Lemma floorCollision_stops (s : GameState) :
  isShooting s = true ->
  isShooting (floorCollision s) = false ->
  atRest (floorCollision s).
Proof.
  unfold atRest, floorCollision. cbv zeta. intros Hs.
  destruct (Num.leb _ _); [| congruence].
  destruct (_ && _); cbn; [intros _; split; reflexivity | congruence].
Qed.

Lemma wallCollisionX_atRest (s : GameState) : atRest s -> atRest (wallCollisionX s).
Proof.
  unfold atRest. intros [Hv Hy].
  destruct (wallCollisionX_fields s) as (Ey & _). split; [| congruence].
  unfold wallCollisionX. cbv zeta.
  destruct (Num.geb _ _); [| destruct (Num.leb _ _)]; cbn; rewrite ?Hv; try reflexivity;
    unfold Vector3.zero, Vector3.set_x; cbn; f_equal; ring.
Qed.

Lemma wallCollisionZ_atRest (s : GameState) : atRest s -> atRest (wallCollisionZ s).
Proof.
  unfold atRest. intros [Hv Hy].
  destruct (wallCollisionZ_fields s) as (Ey & _). split; [| congruence].
  unfold wallCollisionZ. cbv zeta.
  destruct (Num.geb _ _); [| destruct (Num.leb _ _)]; cbn; rewrite ?Hv; try reflexivity;
    unfold Vector3.zero, Vector3.set_z; cbn; f_equal; ring.
Qed.

Lemma atRest_beyond_hoops (s : GameState) :
  atRest s -> checkHoopCollision (checkBackboardCollision s) = s.
Proof.
  intros [_ Hy]. unfold checkBackboardCollision, checkHoopCollision.
  assert (Hb : forall hoop, backboardCollision hoop s = s).
  { intro hoop. apply backboardCollision_outside_height.
    rewrite Hy. unfold_consts. rabs_lra. }
  rewrite !Hb.
  assert (Hh : forall hoop i, hoopCollision hoop i s = s).
  { intros hoop i. apply hoopCollision_outside_height.
    rewrite Hy. unfold_consts. rabs_lra. }
  rewrite !Hh. reflexivity.
Qed.

Lemma resolveCollisions_isShooting (deltaTime : R) (s : GameState) :
  isShooting (resolveCollisions deltaTime s) = isShooting (floorCollision s).
Proof.
  unfold resolveCollisions, checkHoopCollision, checkBackboardCollision.
  destruct (hoopCollision_unresolved leftHoop 1
              (hoopCollision rightHoop 0
                 (backboardCollision leftHoop
                    (backboardCollision rightHoop
                       (ballSpin deltaTime
                          (wallCollisionZ (wallCollisionX (floorCollision s))))))))
    as (_ & _ & E1). cbv zeta in E1. rewrite E1.
  destruct (hoopCollision_unresolved rightHoop 0
              (backboardCollision leftHoop
                 (backboardCollision rightHoop
                    (ballSpin deltaTime
                       (wallCollisionZ (wallCollisionX (floorCollision s)))))))
    as (_ & _ & E2). cbv zeta in E2. rewrite E2.
  rewrite (proj2 (backboardCollision_scoring leftHoop _)),
    (proj2 (backboardCollision_scoring rightHoop _)),
    (proj2 (ballSpin_scoring deltaTime _)),
    (proj2 (wallCollisionZ_scoring _)), (proj2 (wallCollisionX_scoring _)).
  reflexivity.
Qed.

Lemma resolveCollisions_rests (deltaTime : R) (s : GameState) :
  isShooting s = true ->
  isShooting (resolveCollisions deltaTime s) = false ->
  atRest (resolveCollisions deltaTime s).
Proof.
  intros Hs Hr. rewrite resolveCollisions_isShooting in Hr.
  pose proof (floorCollision_stops s Hs Hr) as H1.
  apply wallCollisionX_atRest, wallCollisionZ_atRest in H1.
  unfold resolveCollisions.
  set (t := wallCollisionZ (wallCollisionX (floorCollision s))) in *.
  destruct (ballSpin_ball deltaTime t) as [Ep Ev].
  assert (H2 : atRest (ballSpin deltaTime t)).
  { unfold atRest in *. rewrite Ep, Ev. exact H1. }
  rewrite (atRest_beyond_hoops _ H2). exact H2.
Qed.

Lemma step_restsWhenGrounded (s : GameState) (i : Input) :
  restsWhenGrounded s -> restsWhenGrounded (step s i).
Proof.
  intros H. destruct i as [code | code | deltaTime]; cbn [step].
  - unfold onKeyDown. cbv zeta.
    destruct (String.eqb code "KeyR").
    + intros _. split; reflexivity.
    + destruct (String.eqb code "Space"); [| exact H].
      destruct (isShooting s) eqn:Hs.
      * intros Hg. unfold shootBall in Hg. cbn [isShooting setKey set_keys] in Hg.
        rewrite Hs in Hg. cbn in Hg. congruence.
      * intros Hg. destruct (shootBall_grounded_scoring (setKey code true s) Hs) as [_ E].
        congruence.
  - exact H.
  - intros Hg. unfold animate in *.
    destruct (shotFeedbackTimeout_fields deltaTime
                (updateBallPhysics deltaTime (handleInput deltaTime s)))
      as (_ & _ & _ & _ & _ & Es & _). cbv zeta in Es. rewrite Es in Hg.
    unfold atRest. rewrite shotFeedbackTimeout_ballPosition, shotFeedbackTimeout_ballVelocity.
    pose proof (handleInput_isShooting deltaTime s) as Eh.
    destruct (handleInput_ball deltaTime s) as [Ey Ev].
    set (h := handleInput deltaTime s) in *.
    unfold updateBallPhysics in *. cbv zeta in *. cbn [isShooting set_lastBallPosition] in *.
    destruct (isShooting h) eqn:Hh.
    + apply resolveCollisions_rests; [| exact Hg].
      destruct (integrate_scoring deltaTime (set_lastBallPosition (ballPosition h) h))
        as [_ Ei]. rewrite Ei. exact Hh.
    + cbn. rewrite Ey, Ev. apply H. congruence.
Qed.

(** X3: whenever the program has the ball grounded ([isShooting] false),
    the ball has zero velocity and sits at its resting height: movement
    keys, reset and the floor's stop rule are the only ways to be grounded,
    and none leaves a moving or floating ball. *)
Theorem grounded_ball_at_rest (inputs : list Input) :
  isShooting (run initialState inputs) = false ->
  ballVelocity (run initialState inputs) = Vector3.zero /\
  (ballPosition (run initialState inputs)).y =
    COURT_FLOOR_Y + BALL_RADIUS + LINES_Y_OFFSET.
Proof.
  apply (run_invariant restsWhenGrounded step_restsWhenGrounded).
  intros _. split; reflexivity.
Qed.

Lemma grounded_ball_at_rest_witness :
  ballVelocity (run initialState [KeyDown "Space"; KeyDown "KeyR"]) = Vector3.zero.
Proof.
  apply (grounded_ball_at_rest [KeyDown "Space"; KeyDown "KeyR"]). reflexivity.
Defined.

(** *** The statistics *)

Lemma scoreWithinMade_of_scoring (a b : GameState) :
  scoring a = scoring b -> scoreWithinMade b -> scoreWithinMade a.
Proof.
  intros E H. apply scoring_inv in E as (_ & E2 & E3 & _).
  unfold scoreWithinMade in *. rewrite E2, E3. exact H.
Qed.

Lemma hoopCollision_scoreWithinMade (hoop : Hoop) (hoopIndex : nat) (s : GameState) :
  scoreWithinMade s -> scoreWithinMade (hoopCollision hoop hoopIndex s).
Proof.
  intros H.
  destruct (madeBasketCondition hoop s && negb (String.eqb (lastShotResult s) made))
    eqn:Hb.
  - apply scoresAt_dec in Hb.
    destruct (hoopCollision_scores hoop hoopIndex s Hb) as [E _].
    apply scoring_tuple_inv in E as (_ & E2 & E3 & _).
    unfold scoreWithinMade, points in *. rewrite E2, E3.
    destruct (isThreePointer s); lia.
  - destruct (hoopCollision_no_score hoop hoopIndex s) as [E _].
    { rewrite scoresAt_dec, Hb. discriminate. }
    apply (scoreWithinMade_of_scoring _ _ E H).
Qed.

Lemma updateBallPhysics_scoreWithinMade (deltaTime : R) (s : GameState) :
  scoreWithinMade s -> scoreWithinMade (updateBallPhysics deltaTime s).
Proof.
  intros H. unfold updateBallPhysics. cbv zeta. cbn [isShooting set_lastBallPosition].
  destruct (isShooting s); [| exact H].
  unfold resolveCollisions, checkHoopCollision.
  do 2 apply hoopCollision_scoreWithinMade.
  destruct (beforeHoops_scoring deltaTime (set_lastBallPosition (ballPosition s) s))
    as [E _].
  apply (scoreWithinMade_of_scoring _ _ E). exact H.
Qed.

Lemma step_scoreWithinMade (s : GameState) (i : Input) :
  scoreWithinMade s -> scoreWithinMade (step s i).
Proof.
  intros H. destruct i as [code | code | deltaTime]; cbn [step].
  - unfold onKeyDown. cbv zeta.
    destruct (String.eqb code "KeyR"); [exact H |].
    destruct (String.eqb code "Space"); [| exact H].
    unfold shootBall. cbn [isShooting setKey set_keys].
    destruct (isShooting s); exact H.
  - exact H.
  - unfold animate.
    destruct (shotFeedbackTimeout_fields deltaTime
                (updateBallPhysics deltaTime (handleInput deltaTime s)))
      as (_ & E2 & E3 & _). cbv zeta in E2, E3.
    unfold scoreWithinMade. rewrite E2, E3.
    apply updateBallPhysics_scoreWithinMade.
    apply (scoreWithinMade_of_scoring _ _ (handleInput_scoring deltaTime s)). exact H.
Qed.

(** X4: in every state the program reaches the statistics are consistent:
    made shots never exceed attempts, each score event added one made shot,
    and the score lies between 2 and 3 points per made shot. *)
Theorem statistics_consistent (inputs : list Input) :
  let s := run initialState inputs in
  (0 <= shotsMade s <= shotAttempts s)%Z /\
  shotsMade s = scoreEvents s /\
  (2 * shotsMade s <= score s <= 3 * shotsMade s)%Z.
Proof.
  cbv zeta.
  destruct (run_potential inputs initialState) as (P & M & _).
  change (potential initialState) with 0%Z in P.
  change (shotsMade initialState - scoreEvents initialState)%Z with 0%Z in M.
  pose proof (run_invariant scoreWithinMade step_scoreWithinMade inputs initialState) as W.
  unfold scoreWithinMade in W. specialize (W ltac:(cbn; lia)).
  set (s := run initialState inputs) in *.
  assert (Hp : (scoreEvents s - shotAttempts s <= potential s)%Z).
  { unfold potential. destruct (canScore s); lia. }
  repeat split; lia.
Qed.

(** *** What an attempt fixes at release *)

Lemma handleInput_controls_attempt (deltaTime : R) (s : GameState) :
  shotOrigin (handleInput deltaTime s) = shotOrigin s /\
  isThreePointer (handleInput deltaTime s) = isThreePointer s /\
  shotAttempts (handleInput deltaTime s) = shotAttempts s.
Proof. handleInput_cases s; repeat split; reflexivity. Qed.

Lemma step_attempt (s : GameState) (i : Input) :
  (shotAttempts (step s i) = shotAttempts s /\
   isThreePointer (step s i) = isThreePointer s /\
   shotOrigin (step s i) = shotOrigin s) \/
  shotAttempts (step s i) = (shotAttempts s + 1)%Z.
Proof.
  destruct i as [code | code | deltaTime]; cbn [step].
  - unfold onKeyDown. cbv zeta.
    destruct (String.eqb code "KeyR"); [left; repeat split; reflexivity |].
    destruct (String.eqb code "Space"); [| left; repeat split; reflexivity].
    unfold shootBall. cbn [isShooting setKey set_keys].
    destruct (isShooting s); [left; repeat split; reflexivity | right; reflexivity].
  - left. repeat split; reflexivity.
  - left. unfold animate.
    destruct (controls_inv _ _ (shotFeedbackTimeout_controls deltaTime
                (updateBallPhysics deltaTime (handleInput deltaTime s))))
      as (_ & A2 & A3 & A4).
    destruct (controls_inv _ _ (updateBallPhysics_controls deltaTime
                (handleInput deltaTime s))) as (_ & B2 & B3 & B4).
    destruct (handleInput_controls_attempt deltaTime s) as (C2 & C3 & C4).
    repeat split; congruence.
Qed.

(** X5: an attempt's 3-point classification and shot origin are fixed at
    release: as long as [shotAttempts] has not changed, no frame and no key
    changes [isThreePointer] or [shotOrigin], wherever the ball flies. *)
Theorem classification_fixed_per_attempt (s : GameState) (inputs : list Input) :
  shotAttempts (run s inputs) = shotAttempts s ->
  isThreePointer (run s inputs) = isThreePointer s /\
  shotOrigin (run s inputs) = shotOrigin s.
Proof.
  revert s. induction inputs as [| i inputs IH]; intros s Ha.
  - split; reflexivity.
  - change (run s (i :: inputs)) with (run (step s i) inputs) in *.
    destruct (run_potential inputs (step s i)) as (_ & _ & Hm).
    destruct (step_attempt s i) as [(E1 & E2 & E3) | E]; [| lia].
    destruct (IH (step s i)) as [I1 I2]; [congruence |].
    split; congruence.
Qed.

Lemma classification_fixed_per_attempt_witness :
  isThreePointer (run releasedD [KeyDown "ArrowLeft"; KeyDown "KeyR"]) =
  isThreePointer releasedD.
Proof.
  apply (classification_fixed_per_attempt releasedD
           [KeyDown "ArrowLeft"; KeyDown "KeyR"] eq_refl).
Defined.

(** *** A made basket stays made *)

Lemma updateBallPhysics_made (deltaTime : R) (s : GameState) :
  lastShotResult s = made ->
  scoring (updateBallPhysics deltaTime s) = scoring s.
Proof.
  intros Hm. unfold updateBallPhysics. cbv zeta. cbn [isShooting set_lastBallPosition].
  destruct (isShooting s); [| reflexivity].
  unfold resolveCollisions, checkHoopCollision.
  destruct (beforeHoops_scoring deltaTime (set_lastBallPosition (ballPosition s) s))
    as [E _]. cbv zeta in E.
  change (scoring (set_lastBallPosition (ballPosition s) s)) with (scoring s) in E.
  set (b := checkBackboardCollision _) in *.
  pose proof (scoring_inv _ _ E) as (_ & _ & _ & _ & Rb & _).
  destruct (hoopCollision_no_score rightHoop 0 b) as [E1 _].
  { unfold scoresAt. intros (_ & _ & _ & H). apply H. congruence. }
  pose proof (scoring_inv _ _ E1) as (_ & _ & _ & _ & Rc & _).
  destruct (hoopCollision_no_score leftHoop 1 (hoopCollision rightHoop 0 b)) as [E2 _].
  { unfold scoresAt. intros (_ & _ & _ & H). apply H. congruence. }
  congruence.
Qed.

Lemma step_made (s : GameState) (i : Input) :
  ~ startsOrResets i ->
  lastShotResult s = made ->
  lastShotResult (step s i) = made /\ score (step s i) = score s /\
  shotsMade (step s i) = shotsMade s /\ scoreEvents (step s i) = scoreEvents s.
Proof.
  intros Hi Hm. destruct i as [code | code | deltaTime]; cbn [step].
  - unfold onKeyDown. cbv zeta.
    destruct (String.eqb code "KeyR") eqn:Er.
    { apply String.eqb_eq in Er. subst code. exfalso. apply Hi. left. reflexivity. }
    destruct (String.eqb code "Space") eqn:Es.
    { apply String.eqb_eq in Es. subst code. exfalso. apply Hi. right. reflexivity. }
    repeat split; assumption.
  - repeat split; assumption.
  - unfold animate.
    pose proof (scoring_inv _ _ (handleInput_scoring deltaTime s))
      as (H1 & H2 & H3 & _ & H5 & _).
    set (h := handleInput deltaTime s) in *.
    pose proof (scoring_inv _ _ (updateBallPhysics_made deltaTime h ltac:(congruence)))
      as (U1 & U2 & U3 & _ & U5 & _).
    set (u := updateBallPhysics deltaTime h) in *.
    destruct (shotFeedbackTimeout_fields deltaTime u) as (T1 & T2 & T3 & _ & _ & _ & T5).
    cbv zeta in T1, T2, T3, T5.
    repeat split; try congruence.
    destruct T5 as [T5 | [T5 _]]; [congruence |].
    exfalso. rewrite U5, H5, Hm in T5. discriminate.
Qed.

(** X6: once an attempt is Made, frames and keys other than reset and shoot
    never change the result, the score, [shotsMade] or the number of score
    events: the basket is not counted twice and the feedback timer does not
    turn it into Missed. *)
Theorem made_result_is_final (s : GameState) (inputs : list Input) :
  lastShotResult s = made ->
  Forall (fun i => ~ startsOrResets i) inputs ->
  lastShotResult (run s inputs) = made /\ score (run s inputs) = score s /\
  shotsMade (run s inputs) = shotsMade s /\ scoreEvents (run s inputs) = scoreEvents s.
Proof.
  revert s. induction inputs as [| i inputs IH]; intros s Hm Hf.
  - repeat split; assumption.
  - change (run s (i :: inputs)) with (run (step s i) inputs).
    inversion Hf as [| j js Hi Hrest]; subst.
    destruct (step_made s i Hi Hm) as (S1 & S2 & S3 & S4).
    destruct (IH (step s i) S1 Hrest) as (I1 & I2 & I3 & I4).
    repeat split; congruence.
Qed.

Lemma made_result_is_final_witness :
  lastShotResult
    (run (hoopCollision rightHoop 0 atRimCenter) [Frame 0.016; KeyDown "KeyW"; Frame 3]) =
  made.
Proof.
  apply (made_result_is_final (hoopCollision rightHoop 0 atRimCenter)).
  - destruct (hoopCollision_scores rightHoop 0 atRimCenter) as [E _].
    + apply scoresAt_dec. pose proof (atRimCenter_made pending) as Hm.
      change (madeBasketCondition rightHoop atRimCenter = true) in Hm.
      rewrite Hm. reflexivity.
    + apply scoring_tuple_inv in E as (_ & _ & _ & _ & E5 & _). exact E5.
  - repeat constructor; intros [H | H]; discriminate.
Defined.

(** *** Which hoop a shot aims at *)




(** *** The power keys *)

Lemma handleInput_shotPower (deltaTime : R) (s : GameState) :
  isShooting s = false ->
  shotPower (handleInput deltaTime s) =
  (let p := if keys s "KeyW" then Rmin MAX_SHOT_POWER (shotPower s + POWER_STEP)
            else shotPower s in
   if keys s "KeyS" then Rmax MIN_SHOT_POWER (p - POWER_STEP) else p).
Proof.
  intros Hg. handleInput_cases s; [congruence | ..]; reflexivity.
Qed.

(** X8: on a grounded ball with power in range, W alone raises the power by
    [POWER_STEP] up to [MAX_SHOT_POWER], S alone lowers it down to
    [MIN_SHOT_POWER]; with both held the power never rises, and within one
    step of the maximum it drops to [MAX_SHOT_POWER - POWER_STEP]. *)
Theorem power_keys (deltaTime : R) (s : GameState) :
  isShooting s = false ->
  MIN_SHOT_POWER <= shotPower s <= MAX_SHOT_POWER ->
  let p := shotPower s in
  let p' := shotPower (handleInput deltaTime s) in
  (keys s "KeyW" = true -> keys s "KeyS" = false ->
   p' = Rmin MAX_SHOT_POWER (p + POWER_STEP)) /\
  (keys s "KeyW" = false -> keys s "KeyS" = true ->
   p' = Rmax MIN_SHOT_POWER (p - POWER_STEP)) /\
  (keys s "KeyW" = true -> keys s "KeyS" = true ->
   p' = Rmin p (MAX_SHOT_POWER - POWER_STEP)) /\
  (keys s "KeyW" = false -> keys s "KeyS" = false -> p' = p).
Proof.
  intros Hg [Hlo Hhi] p p'. subst p'. rewrite (handleInput_shotPower deltaTime s Hg).
  subst p. cbv zeta.
  repeat split; intros HW HS; rewrite HW, HS; try reflexivity.
  unfold_consts. unfold Rmax, Rmin.
  repeat match goal with
         | |- context [Rle_dec ?a ?b] => destruct (Rle_dec a b)
         | H : context [Rle_dec ?a ?b] |- _ => destruct (Rle_dec a b)
         end; lra.
Qed.

Lemma power_keys_witness :
  shotPower (handleInput 0.016 bothPowerKeys) = MAX_SHOT_POWER - POWER_STEP.
Proof.
  destruct (power_keys 0.016 bothPowerKeys eq_refl) as (_ & _ & H & _).
  - cbn. unfold_consts. lra.
  - rewrite (H eq_refl eq_refl). cbn. unfold_consts. apply Rmin_right. lra.
Defined.

(** *** The movement keys *)

Lemma handleInput_ballPosition (deltaTime : R) (s : GameState) :
  isShooting s = false ->
  let moved := keys s "ArrowLeft" || keys s "ArrowRight" ||
               keys s "ArrowUp" || keys s "ArrowDown" in
  let p := ballPosition s in
  ballPosition (handleInput deltaTime s) =
  if moved then
    Vector3.mk
      (clamp (COURT_LENGTH / 2 - BALL_RADIUS)
         (p.x + moveStep (keys s "ArrowLeft") (keys s "ArrowRight")))
      (p.y + 0)
      (clamp (COURT_WIDTH / 2 - BALL_RADIUS)
         (p.z + moveStep (keys s "ArrowUp") (keys s "ArrowDown")))
  else p.
Proof.
  intros Hg. handleInput_cases s; [congruence | ..]; reflexivity.
Qed.

Lemma clamp_inside (m v : R) : Rabs v <= m -> clamp m v = v.
Proof.
  intros H. assert (- m <= v <= m) by rabs_lra. unfold clamp.
  rewrite Rmin_right by lra. apply Rmax_right. lra.
Qed.

Lemma clamp_step (m v d : R) :
  Rabs v <= m -> Rabs (clamp m (v + d) - v) <= Rabs d.
Proof.
  intros H. assert (H' : - m <= v <= m) by rabs_lra. clear H.
  unfold clamp, Rmax, Rmin.
  repeat match goal with
         | |- context [Rle_dec ?a ?b] => destruct (Rle_dec a b)
         | H : context [Rle_dec ?a ?b] |- _ => destruct (Rle_dec a b)
         end;
    rabs_lra.
Qed.

Lemma moveStep_abs (a b : bool) : Rabs (moveStep a b) <= BALL_MOVEMENT_SPEED.
Proof. unfold moveStep. destruct b, a; unfold_consts; rabs_lra. Qed.

(** X9: on a grounded ball inside the court one frame of movement input
    shifts x and z by the fixed step [BALL_MOVEMENT_SPEED] per axis, clamped
    to the court: the right key wins over the left, the down key over the
    up key, the height is untouched and the frame time plays no part. *)
Theorem movement_step (deltaTime : R) (s : GameState) :
  isShooting s = false ->
  inCourt (ballPosition s) ->
  let p := ballPosition s in
  let p' := ballPosition (handleInput deltaTime s) in
  p'.x = clamp (COURT_LENGTH / 2 - BALL_RADIUS)
           (p.x + moveStep (keys s "ArrowLeft") (keys s "ArrowRight")) /\
  p'.y = p.y /\
  p'.z = clamp (COURT_WIDTH / 2 - BALL_RADIUS)
           (p.z + moveStep (keys s "ArrowUp") (keys s "ArrowDown")) /\
  Rabs (p'.x - p.x) <= BALL_MOVEMENT_SPEED /\
  Rabs (p'.z - p.z) <= BALL_MOVEMENT_SPEED /\
  (forall deltaTime', ballPosition (handleInput deltaTime' s) = p').
Proof.
  intros Hg [Hx Hz] p p'.
  assert (Hp : forall dt,
    ballPosition (handleInput dt s) =
    Vector3.mk
      (clamp (COURT_LENGTH / 2 - BALL_RADIUS)
         (p.x + moveStep (keys s "ArrowLeft") (keys s "ArrowRight")))
      p.y
      (clamp (COURT_WIDTH / 2 - BALL_RADIUS)
         (p.z + moveStep (keys s "ArrowUp") (keys s "ArrowDown")))).
  { intro dt. rewrite (handleInput_ballPosition dt s Hg). cbv zeta. fold p.
    destruct (keys s "ArrowLeft"), (keys s "ArrowRight"), (keys s "ArrowUp"),
      (keys s "ArrowDown"); cbn [orb]; try (f_equal; lra).
    unfold moveStep. rewrite !Rplus_0_r, !clamp_inside by assumption.
    destruct p; reflexivity. }
  subst p'. rewrite (Hp deltaTime). cbn.
  repeat split; try reflexivity.
  - eapply Rle_trans; [apply clamp_step; exact Hx | apply moveStep_abs].
  - eapply Rle_trans; [apply clamp_step; exact Hz | apply moveStep_abs].
  - intro dt. apply Hp.
Qed.

Lemma movement_step_witness :
  (ballPosition (handleInput 0.016
                   (setKey "ArrowRight" true (setKey "ArrowLeft" true initialState)))).x =
  clamp (COURT_LENGTH / 2 - BALL_RADIUS) (0 + BALL_MOVEMENT_SPEED).
Proof.
  apply (movement_step 0.016
           (setKey "ArrowRight" true (setKey "ArrowLeft" true initialState)) eq_refl).
  exact initialState_inCourt.
Defined.

(** *** After a rim bounce *)

Lemma rimBounce_distance (hoop : Hoop) (hoopIndex : nat) (s : GameState) :
  rimBandCondition hoop s = true ->
  rimHorizontalDistance hoop (rimBounce hoop hoopIndex s) =
  RIM_RADIUS + BALL_RADIUS + 0.01.
Proof.
  intros H. unfold rimHorizontalDistance, ballToRim.
  rewrite (rimBounce_position hoop hoopIndex s H). cbv zeta.
  pose proof (rimBand_normal_unit hoop s H) as Hu. cbv zeta in Hu.
  set (n := Vector3.normalize (rimNormalArg hoop s)) in *. clearbody n.
  vsimpl. set (r := RIM_RADIUS + BALL_RADIUS + 0.01).
  replace (((rimCenter hoop).x + n.x * r - (rimCenter hoop).x) *
           ((rimCenter hoop).x + n.x * r - (rimCenter hoop).x) +
           ((rimCenter hoop).z + n.z * r - (rimCenter hoop).z) *
           ((rimCenter hoop).z + n.z * r - (rimCenter hoop).z))
    with ((r * r) * (n.x * n.x + n.z * n.z)) by ring.
  rewrite Hu, Rmult_1_r. apply sqrt_square. unfold r. unfold_consts. lra.
Qed.

(** X10: a rim bounce puts the ball at horizontal distance
    [RIM_RADIUS + BALL_RADIUS + 0.01] from the rim centre, outside the rim
    band, moving upward with at least 0.5 m/s; the same hoop's test run
    again on the result touches nothing. *)
Theorem rim_bounce_clears_band (hoop : Hoop) (hoopIndex : nat) (s : GameState) :
  madeBasketCondition hoop s = false ->
  rimBandCondition hoop s = true ->
  let s' := hoopCollision hoop hoopIndex s in
  rimHorizontalDistance hoop s' = RIM_RADIUS + BALL_RADIUS + 0.01 /\
  (ballVelocity s').y >= 0.5 /\
  (ballPosition s').y = (ballPosition s).y /\
  rimBandCondition hoop s' = false /\
  madeBasketCondition hoop s' = false /\
  hoopCollision hoop hoopIndex s' = s'.
Proof.
  intros Hm Hb. cbv zeta. rewrite (hoopCollision_rimBounce hoop hoopIndex s Hm Hb).
  pose proof (rimBounce_distance hoop hoopIndex s Hb) as Hd.
  assert (Hv : (ballVelocity (rimBounce hoop hoopIndex s)).y >= 0.5).
  { rewrite rimBounce_velocity. cbn.
    pose proof (Rabs_pos (ballVelocity s).y). unfold_consts. nra. }
  split; [exact Hd |]. split; [exact Hv |].
  split; [rewrite (rimBounce_position hoop hoopIndex s Hb); reflexivity |].
  split; [| split].
  - unfold rimBandCondition. rewrite Hd. unfold_consts.
    num_cases; try reflexivity; exfalso; lra.
  - unfold madeBasketCondition. rewrite Hd. unfold_consts.
    num_cases; try reflexivity; exfalso; lra.
  - apply hoopCollision_outside_band. rewrite Hd. unfold_consts. lra.
Qed.

Lemma rim_bounce_clears_band_witness :
  hoopCollision rightHoop 0 (hoopCollision rightHoop 0 rimTouch) =
  hoopCollision rightHoop 0 rimTouch.
Proof.
  destruct rimTouch_conditions as [Hm Hb].
  apply (rim_bounce_clears_band rightHoop 0 rimTouch Hm Hb).
Defined.

(** *** Passing the hoop from below *)

(** X11: a ball that is not descending and whose centre is horizontally
    within [RIM_RADIUS - BALL_RADIUS] of a rim centre passes that hoop's
    test untouched at any height: no score, no bounce, nothing changes. *)
Theorem rising_ball_passes_hoop (hoop : Hoop) (hoopIndex : nat) (s : GameState) :
  (ballVelocity s).y >= 0 ->
  rimHorizontalDistance hoop s <= RIM_RADIUS - BALL_RADIUS ->
  hoopCollision hoop hoopIndex s = s.
Proof.
  intros Hv Hd. rewrite hoopCollision_eq.
  unfold madeBasketCondition, rimBandCondition. unfold_consts.
  num_cases; try reflexivity; exfalso; lra.
Qed.

Lemma rising_ball_passes_hoop_witness :
  hoopCollision rightHoop 0 risingThroughRim = risingThroughRim.
Proof.
  apply (rising_ball_passes_hoop rightHoop 0 risingThroughRim).
  - cbn. lra.
  - rewrite rimHorizontalDistance_center.
    + unfold_consts. lra.
    + rewrite rimCenter_right. reflexivity.
    + rewrite rimCenter_right. reflexivity.
Defined.

(** *** The miss verdict takes its time *)

Lemma hoopCollision_result (hoop : Hoop) (hoopIndex : nat) (s : GameState) :
  shotFeedbackTimer (hoopCollision hoop hoopIndex s) = shotFeedbackTimer s /\
  (lastShotResult (hoopCollision hoop hoopIndex s) = lastShotResult s \/
   lastShotResult (hoopCollision hoop hoopIndex s) = made).
Proof.
  destruct (madeBasketCondition hoop s && negb (String.eqb (lastShotResult s) made))
    eqn:Hb.
  - apply scoresAt_dec in Hb.
    destruct (hoopCollision_scores hoop hoopIndex s Hb) as [E _].
    apply scoring_tuple_inv in E as (_ & _ & _ & _ & E5 & _ & E7).
    split; [exact E7 | right; exact E5].
  - destruct (hoopCollision_no_score hoop hoopIndex s) as [E _].
    { rewrite scoresAt_dec, Hb. discriminate. }
    apply scoring_inv in E as (_ & _ & _ & _ & E5 & _ & E7).
    split; [exact E7 | left; exact E5].
Qed.

Lemma updateBallPhysics_result (deltaTime : R) (s : GameState) :
  shotFeedbackTimer (updateBallPhysics deltaTime s) = shotFeedbackTimer s /\
  (lastShotResult (updateBallPhysics deltaTime s) = lastShotResult s \/
   lastShotResult (updateBallPhysics deltaTime s) = made).
Proof.
  unfold updateBallPhysics. cbv zeta. cbn [isShooting set_lastBallPosition].
  destruct (isShooting s); [| split; [reflexivity | left; reflexivity]].
  unfold resolveCollisions, checkHoopCollision.
  destruct (beforeHoops_scoring deltaTime (set_lastBallPosition (ballPosition s) s))
    as [E _]. cbv zeta in E.
  change (scoring (set_lastBallPosition (ballPosition s) s)) with (scoring s) in E.
  set (b := checkBackboardCollision _) in *.
  apply scoring_inv in E as (_ & _ & _ & _ & E5 & _ & E7).
  destruct (hoopCollision_result rightHoop 0 b) as [T1 R1].
  destruct (hoopCollision_result leftHoop 1 (hoopCollision rightHoop 0 b)) as [T2 R2].
  split; [congruence |].
  destruct R2 as [R2 | R2]; [| right; exact R2].
  destruct R1 as [R1 | R1]; [left | right]; congruence.
Qed.

Lemma animate_timer (deltaTime : R) (s : GameState) :
  shotFeedbackTimer s > 0 ->
  shotFeedbackTimer (animate deltaTime s) = shotFeedbackTimer s - deltaTime /\
  (shotFeedbackTimer s - deltaTime > 0 ->
   lastShotResult s <> missed ->
   lastShotResult (animate deltaTime s) <> missed).
Proof.
  intros Ht. unfold animate.
  pose proof (scoring_inv _ _ (handleInput_scoring deltaTime s))
    as (_ & _ & _ & _ & H5 & _ & H7).
  set (h := handleInput deltaTime s) in *.
  destruct (updateBallPhysics_result deltaTime h) as [U7 U5].
  set (u := updateBallPhysics deltaTime h) in *.
  assert (Hu : shotFeedbackTimer u = shotFeedbackTimer s) by congruence.
  unfold shotFeedbackTimeout. cbv zeta. rewrite Hu.
  apply NumFacts.gtb_spec in Ht. rewrite Ht. cbn. rewrite ?Hu.
  destruct (Num.leb (shotFeedbackTimer s - deltaTime) 0) eqn:Hd;
    [apply NumFacts.leb_spec in Hd | apply NumFacts.leb_nspec in Hd]; cbn.
  - destruct (String.eqb (lastShotResult u) pending); cbn;
      (split; [reflexivity | intros; exfalso; lra]).
  - split; [reflexivity |]. intros _ Hn.
    destruct U5 as [U5 | U5]; rewrite U5; [congruence | discriminate].
Qed.

Lemma frames_before_timeout (frames : list R) (s : GameState) :
  lastShotResult s <> missed ->
  Forall (fun deltaTime => 0 <= deltaTime) frames ->
  elapsed frames < shotFeedbackTimer s ->
  lastShotResult (run s (map Frame frames)) <> missed /\
  shotFeedbackTimer (run s (map Frame frames)) = shotFeedbackTimer s - elapsed frames.
Proof.
  revert s. induction frames as [| deltaTime frames IH]; intros s Hn Hf He.
  - cbn. split; [exact Hn | lra].
  - rewrite run_frames_cons. inversion Hf as [| d fs Hd Hfs]; subst.
    cbn in He. unfold elapsed in IH.
    assert (Hpos : 0 <= fold_right Rplus 0 frames).
    { clear -Hfs. induction Hfs; cbn; lra. }
    destruct (animate_timer deltaTime s) as [T R]; [lra |].
    destruct (IH (animate deltaTime s)) as [I1 I2].
    + apply R; [lra | exact Hn].
    + exact Hfs.
    + rewrite T. lra.
    + split; [exact I1 |]. rewrite I2, T. cbn. lra.
Qed.

(** X12: after a release the attempt cannot be declared Missed before the
    frames since the release add up to 2.1 s: until then the feedback timer
    holds exactly 2.1 s minus the elapsed frame time and the result is
    pending or Made. *)
Theorem no_miss_before_timeout (s : GameState) (frames : list R) :
  isShooting s = false ->
  Forall (fun deltaTime => 0 <= deltaTime) frames ->
  elapsed frames < 2.1 ->
  lastShotResult (run (shootBall s) (map Frame frames)) <> missed /\
  shotFeedbackTimer (run (shootBall s) (map Frame frames)) = 2.1 - elapsed frames.
Proof.
  intros Hg Hf He.
  destruct (shootBall_grounded_scoring s Hg) as [E _].
  apply scoring_tuple_inv in E as (_ & _ & _ & _ & E5 & _ & E7).
  assert (Ht : shotFeedbackTimer (shootBall s) = 2.1).
  { rewrite E7. unfold_consts. rewrite Rmax_right by lra. lra. }
  destruct (frames_before_timeout frames (shootBall s)) as [H1 H2].
  - rewrite E5. discriminate.
  - exact Hf.
  - rewrite Ht. exact He.
  - split; [exact H1 | rewrite H2, Ht; reflexivity].
Qed.

Lemma no_miss_before_timeout_witness :
  lastShotResult (run (shootBall initialState) (map Frame [1; 1])) <> missed.
Proof.
  apply (no_miss_before_timeout initialState [1; 1] eq_refl).
  - repeat constructor; lra.
  - cbn. lra.
Defined.

(** ** The day/night cycle *)

Module DayNightFacts.

Import DayNightCycle.

Lemma update_fields (deltaTime : R) (c : t) :
  currentPeriod (update deltaTime c) = currentPeriod c /\
  cycleSpeed (update deltaTime c) = cycleSpeed c /\
  timeOfDay (update deltaTime c) =
    (if Num.gtb (timeOfDay c + cycleSpeed c * deltaTime) 1 then 0
     else timeOfDay c + cycleSpeed c * deltaTime).
Proof.
  unfold update. cbv zeta. cbn [timeOfDay set_timeOfDay].
  destruct (Num.gtb _ _); repeat split; reflexivity.
Qed.

Lemma cyclePeriod_fields (c : t) :
  cycleSpeed (cyclePeriod c) = cycleSpeed c /\
  timeOfDay (cyclePeriod c) = periodStart (currentPeriod (cyclePeriod c)) + 0.01.
Proof. split; reflexivity. Qed.

Lemma apply_timeInUnit (c : t) (o : Op) :
  nonnegative o -> timeInUnit c -> timeInUnit (apply c o).
Proof.
  intros Ho [Ht Hs]. destruct o as [deltaTime |]; cbn [apply nonnegative] in *.
  - destruct (update_fields deltaTime c) as (_ & Es & Et).
    split; [| congruence]. rewrite Et, Hs. clear Et.
    destruct (Num.gtb _ _) eqn:Hc;
      [split; lra | apply NumFacts.gtb_nspec in Hc; split; nra].
  - destruct (cyclePeriod_fields c) as (Es & Et).
    split; [| congruence]. rewrite Et.
    destruct (currentPeriod (cyclePeriod c)); cbn; lra.
Qed.

(** X13: with non-negative frame times the clock of the day/night cycle
    stays in [0, 1] through every mix of frames and T-key presses: running
    past 1 wraps to 0, and a key press sets it inside the new period. *)
Theorem timeOfDay_in_unit (ops : list Op) :
  Forall nonnegative ops ->
  0 <= timeOfDay (run create ops) <= 1.
Proof.
  intros Hf.
  assert (H : forall c, timeInUnit c -> timeInUnit (run c ops)).
  { unfold run. induction Hf as [| o ops Ho Hops IH]; intros c Hc; cbn.
    - exact Hc.
    - apply IH. apply apply_timeInUnit; assumption. }
  apply H. split; [cbn; lra | reflexivity].
Qed.

Lemma timeOfDay_in_unit_witness :
  0 <= timeOfDay (run create [Update 0.016; Cycle; Update 20000]) <= 1.
Proof.
  apply (timeOfDay_in_unit [Update 0.016; Cycle; Update 20000]).
  repeat constructor; cbn; lra.
Defined.

Lemma firstPeriod_inside (p : Period) :
  firstPeriod (periodStart p + 0.01) periods = Some p.
Proof.
  destruct p; cbn; num_cases; try reflexivity; exfalso; lra.
Qed.

(** X14: a T-key press moves [currentPeriod] one step along dawn, day,
    dusk, night, dawn and sets the clock inside that period, so the period
    read off the clock agrees with it; lights and sky are not touched, and
    four presses come back to the period they started from. *)
Theorem cyclePeriod_round_trip (c : t) :
  let c1 := cyclePeriod c in
  currentPeriod c1 =
    match currentPeriod c with
    | dawn => day | day => dusk | dusk => night | night => dawn
    end /\
  getCurrentPeriod c1 = currentPeriod c1 /\
  ambientLight_intensity c1 = ambientLight_intensity c /\
  directionalLight_intensity c1 = directionalLight_intensity c /\
  stadiumLights c1 = stadiumLights c /\
  scene_background c1 = scene_background c /\
  currentPeriod (cyclePeriod (cyclePeriod (cyclePeriod c1))) = currentPeriod c /\
  timeOfDay (cyclePeriod (cyclePeriod (cyclePeriod c1))) =
    periodStart (currentPeriod c) + 0.01.
Proof.
  cbv zeta. split; [| split].
  - unfold cyclePeriod. cbn. destruct (currentPeriod c); reflexivity.
  - unfold getCurrentPeriod.
    destruct (cyclePeriod_fields c) as (_ & Et). rewrite Et, firstPeriod_inside.
    reflexivity.
  - repeat split; try reflexivity;
      unfold cyclePeriod; cbn; destruct (currentPeriod c); reflexivity.
Qed.

(** *** Frames steer the lights towards the current period *)

Lemma lerp_gap (x target : R) : lerp x target 0.05 - target = 0.95 * (x - target).
Proof. unfold lerp. lra. Qed.

Lemma approach_step (target : R) (n : nat) (x : R) :
  lerp (approach target n x) target 0.05 = approach target (S n) x.
Proof. unfold lerp, approach. cbn [pow]. lra. Qed.

Lemma updates_lights (frames : list R) (n : nat) (c c0 : t) :
  currentPeriod c = currentPeriod c0 ->
  ambientLight_intensity c = approach (ambientTarget c0) n (ambientLight_intensity c0) ->
  directionalLight_intensity c =
    approach (directionalTarget c0) n (directionalLight_intensity c0) ->
  stadiumLights c = map (approach (stadiumTarget c0) n) (stadiumLights c0) ->
  let c' := run c (map Update frames) in
  currentPeriod c' = currentPeriod c0 /\
  ambientLight_intensity c' =
    approach (ambientTarget c0) (n + length frames) (ambientLight_intensity c0) /\
  directionalLight_intensity c' =
    approach (directionalTarget c0) (n + length frames) (directionalLight_intensity c0) /\
  stadiumLights c' =
    map (approach (stadiumTarget c0) (n + length frames)) (stadiumLights c0).
Proof.
  revert n c. induction frames as [| deltaTime frames IH]; intros n c Hp Ha Hd Hs.
  - cbn. rewrite Nat.add_0_r. repeat split; assumption.
  - cbv zeta. change (run c (map Update (deltaTime :: frames)))
      with (run (update deltaTime c) (map Update frames)).
    cbn [length]. rewrite Nat.add_succ_r. apply (IH (S n)).
    + rewrite (proj1 (update_fields deltaTime c)). exact Hp.
    + unfold update. cbv zeta. destruct (Num.gtb _ _); cbn;
        unfold getLightIntensity; cbn; rewrite Ha, Hp;
        apply (approach_step (ambientTarget c0)).
    + unfold update. cbv zeta. destruct (Num.gtb _ _); cbn;
        unfold getLightIntensity; cbn; rewrite Hd, Hp;
        apply (approach_step (directionalTarget c0)).
    + unfold update. cbv zeta. destruct (Num.gtb _ _); cbn;
        rewrite Hs, Hp, map_map; apply map_ext; intro x;
        apply (approach_step (stadiumTarget c0)).
Qed.

(** X15: frames never change [currentPeriod], whatever the clock reads;
    each frame moves the ambient, directional and stadium light intensities
    5% of the way to the targets of that period, so after n frames the gap
    to the target is 0.95^n times the gap at the start. *)
Theorem frames_steer_lights (frames : list R) (c : t) :
  let c' := run c (map Update frames) in
  let n := length frames in
  currentPeriod c' = currentPeriod c /\
  ambientLight_intensity c' - ambientTarget c =
    0.95 ^ n * (ambientLight_intensity c - ambientTarget c) /\
  directionalLight_intensity c' - directionalTarget c =
    0.95 ^ n * (directionalLight_intensity c - directionalTarget c) /\
  stadiumLights c' =
    map (fun light => stadiumTarget c + 0.95 ^ n * (light - stadiumTarget c))
        (stadiumLights c).
Proof.
  cbv zeta.
  destruct (updates_lights frames 0 c c) as (H1 & H2 & H3 & H4).
  - reflexivity.
  - unfold approach. cbn. lra.
  - unfold approach. cbn. lra.
  - rewrite <- (map_id (stadiumLights c)) at 1. apply map_ext. intro x.
    unfold approach. cbn. lra.
  - cbv zeta in *. cbn [Nat.add] in *.
    split; [exact H1 |]. split; [rewrite H2; unfold approach; lra |].
    split; [rewrite H3; unfold approach; lra | exact H4].
Qed.

End DayNightFacts.

(** ** The shot predictor *)

Module ShotPredictorFacts.

Import ShotPredictor.

Lemma arcFrom_prefix (s : GameState) (indices : list nat) :
  let arc := arcFrom s indices in
  (length arc <= length indices)%nat /\
  arc = map (arcPoint s) (firstn (length arc) indices) /\
  (indices <> [] -> arc <> []) /\
  (forall k, (S k < length arc)%nat ->
             (nth k arc Vector3.zero).y > COURT_FLOOR_Y + BALL_RADIUS) /\
  ((length arc < length indices)%nat ->
   (last arc Vector3.zero).y <= COURT_FLOOR_Y + BALL_RADIUS).
Proof.
  induction indices as [| i indices IH]; cbv zeta.
  - cbn. repeat split; try lia; try congruence.
  - cbn [arcFrom]. cbv zeta.
    destruct (Num.leb _ _) eqn:Hc;
      [apply NumFacts.leb_spec in Hc | apply NumFacts.leb_nspec in Hc].
    + cbn. repeat split; try lia; try discriminate. intros _. exact Hc.
    + destruct IH as (I1 & I2 & I3 & I4 & I5). cbn [length firstn map].
      split; [lia |]. split; [f_equal; exact I2 |]. split; [discriminate |]. split.
      * intros [| k] Hk; cbn [nth].
        -- lra.
        -- apply I4. lia.
      * intros Hl. destruct (arcFrom s indices) as [| q arc] eqn:Ea.
        -- cbn. destruct indices; [cbn in Hl; lia |].
           exfalso. apply I3; [discriminate | reflexivity].
        -- change (last (arcPoint s i :: q :: arc) Vector3.zero)
             with (last (q :: arc) Vector3.zero).
           apply I5. cbn [length] in *. lia.
Qed.

Lemma firstn_seq_le (n start len : nat) :
  (n <= len)%nat -> firstn n (seq start len) = seq start n.
Proof.
  revert start len. induction n as [| n IH]; intros start len H; [reflexivity |].
  destruct len as [| len]; [lia |]. cbn. f_equal. apply IH. lia.
Qed.

Lemma INR_30 : INR 30 = 30.
Proof. cbn. lra. Qed.

Lemma arcPoint_0 (s : GameState) : arcPoint s 0 = ballPosition s.
Proof.
  unfold arcPoint. cbv zeta. cbn [INR].
  destruct (ballPosition s) as [px py pz]. cbn. f_equal; unfold Rdiv; ring.
Qed.

Lemma classify_known (d : R) : classify d <> unknown.
Proof. unfold classify. branches; discriminate. Qed.

(** X16: the predictor's arc is never empty and has at most 31 points; it
    starts at the ball, its points are the samples of the trajectory in
    order, every point before the last is above the ground line
    [COURT_FLOOR_Y + BALL_RADIUS], and an arc cut short ends at or below
    that line.  The accuracy is then one of excellent, good, fair, poor and
    the target is the rim centre a shot would aim at. *)
Theorem arc_shape (s : GameState) (p : t) :
  let p' := calculateTrajectory s p in
  let arc := arcPoints p' in
  (1 <= length arc <= 31)%nat /\
  arc = map (arcPoint s) (seq 0 (length arc)) /\
  hd Vector3.zero arc = ballPosition s /\
  (forall k, (S k < length arc)%nat ->
             (nth k arc Vector3.zero).y > COURT_FLOOR_Y + BALL_RADIUS) /\
  ((length arc < 31)%nat -> (last arc Vector3.zero).y <= COURT_FLOOR_Y + BALL_RADIUS) /\
  predictionAccuracy p' <> unknown /\
  targetPosition p' = targetHoopPos (ballPosition s).
Proof.
  cbv zeta. unfold calculateTrajectory. cbv zeta.
  cbn [arcPoints predictionAccuracy targetPosition].
  destruct (arcFrom_prefix s (seq 0 (S steps))) as (H1 & H2 & H3 & H4 & H5).
  cbv zeta in *. rewrite length_seq in *. change (S steps) with 31%nat in *.
  set (arc := arcFrom s (seq 0 31)) in *.
  assert (Hne : arc <> []) by (apply H3; discriminate).
  assert (Hlen : (1 <= length arc)%nat).
  { destruct arc; [congruence | cbn; lia]. }
  rewrite firstn_seq_le in H2 by exact H1.
  split; [lia |]. split; [exact H2 |]. split; [| split; [exact H4 | split; [exact H5 |]]].
  - rewrite H2. destruct (length arc); [lia |]. cbn [seq map hd]. apply arcPoint_0.
  - split; [| reflexivity]. destruct arc; [congruence |]. apply classify_known.
Qed.

(** *** The arc at ideal power *)

Lemma target_y (p : vec) : (targetHoopPos p).y = RIM_Y.
Proof. unfold targetHoopPos. destruct (Num.ltb _ _); apply rimCenter_y. Qed.

Lemma errorFactor_ideal (s : GameState) :
  shotPower s = idealPower s -> errorFactor s = 1.
Proof.
  intros H. unfold errorFactor. cbv zeta. rewrite H. unfold idealPower, horizontalDistance.
  set (t := targetHoopPos (ballPosition s)). vsimpl.
  replace ((ballPosition s).x - t.x) with (- (t.x - (ballPosition s).x)) by ring.
  replace ((ballPosition s).z - t.z) with (- (t.z - (ballPosition s).z)) by ring.
  rewrite !Rmult_opp_opp. lra.
Qed.

Lemma arcPoint_ideal (s : GameState) (i : nat) :
  errorFactor s = 1 ->
  let u := INR i / 30 in
  let p := ballPosition s in
  let target := targetHoopPos p in
  arcPoint s i =
  Vector3.mk (p.x + u * (target.x - p.x))
             (p.y + u * (target.y - p.y) + 4.9 * (1.4 * 1.4) * (u * (1 - u)))
             (p.z + u * (target.z - p.z)).
Proof.
  intros He u p target. unfold arcPoint, velocity. cbv zeta. rewrite He.
  fold p. fold target.
  assert (Hg : GRAVITY = - (9.8)) by (unfold GRAVITY; lra). rewrite Hg.
  replace (INR steps) with 30 by (symmetry; apply INR_30).
  unfold TIME_TO_RIM. subst u. generalize (INR i). intro n.
  destruct p as [px py pz], target as [tx ty tz].
  unfold Vector3.multiplyScalar, Vector3.sub. cbn.
  f_equal; nra.
Qed.

Lemma arcPoint_ideal_above (s : GameState) (i : nat) :
  errorFactor s = 1 ->
  (i <= 30)%nat ->
  COURT_FLOOR_Y + BALL_RADIUS < (ballPosition s).y ->
  (arcPoint s i).y > COURT_FLOOR_Y + BALL_RADIUS.
Proof.
  intros He Hi Hy. rewrite (arcPoint_ideal s i He). cbv zeta. cbn.
  rewrite target_y.
  assert (Hu : 0 <= INR i / 30 <= 1).
  { pose proof (pos_INR i) as H0. apply le_INR in Hi.
    rewrite INR_30 in Hi. lra. }
  set (u := INR i / 30) in *. clearbody u. unfold_consts.
  set (y0 := (ballPosition s).y) in *. clearbody y0.
  assert (A : 0 <= u * (1 - u)) by (apply Rmult_le_pos; lra).
  destruct (Rle_lt_dec u (1 / 2)) as [Hl | Hl].
  - assert (B : 0 < (1 - u) * (y0 - 0.1213)) by (apply Rmult_lt_0_compat; lra).
    nra.
  - assert (B : 0 <= (1 - u) * (y0 - 0.1213)) by (apply Rmult_le_pos; lra).
    nra.
Qed.

Lemma arcFrom_unbroken (s : GameState) (indices : list nat) :
  Forall (fun i => (arcPoint s i).y > COURT_FLOOR_Y + BALL_RADIUS) indices ->
  arcFrom s indices = map (arcPoint s) indices.
Proof.
  induction 1 as [| i indices Hi Hrest IH]; [reflexivity |].
  cbn [arcFrom map]. cbv zeta.
  destruct (Num.leb _ _) eqn:Hc; [apply NumFacts.leb_spec in Hc; lra |].
  f_equal. exact IH.
Qed.

(** X17: when the power setting equals the ideal power for the ball's
    distance and the ball is above the ground line, the predicted arc has
    all 31 points, ends exactly at the rim centre a shot would aim at, and
    is rated excellent. *)
Theorem ideal_power_arc (s : GameState) (p : t) :
  shotPower s = idealPower s ->
  COURT_FLOOR_Y + BALL_RADIUS < (ballPosition s).y ->
  let p' := calculateTrajectory s p in
  length (arcPoints p') = 31%nat /\
  last (arcPoints p') Vector3.zero = targetHoopPos (ballPosition s) /\
  predictionAccuracy p' = excellent.
Proof.
  intros Hp Hy. cbv zeta. pose proof (errorFactor_ideal s Hp) as He.
  unfold calculateTrajectory. cbv zeta.
  cbn [arcPoints predictionAccuracy].
  assert (Ha : arcFrom s (seq 0 (S steps)) = map (arcPoint s) (seq 0 31)).
  { apply arcFrom_unbroken. apply Forall_forall. intros i Hi.
    apply in_seq in Hi. apply arcPoint_ideal_above; try assumption.
    change (S steps) with 31%nat in Hi. lia. }
  rewrite Ha.
  assert (Hl : forall d, last (map (arcPoint s) (seq 0 31)) d =
                         targetHoopPos (ballPosition s)).
  { intro d. change (seq 0 31) with (seq 0 30 ++ [30%nat]).
    rewrite map_app. change (map (arcPoint s) [30%nat]) with [arcPoint s 30].
    rewrite last_last. rewrite (arcPoint_ideal s 30 He). cbv zeta.
    rewrite INR_30.
    destruct (targetHoopPos (ballPosition s)) as [tx ty tz].
    destruct (ballPosition s) as [px py pz]. cbn. f_equal; field. }
  split; [rewrite length_map, length_seq; reflexivity |]. split; [apply Hl |].
  cbn [map seq]. rewrite arcPoint_0.
  change (arcPoint s 0 :: _) with (map (arcPoint s) (seq 0 31)).
  set (l := last _ _).
  assert (El : l = targetHoopPos (ballPosition s)).
  { unfold l. rewrite <- (Hl (ballPosition s)). cbn [map seq]. rewrite arcPoint_0.
    reflexivity. }
  rewrite El. unfold classify, Vector3.distanceTo, Vector3.length, Vector3.lengthSq.
  vsimpl.
  replace (_ + _ + _) with 0 by ring. rewrite sqrt_0. unfold_consts.
  num_cases; try reflexivity; exfalso; lra.
Qed.

End ShotPredictorFacts.

Lemma ideal_power_arc_witness :
  ShotPredictor.predictionAccuracy
    (ShotPredictor.calculateTrajectory idealShooter ShotPredictor.create) =
  ShotPredictor.excellent.
Proof.
  apply (ShotPredictorFacts.ideal_power_arc idealShooter ShotPredictor.create).
  - reflexivity.
  - unfold idealShooter, initialState, restY. cbn. unfold_consts. lra.
Defined.

(** ** The net animation *)

Module NetFacts.

Import Net.

Lemma displaced_bound (anim : Animation) (damping : R) (original : vec) :
  0 <= amplitude anim ->
  0 <= damping <= 1 ->
  let v := displaced anim damping original in
  v.y = original.y /\
  v.x - original.x = v.z - original.z /\
  Rabs (v.x - original.x) <= amplitude anim * Rabs (original.y / 0.45) * damping /\
  (original.y = 0 -> v = original).
Proof.
  intros Ha Hd. cbv zeta. unfold displaced. cbv zeta. cbn.
  set (ripple := sin _).
  assert (Hr : Rabs ripple <= 1).
  { apply Rabs_le. pose proof (SIN_bound (original.y * frequency anim +
                                          time anim * speed anim)). tauto. }
  pose proof (Rabs_pos (original.y / 0.45)) as He.
  set (e := Rabs (original.y / 0.45)) in *.
  split; [reflexivity |]. split; [ring |]. split.
  - replace (original.x + ripple * amplitude anim * e * damping - original.x)
      with (ripple * (amplitude anim * e * damping)) by ring.
    rewrite Rabs_mult.
    assert (Hp : 0 <= amplitude anim * e * damping).
    { apply Rmult_le_pos; [apply Rmult_le_pos |]; lra. }
    rewrite (Rabs_pos_eq _ Hp). pose proof (Rabs_pos ripple). nra.
  - intros Hy. unfold e. rewrite Hy. unfold Rdiv. rewrite Rmult_0_l, Rabs_R0.
    destruct original as [ox oy oz]. cbn in *. subst oy. f_equal; ring.
Qed.

Lemma rippleStrand_sameShape (anim : Animation) (damping : R)
    (positions originals : list vec) :
  length positions = length originals ->
  rippleStrand anim damping positions originals = map (displaced anim damping) originals.
Proof.
  unfold rippleStrand. revert originals.
  induction positions as [| q positions IH]; intros [| o originals] H;
    try discriminate; [reflexivity |].
  cbn. f_equal. apply IH. cbn in H. lia.
Qed.

Lemma rippleStrands_sameShape (anim : Animation) (damping : R)
    (geoms originals : list (list vec)) :
  Forall2 (fun positions os => length positions = length os) geoms originals ->
  rippleStrands anim damping geoms originals =
  map (map (displaced anim damping)) originals.
Proof.
  unfold rippleStrands. induction 1 as [| g o geoms originals Hl Hrest IH];
    [reflexivity |].
  cbn. rewrite (rippleStrand_sameShape anim damping g o Hl). f_equal. exact IH.
Qed.

Lemma restoreStrands_sameShape (geoms originals : list (list vec)) :
  Forall2 (fun positions os => length positions = length os) geoms originals ->
  restoreStrands geoms originals = originals.
Proof.
  unfold restoreStrands. induction 1 as [| g o geoms originals Hl Hrest IH];
    [reflexivity |].
  cbn. f_equal. exact IH.
Qed.

Lemma map_sameShape (f : vec -> vec) (originals : list (list vec)) :
  Forall2 (fun positions os => length positions = length os)
          (map (map f) originals) originals.
Proof.
  induction originals as [| o originals IH]; constructor.
  - apply length_map.
  - exact IH.
Qed.

Lemma sameShape_refl (originals : list (list vec)) :
  Forall2 (fun positions os => length positions = length os) originals originals.
Proof. induction originals; constructor; [reflexivity | assumption]. Qed.

(** What one frame does to an active net. *)
Lemma update_active (deltaTime : R) (net : t) :
  sameShape net ->
  isActive (animation net) = true ->
  0 < duration (animation net) ->
  let anim := animation net in
  let t' := time anim + deltaTime in
  originalPositions (update deltaTime net) = originalPositions net /\
  sameShape (update deltaTime net) /\
  duration (animation (update deltaTime net)) = duration anim /\
  amplitude (animation (update deltaTime net)) = amplitude anim /\
  time (animation (update deltaTime net)) = t' /\
  (duration anim <= t' -> still (update deltaTime net)) /\
  (t' < duration anim ->
   isActive (animation (update deltaTime net)) = true /\
   geometries (update deltaTime net) =
     map (map (displaced (animation (update deltaTime net))
                 (1 - Rmin 1 (t' / duration anim))))
         (originalPositions net)).
Proof.
  intros Hs Ha Hd. cbv zeta. unfold update. rewrite Ha. cbn [negb]. cbv zeta.
  cbn [time duration amplitude isActive frequency speed].
  set (D := duration (animation net)) in *.
  set (t' := time (animation net) + deltaTime).
  replace 1.0 with 1 by lra.
  assert (Hq : D <= t' <-> 1 <= t' / D).
  { split; intros H.
    - apply (Rmult_le_reg_r D); [exact Hd |]. unfold Rdiv.
      rewrite Rmult_assoc, Rinv_l by lra. lra.
    - apply (Rmult_le_compat_r D) in H; [| lra]. unfold Rdiv in H.
      rewrite Rmult_assoc, Rinv_l in H by lra. lra. }
  destruct (Num.leb (1 - Rmin 1 (t' / D)) 0) eqn:Hc;
    [apply NumFacts.leb_spec in Hc | apply NumFacts.leb_nspec in Hc];
    cbn [originalPositions animation geometries time duration amplitude isActive].
  - assert (Ht : D <= t').
    { apply Hq. unfold Rmin in Hc. destruct (Rle_dec 1 (t' / D)); lra. }
    repeat split; try reflexivity.
    + unfold sameShape. cbn. rewrite (restoreStrands_sameShape _ _ Hs).
      apply sameShape_refl.
    + cbn. apply restoreStrands_sameShape. exact Hs.
    + exfalso. lra.
    + exfalso. lra.
  - assert (Ht : t' < D).
    { apply Rnot_le_lt. intros H. apply Hq in H. rewrite Rmin_left in Hc by exact H. lra. }
    repeat split; try reflexivity.
    + unfold sameShape. cbn. rewrite (rippleStrands_sameShape _ _ _ _ Hs).
      apply map_sameShape.
    + exfalso. lra.
    + exfalso. unfold still in *. lra.
    + apply rippleStrands_sameShape. exact Hs.
Qed.

(** X18: while a net animation runs, every vertex keeps its height, is
    shifted by the same amount in x and z, and by at most
    [amplitude * |y / 0.45| * damping] from where it hangs, with a damping
    that falls from 1 to 0 over the duration; vertices at rim height do not
    move at all. *)
Theorem ripple_stays_bounded (deltaTime : R) (net : t) :
  sameShape net ->
  isActive (animation net) = true ->
  0 < duration (animation net) ->
  0 <= amplitude (animation net) ->
  0 <= time (animation net) + deltaTime < duration (animation net) ->
  let net' := update deltaTime net in
  let damping := 1 - (time (animation net) + deltaTime) / duration (animation net) in
  0 < damping <= 1 /\
  geometries net' = map (map (displaced (animation net') damping)) (originalPositions net) /\
  (forall original,
     let v := displaced (animation net') damping original in
     v.y = original.y /\
     v.x - original.x = v.z - original.z /\
     Rabs (v.x - original.x) <=
       amplitude (animation net) * Rabs (original.y / 0.45) * damping /\
     (original.y = 0 -> v = original)).
Proof.
  intros Hs Hact Hd Ha [Ht0 Ht1]. cbv zeta.
  destruct (update_active deltaTime net Hs Hact Hd) as (_ & _ & _ & Ea & _ & _ & Hrun).
  cbv zeta in Hrun, Ea. destruct (Hrun Ht1) as [_ Hg].
  set (D := duration (animation net)) in *.
  set (t' := time (animation net) + deltaTime) in *.
  assert (Hq : 0 <= t' / D < 1).
  { split.
    - apply Rmult_le_pos; [lra | left; apply Rinv_0_lt_compat; lra].
    - apply (Rmult_lt_reg_r D); [exact Hd |]. unfold Rdiv.
      rewrite Rmult_assoc, Rinv_l by lra. lra. }
  rewrite Rmin_right in Hg by lra.
  split; [lra |]. split; [exact Hg |].
  intro original. rewrite <- Ea. apply displaced_bound; [rewrite Ea; exact Ha | lra].
Qed.

Lemma still_frames (deltaTimes : list R) (net : t) :
  still net -> frames net deltaTimes = net.
Proof.
  intros [Hi Hg]. unfold frames. induction deltaTimes as [| d ds IH]; [reflexivity |].
  cbn. unfold update at 2. rewrite Hi. cbn. exact IH.
Qed.

Lemma frames_end (deltaTimes : list R) (net : t) :
  sameShape net ->
  isActive (animation net) = true ->
  time (animation net) < duration (animation net) ->
  0 < duration (animation net) ->
  Forall (fun deltaTime => 0 <= deltaTime) deltaTimes ->
  duration (animation net) - time (animation net) <= elapsed deltaTimes ->
  still (frames net deltaTimes) /\
  originalPositions (frames net deltaTimes) = originalPositions net.
Proof.
  revert net. induction deltaTimes as [| d ds IH]; intros net Hs Ha Ht Hd Hf He.
  - cbn in He. exfalso. lra.
  - change (frames net (d :: ds)) with (frames (update d net) ds).
    inversion Hf as [| d' ds' Hd0 Hds]; subst. cbn in He.
    destruct (update_active d net Hs Ha Hd) as (Eo & Hs' & Ed & _ & Et & Hend & Hrun).
    cbv zeta in Ed, Et, Hend, Hrun.
    destruct (Rle_lt_dec (duration (animation net)) (time (animation net) + d))
      as [Hx | Hx].
    + specialize (Hend Hx). rewrite (still_frames ds _ Hend). split; assumption.
    + destruct (Hrun Hx) as [Ha' _].
      destruct (IH (update d net)) as [I1 I2]; try assumption.
      * rewrite Et, Ed. exact Hx.
      * rewrite Ed. exact Hd.
      * rewrite Et, Ed. unfold elapsed. lra.
      * split; [exact I1 | congruence].
Qed.

(** X19: a net animation started by a basket or the I key ends: once the
    non-negative frame times since the start add up to the duration, the
    net is inactive and every vertex is back where it hangs, and later
    frames leave it alone. *)
Theorem animation_ends (net : t) (deltaTimes later : list R) :
  sameShape net ->
  0 < duration (animation net) ->
  Forall (fun deltaTime => 0 <= deltaTime) deltaTimes ->
  duration (animation net) <= elapsed deltaTimes ->
  let net' := frames (start net) deltaTimes in
  isActive (animation net') = false /\
  geometries net' = originalPositions net /\
  frames net' later = net'.
Proof.
  intros Hs Hd Hf He. cbv zeta.
  destruct (frames_end deltaTimes (start net)) as [[H1 H2] H3]; try assumption.
  - reflexivity.
  - cbn. lra.
  - split; [exact H1 |]. split; [rewrite H2, H3; reflexivity |].
    apply still_frames. split; assumption.
Qed.

End NetFacts.

Lemma ripple_stays_bounded_witness :
  let net := Net.start oneStrandNet in
  let net' := Net.update 0.5 net in
  let damping := 1 - (Net.time (Net.animation net) + 0.5) /
                     Net.duration (Net.animation net) in
  0 < damping <= 1 /\
  Net.geometries net' =
    map (map (Net.displaced (Net.animation net') damping)) (Net.originalPositions net) /\
  (forall original,
     let v := Net.displaced (Net.animation net') damping original in
     v.y = original.y /\
     v.x - original.x = v.z - original.z /\
     Rabs (v.x - original.x) <=
       Net.amplitude (Net.animation net) * Rabs (original.y / 0.45) * damping /\
     (original.y = 0 -> v = original)).
Proof.
  apply (NetFacts.ripple_stays_bounded 0.5 (Net.start oneStrandNet)).
  - repeat constructor.
  - reflexivity.
  - cbn. lra.
  - cbn. lra.
  - cbn. lra.
Defined.

Lemma animation_ends_witness :
  let net' := Net.frames (Net.start oneStrandNet) [1; 1] in
  Net.isActive (Net.animation net') = false /\
  Net.geometries net' = Net.originalPositions oneStrandNet /\
  Net.frames net' [1] = net'.
Proof.
  apply (NetFacts.animation_ends oneStrandNet [1; 1] [1]).
  - repeat constructor.
  - cbn. lra.
  - repeat constructor; lra.
  - cbn. lra.
Defined.

(** *** The I key *)



(** ** The score board and the power panel *)

Lemma Math_round_spec (x : R) :
  IZR (GameUI.Math_round x) <= x + 0.5 < IZR (GameUI.Math_round x) + 1.
Proof.
  unfold GameUI.Math_round. destruct (base_Int_part (x + 0.5)) as [H1 H2]. lra.
Qed.

Lemma Math_round_unique (x : R) (n : Z) :
  IZR n <= x + 0.5 < IZR n + 1 -> GameUI.Math_round x = n.
Proof.
  intros [H1 H2]. destruct (Math_round_spec x) as [K1 K2].
  set (k := GameUI.Math_round x) in *.
  assert (A : (k < n + 1)%Z) by (apply lt_IZR; rewrite plus_IZR; lra).
  assert (B : (n < k + 1)%Z) by (apply lt_IZR; rewrite plus_IZR; lra).
  lia.
Qed.

Lemma Math_round_between (x : R) (lo hi : Z) :
  IZR lo <= x <= IZR hi -> (lo <= GameUI.Math_round x <= hi)%Z.
Proof.
  intros [H1 H2]. destruct (Math_round_spec x) as [K1 K2].
  set (k := GameUI.Math_round x) in *.
  assert (A : (k < hi + 1)%Z) by (apply lt_IZR; rewrite plus_IZR; lra).
  assert (B : (lo < k + 1)%Z) by (apply lt_IZR; rewrite plus_IZR; lra).
  lia.
Qed.

Lemma panelInSync_of_display (a b : GameState) :
  display a = display b -> panelInSync b -> panelInSync a.
Proof.
  unfold display, panelInSync, panelOf. intros E H.
  injection E as E1 E2 E3 E4 E5. rewrite E1, E2, E3, E4, E5. exact H.
Qed.

Lemma integrate_display (deltaTime : R) (s : GameState) :
  display (integrate deltaTime s) = display s.
Proof. unfold integrate. branches; reflexivity. Qed.

Lemma floorCollision_display (s : GameState) :
  display (floorCollision s) = display s.
Proof. unfold floorCollision. branches; reflexivity. Qed.

Lemma wallCollisionX_display (s : GameState) :
  display (wallCollisionX s) = display s.
Proof. unfold wallCollisionX. branches; reflexivity. Qed.

Lemma wallCollisionZ_display (s : GameState) :
  display (wallCollisionZ s) = display s.
Proof. unfold wallCollisionZ. branches; reflexivity. Qed.

Lemma ballSpin_display (deltaTime : R) (s : GameState) :
  display (ballSpin deltaTime s) = display s.
Proof. unfold ballSpin. branches; reflexivity. Qed.

Lemma backboardCollision_display (hoop : Hoop) (s : GameState) :
  display (backboardCollision hoop s) = display s.
Proof. unfold backboardCollision. branches; reflexivity. Qed.

Lemma shotFeedbackTimeout_display (deltaTime : R) (s : GameState) :
  display (shotFeedbackTimeout deltaTime s) = display s.
Proof.
  unfold shotFeedbackTimeout. cbv zeta.
  destruct (Num.gtb _ _); [| reflexivity]. destruct (_ && _); reflexivity.
Qed.

Lemma hoopCollision_panelInSync (hoop : Hoop) (hoopIndex : nat) (s : GameState) :
  panelInSync s -> panelInSync (hoopCollision hoop hoopIndex s).
Proof.
  intros H. rewrite hoopCollision_eq. unfold scoreBasket.
  destruct (madeBasketCondition hoop s).
  - destruct (negb _); [| exact H].
    unfold panelInSync, panelOf, GameUI.render in *. cbn. rewrite H. reflexivity.
  - destruct (rimBandCondition hoop s); [| exact H].
    apply (panelInSync_of_display _ s); [reflexivity | exact H].
Qed.

Lemma updateBallPhysics_panelInSync (deltaTime : R) (s : GameState) :
  panelInSync s -> panelInSync (updateBallPhysics deltaTime s).
Proof.
  intros H. unfold updateBallPhysics. cbv zeta. cbn [isShooting set_lastBallPosition].
  destruct (isShooting s); [| exact H].
  unfold resolveCollisions, checkHoopCollision, checkBackboardCollision.
  do 2 apply hoopCollision_panelInSync.
  eapply panelInSync_of_display; [| exact H].
  rewrite !backboardCollision_display, ballSpin_display, wallCollisionZ_display,
    wallCollisionX_display, floorCollision_display, integrate_display.
  reflexivity.
Qed.

Lemma handleInput_panelInSync (deltaTime : R) (s : GameState) :
  panelInSync s -> panelInSync (handleInput deltaTime s).
Proof.
  unfold panelInSync, panelOf, GameUI.render. intros H.
  handleInput_cases s; try exact H; cbn; rewrite H; reflexivity.
Qed.

Lemma step_panelInSync (s : GameState) (i : Input) :
  panelInSync s -> panelInSync (step s i).
Proof.
  intros H. destruct i as [code | code | deltaTime]; cbn [step].
  - unfold onKeyDown. cbv zeta.
    destruct (String.eqb code "KeyR").
    + unfold panelInSync, panelOf, GameUI.render in *. cbn. rewrite H. reflexivity.
    + destruct (String.eqb code "Space"); [| exact H].
      unfold shootBall. cbn [isShooting setKey set_keys].
      destruct (isShooting s); [exact H |].
      unfold panelInSync, panelOf, GameUI.render in *. cbn. rewrite H. reflexivity.
  - exact H.
  - unfold animate.
    apply (panelInSync_of_display _ _ (shotFeedbackTimeout_display _ _)).
    apply updateBallPhysics_panelInSync, handleInput_panelInSync, H.
Qed.

Lemma initial_panelInSync : panelInSync initialState.
Proof.
  unfold panelInSync, panelOf, GameUI.render, GameUI.updatePower, GameUI.updateScore.
  cbn -[GameUI.Math_round].
  rewrite (Math_round_unique (0.5 * 100) 50) by lra. reflexivity.
Qed.

(** X21: in every state the program reaches, the score board shows the
    current score, attempts and made shots, the power panel shows the
    current shot power in percent, between 10 and 100, and the accuracy
    shown is the percentage of made shots rounded to the nearest integer:
    it lies between 0 and 100 and differs from the exact percentage by at
    most one half. *)
Theorem panel_shows_state (inputs : list Input) :
  let s := run initialState inputs in
  let panel := GameUI.render (calls s) in
  GameUI.scoreDisplay panel = score s /\
  GameUI.attempts panel = shotAttempts s /\
  GameUI.made panel = shotsMade s /\
  (0 <= GameUI.accuracy panel <= 100)%Z /\
  (Z.abs (2 * (GameUI.accuracy panel * shotAttempts s - 100 * shotsMade s))
     <= shotAttempts s)%Z /\
  GameUI.powerDisplay panel = GameUI.Math_round (shotPower s * 100) /\
  GameUI.powerFill panel = GameUI.powerDisplay panel /\
  (10 <= GameUI.powerDisplay panel <= 100)%Z.
Proof.
  cbv zeta.
  pose proof (run_invariant panelInSync step_panelInSync inputs initialState
                initial_panelInSync) as Hsync.
  pose proof (run_invariant powerInRange step_powerInRange inputs initialState) as Hpow.
  destruct (run_potential inputs initialState) as (P & M & _).
  change (potential initialState) with 0%Z in P.
  change (shotsMade initialState - scoreEvents initialState)%Z with 0%Z in M.
  pose proof (run_invariant scoreWithinMade step_scoreWithinMade inputs initialState) as W.
  specialize (W ltac:(unfold scoreWithinMade; cbn; lia)).
  set (s := run initialState inputs) in *.
  assert (Hm : (0 <= shotsMade s <= shotAttempts s)%Z).
  { unfold potential in P. unfold scoreWithinMade in W. destruct (canScore s); lia. }
  specialize (Hpow ltac:(unfold powerInRange; cbn; unfold_consts; lra)).
  unfold powerInRange in Hpow. unfold_consts.
  rewrite Hsync. unfold panelOf, GameUI.updatePower, GameUI.updateScore.
  cbn -[GameUI.Math_round Z.gtb Z.mul Z.sub Z.abs].
  split; [reflexivity |]. split; [reflexivity |]. split; [reflexivity |].
  assert (Hacc :
    (0 <= (if (shotAttempts s >? 0)%Z
           then GameUI.Math_round (IZR (shotsMade s) / IZR (shotAttempts s) * 100)
           else 0) <= 100)%Z /\
    (Z.abs (2 * ((if (shotAttempts s >? 0)%Z
                  then GameUI.Math_round (IZR (shotsMade s) / IZR (shotAttempts s) * 100)
                  else 0) * shotAttempts s - 100 * shotsMade s)) <= shotAttempts s)%Z).
  { destruct (shotAttempts s >? 0)%Z eqn:Ha; [| split; lia].
    apply Z.gtb_lt in Ha.
    assert (HA : 0 < IZR (shotAttempts s)) by (apply IZR_lt; lia).
    assert (HM0 : 0 <= IZR (shotsMade s)) by (apply IZR_le; lia).
    assert (HM1 : IZR (shotsMade s) <= IZR (shotAttempts s)) by (apply IZR_le; lia).
    set (A := IZR (shotAttempts s)) in *. set (Md := IZR (shotsMade s)) in *.
    set (x := Md / A * 100).
    assert (Hx : x * A = 100 * Md) by (unfold x; field; lra).
    assert (Hq : 0 < / A) by (apply Rinv_0_lt_compat; exact HA).
    assert (Hx0 : 0 <= x).
    { unfold x, Rdiv. pose proof (Rmult_le_pos _ _ HM0 (Rlt_le _ _ Hq)). lra. }
    assert (Hx1 : x <= 100).
    { apply (Rmult_le_reg_r A); [exact HA |]. rewrite Hx. lra. }
    split; [apply Math_round_between; lra |].
    destruct (Math_round_spec x) as [K1 K2].
    set (k := GameUI.Math_round x) in *.
    assert (U : 2 * (IZR k * A - 100 * Md) <= A) by nra.
    assert (L : - A <= 2 * (IZR k * A - 100 * Md)) by nra.
    apply Z.abs_le. split; apply le_IZR;
      rewrite ?opp_IZR, ?mult_IZR, ?minus_IZR, ?mult_IZR; fold A Md; lra. }
  destruct Hacc as [Hacc1 Hacc2].
  split; [exact Hacc1 |]. split; [exact Hacc2 |].
  split; [reflexivity |]. split; [reflexivity |].
  apply Math_round_between. lra.
Qed.

(** ** The particle system *)

Module ParticleFacts.

Import ParticleSystem.

(** The loop count is the number of indices below the bound. *)
Lemma iterations_spec (b : R) (i : nat) :
  (i < iterations (Some b))%nat <-> INR i < b.
Proof.
  unfold iterations. destruct (base_Int_part (- b)) as [H1 H2].
  set (f := Int_part (- b)) in *. rewrite INR_IZR_INZ. split; intros H.
  - assert (Hz : (Z.of_nat i <= - f - 1)%Z) by lia.
    apply IZR_le in Hz. rewrite minus_IZR, opp_IZR in Hz. lra.
  - assert (Hz : (Z.of_nat i < - f)%Z) by (apply lt_IZR; rewrite opp_IZR; lra).
    lia.
Qed.

Lemma iter_invariant (P : t -> Prop) (f : t -> t) (n : nat) (sys : t) :
  (forall sys, P sys -> P (f sys)) -> P sys -> P (Nat.iter n f sys).
Proof.
  intros Hf Hs. induction n as [| n IH]; [exact Hs |]. cbn. apply Hf, IH.
Qed.

Lemma createParticle_alive (random : nat -> R) (type : ParticleType)
    (position velocity : vec) (sys : t) :
  Forall alive (particles sys) ->
  Forall alive (particles (createParticle random type position velocity sys)).
Proof.
  intros H. unfold createParticle. destruct (ge _ _); [exact H |].
  cbv zeta. cbn [particles]. apply Forall_app. split; [exact H |].
  constructor; [| constructor].
  unfold alive. cbn. destruct type; cbn; lra.
Qed.

Lemma explosionParticle_alive (random : nat -> R) (position : vec)
    (explosionColors : list Z) (sys : t) :
  Forall alive (particles sys) ->
  Forall alive (particles (explosionParticle random position explosionColors sys)).
Proof.
  intros H. unfold explosionParticle. cbv zeta. cbn [particles].
  apply Forall_app. split; [exact H |].
  constructor; [| constructor]. unfold alive. cbn. lra.
Qed.

Lemma update_particles (deltaTime : R) (sys : t) (P Q : Particle -> Prop) :
  (forall particle,
     P particle -> 0 < life (updateParticle deltaTime particle) ->
     Q (updateParticle deltaTime particle)) ->
  Forall P (particles sys) -> Forall Q (particles (update deltaTime sys)).
Proof.
  intros Hstep H. unfold update. cbv zeta. cbn [particles].
  induction H as [| p ps Hp Hps IH]; [constructor |].
  cbn [fold_right]. cbv zeta.
  destruct (Num.leb _ _) eqn:Hc; [exact IH |].
  apply NumFacts.leb_nspec in Hc. constructor; [| exact IH].
  apply Hstep; [exact Hp | lra].
Qed.

Lemma updateParticle_alive (deltaTime : R) (particle : Particle) :
  0 <= deltaTime -> alive particle ->
  0 < life (updateParticle deltaTime particle) ->
  alive (updateParticle deltaTime particle).
Proof.
  unfold alive, updateParticle. cbv zeta. cbn [life maxLife opacity].
  intros Hd ((H1 & H2) & H3 & _) Hl.
  assert (Hm : 0 < maxLife particle) by lra.
  assert (Hq : 0 < / maxLife particle) by (apply Rinv_0_lt_compat; exact Hm).
  split; [lra |]. split; [exact H3 |]. unfold Rdiv. split.
  - apply Rmult_lt_0_compat; assumption.
  - apply (Rmult_le_reg_r (maxLife particle)); [exact Hm |].
    rewrite Rmult_assoc, Rinv_l by lra. lra.
Qed.

Lemma perform_alive (random : nat -> R) (sys : t) (op : Op) :
  0 <= frameTime op ->
  Forall alive (particles sys) -> Forall alive (particles (perform random sys op)).
Proof.
  intros Hd H. destruct op as [p three | p | p | p | deltaTime]; cbn [perform].
  - unfold createScoreExplosion. cbv zeta.
    apply (iter_invariant (fun sys => Forall alive (particles sys))); [| exact H].
    intros sys'. apply explosionParticle_alive.
  - unfold createBallTrail. cbv zeta. destruct (Num.gtb _ _); [exact H |].
    apply createParticle_alive. exact H.
  - unfold createRimSparks.
    apply (iter_invariant (fun sys => Forall alive (particles sys))); [| exact H].
    intros sys'. apply createParticle_alive.
  - unfold createCourtDust.
    apply (iter_invariant (fun sys => Forall alive (particles sys))); [| exact H].
    intros sys'. apply createParticle_alive.
  - cbn in Hd. apply (update_particles deltaTime sys alive alive); [| exact H].
    intros particle. apply updateParticle_alive. exact Hd.
Qed.

Lemma run_alive (random : nat -> R) (ops : list Op) (sys : t) :
  Forall (fun op => 0 <= frameTime op) ops ->
  Forall alive (particles sys) -> Forall alive (particles (run random sys ops)).
Proof.
  unfold run. revert sys. induction ops as [| op ops IH]; intros sys Hd H; [exact H |].
  inversion Hd as [| op' ops' Hop Hops]; subst. cbn [fold_left].
  apply IH; [exact Hops |]. apply perform_alive; assumption.
Qed.

Lemma frames_expire (deltaTimes : list R) (sys : t) (L : R) :
  Forall (fun particle => 0 < life particle <= L) (particles sys) ->
  Forall (fun deltaTime => 0 <= deltaTime) deltaTimes ->
  L <= elapsed deltaTimes ->
  particles (frames sys deltaTimes) = [].
Proof.
  unfold frames. revert sys L.
  induction deltaTimes as [| d ds IH]; intros sys L H Hd He.
  - cbn in *. destruct (particles sys) as [| p ps]; [reflexivity |].
    inversion H as [| p' ps' Hp Hps]; subst. exfalso. lra.
  - inversion Hd as [| d' ds' Hd0 Hds]; subst. cbn [fold_left]. cbn in He.
    apply (IH (update d sys) (L - d)); [| exact Hds | unfold elapsed; lra].
    apply (update_particles d sys (fun particle => 0 < life particle <= L)); [| exact H].
    intros particle [H1 H2] Hl. split; [exact Hl |].
    unfold updateParticle. cbv zeta. cbn [life]. lra.
Qed.

(** X22: whatever [performanceLevel] is and whatever the program asks of the
    particle system, with non-negative frame times, every particle in it has
    life left, no more than it started with and at most 3 s, and an opacity
    in (0, 1]; and once the following updates add up to 3 s with nothing
    created in between, no particle is left. *)
Theorem particles_expire (random : nat -> R) (level : option R) (ops : list Op)
    (deltaTimes : list R) :
  Forall (fun op => 0 <= frameTime op) ops ->
  Forall (fun deltaTime => 0 <= deltaTime) deltaTimes ->
  3 <= elapsed deltaTimes ->
  let sys := run random (mk [] MAX_QUALITY_PARTICLES level 0) ops in
  Forall alive (particles sys) /\
  particles (frames sys deltaTimes) = [].
Proof.
  intros Hops Hd He. cbv zeta.
  pose proof (run_alive random ops (mk [] MAX_QUALITY_PARTICLES level 0) Hops
                (Forall_nil _)) as Ha.
  split; [exact Ha |].
  apply (frames_expire deltaTimes _ 3); [| exact Hd | exact He].
  apply (Forall_impl _ (P := alive)); [| exact Ha].
  intros particle ((H1 & H2) & H3 & _). lra.
Qed.

Lemma update_length (deltaTime : R) (sys : t) :
  (length (particles (update deltaTime sys)) <= length (particles sys))%nat.
Proof.
  unfold update. cbv zeta. cbn [particles].
  induction (particles sys) as [| p ps IH]; [apply le_n |].
  cbn [fold_right]. cbv zeta. destruct (Num.leb _ _); cbn [length]; lia.
Qed.

(** One call on a system whose [performanceLevel] is undefined. *)
Lemma perform_undefined (random : nat -> R) (sys : t) (op : Op) :
  performanceLevel sys = None ->
  Forall (fun particle => type particle = ballTrail) (particles sys) ->
  performanceLevel (perform random sys op) = None /\
  Forall (fun particle => type particle = ballTrail)
         (particles (perform random sys op)) /\
  (length (particles (perform random sys op)) <=
   length (particles sys) + (if isTrail op then 1 else 0))%nat.
Proof.
  intros Hl H. destruct op as [p three | p | p | p | deltaTime];
    cbn [perform isTrail].
  - unfold createScoreExplosion. cbv zeta. rewrite Hl. cbn.
    split; [first [exact Hl | reflexivity] |]. split; [exact H | lia].
  - unfold createBallTrail. cbv zeta. destruct (Num.gtb _ _).
    + cbn. repeat split; [exact Hl | exact H | lia].
    + unfold createParticle. cbn [particles performanceLevel maxParticles draws].
      rewrite Hl. cbn [times ge]. cbv zeta. cbn [particles performanceLevel].
      split; [reflexivity |]. split.
      * apply Forall_app. split; [exact H |]. constructor; [reflexivity | constructor].
      * rewrite length_app. cbn. lia.
  - unfold createRimSparks. rewrite Hl. cbn.
    split; [first [exact Hl | reflexivity] |]. split; [exact H | lia].
  - unfold createCourtDust. rewrite Hl. cbn.
    split; [first [exact Hl | reflexivity] |]. split; [exact H | lia].
  - split; [exact Hl |]. split.
    + apply (update_particles deltaTime sys
               (fun particle => type particle = ballTrail)); [| exact H].
      intros particle Hp _. exact Hp.
    + pose proof (update_length deltaTime sys). lia.
Qed.

Lemma run_undefined (random : nat -> R) (ops : list Op) (sys : t) :
  performanceLevel sys = None ->
  Forall (fun particle => type particle = ballTrail) (particles sys) ->
  performanceLevel (run random sys ops) = None /\
  Forall (fun particle => type particle = ballTrail)
         (particles (run random sys ops)) /\
  (length (particles (run random sys ops)) <=
   length (particles sys) + length (filter isTrail ops))%nat.
Proof.
  unfold run. revert sys. induction ops as [| op ops IH]; intros sys Hl H.
  - cbn. repeat split; [exact Hl | exact H | lia].
  - cbn [fold_left filter].
    destruct (perform_undefined random sys op Hl H) as (Hl' & H' & Hn).
    destruct (IH _ Hl' H') as (I1 & I2 & I3).
    split; [exact I1 |]. split; [exact I2 |].
    destruct (isTrail op); cbn [length]; lia.
Qed.

(** X23: the program never assigns [performanceLevel], so whatever it asks
    of the particle system only ball-trail particles ever exist, at most one
    per call of [createBallTrail]; a score explosion, rim sparks and court
    dust add nothing. *)
Theorem only_trails_appear (random : nat -> R) (ops : list Op) :
  let sys := run random constructor ops in
  Forall (fun particle => type particle = ballTrail) (particles sys) /\
  (length (particles sys) <= length (filter isTrail ops))%nat /\
  (forall position isThreePointer,
     createScoreExplosion random position isThreePointer sys = sys) /\
  (forall position, createRimSparks random position sys = sys) /\
  (forall position, createCourtDust random position sys = sys).
Proof.
  cbv zeta.
  destruct (run_undefined random ops constructor eq_refl (Forall_nil _))
    as (Hl & H & Hn).
  split; [exact H |]. split; [exact Hn |].
  unfold createScoreExplosion, createRimSparks, createCourtDust. cbv zeta.
  rewrite Hl. cbn. repeat split.
Qed.

End ParticleFacts.

Lemma particles_expire_witness :
  ParticleSystem.particles
    (ParticleSystem.frames
       (ParticleSystem.run (fun _ => 0.2)
          (ParticleSystem.mk [] ParticleSystem.MAX_QUALITY_PARTICLES None 0)
          [ParticleSystem.CreateBallTrail (Vector3.mk 0 1 0);
           ParticleSystem.Update 0.1])
       [1; 1; 1]) = [].
Proof.
  apply (ParticleFacts.particles_expire (fun _ => 0.2) None
           [ParticleSystem.CreateBallTrail (Vector3.mk 0 1 0);
            ParticleSystem.Update 0.1]
           [1; 1; 1]).
  - repeat constructor; cbn; lra.
  - repeat constructor; lra.
  - cbn. lra.
Defined.

(** *** Reset after a made basket *)

(** X24: a reset while the feedback timer of a made basket is still running
    empties the result, so once the following frames add up to the timer
    the attempt is reported as Missed: the result is Missed and the
    missed-shot feedback is shown once, while the score and the made shot
    stay counted. *)
Theorem reset_after_make_reports_miss (s : GameState) (frames : list R) :
  lastShotResult s = made ->
  shotFeedbackTimer s > 0 ->
  Forall (fun deltaTime => 0 <= deltaTime) frames ->
  shotFeedbackTimer s <= elapsed frames ->
  let final := run (resetBall s) (map Frame frames) in
  lastShotResult final = missed /\
  missFeedbacks final = (missFeedbacks s + 1)%Z /\
  score final = score s /\ shotsMade final = shotsMade s /\
  shotAttempts final = shotAttempts s.
Proof.
  intros Hm Ht Hf He. cbv zeta.
  destruct (grounded_timer_expires frames (resetBall s)) as (F1 & F2 & F3 & F4 & F5);
    try assumption; try reflexivity.
  repeat split; assumption.
Qed.

Lemma reset_after_make_reports_miss_witness :
  let s := scoreBasket rightHoop lateMake in
  let final := run (resetBall s) (map Frame [1]) in
  lastShotResult final = missed /\
  missFeedbacks final = (missFeedbacks s + 1)%Z /\
  score final = score s /\ shotsMade final = shotsMade s /\
  shotAttempts final = shotAttempts s.
Proof.
  apply (reset_after_make_reports_miss (scoreBasket rightHoop lateMake) [1]).
  - reflexivity.
  - cbn. lra.
  - repeat constructor; lra.
  - cbn. lra.
Defined.
